(** * ZondaPro: wind-load engine (CIRSOC 102-2005)

    A shallow embedding of the numeric core of the repository: the
    pressure assembly of [sse102/cirsoc/presiones/edificio.py], the gust
    and topographic factors of [sse102/cirsoc/factores.py], the coefficient
    look-ups of [zonda/cirsoc/cp] and the geometry helpers of
    [zonda/cirsoc/geometria].

    Python floats are idealised as exact numbers: real numbers where the
    code divides or uses square roots, powers, logarithms, exponentials or
    arc tangents, rational numbers where it only compares, filters and
    sorts its inputs.  Exceptions are values of an error monad. *)

From Stdlib Require Import Reals Lra Lia List Bool ZArith QArith Qround Qminmax.
From Stdlib Require Import Sorted Permutation SetoidList.
Import ListNotations.

(** ** Exceptions and the error monad *)

(** Modelled from the spec: the class [ErrorLineamientos] is declared in
    [zonda/excepciones.py], which is not among the sources; the spec calls it
    the normative non-applicability error and keeps it disjoint from the
    input-validation error, which the code raises as the builtin
    [ValueError].  The remaining constructors are Python builtins;
    [ResultadoComplejo] stands for a power of a negative base with a
    fractional exponent, which Python evaluates to a complex number. *)
Inductive excepcion : Type :=
  | ErrorLineamientos
  | ValueError
  | ZeroDivisionError
  | TypeError
  | ResultadoComplejo.

Inductive resultado (A : Type) : Type :=
  | Ok (a : A)
  | Falla (e : excepcion).

Arguments Ok {A} a.
Arguments Falla {A} e.

Definition ligar {A B : Type} (c : resultado A) (k : A -> resultado B) : resultado B :=
  match c with
  | Ok a => k a
  | Falla e => Falla e
  end.

Declare Scope py_scope.
Delimit Scope py_scope with py.
Notation "x <- c ;; k" := (ligar c (fun x => k))
  (at level 61, c at next level, right associativity) : py_scope.

(** ** sse102/enums.py *)

Module Enums.

Inductive Cerramiento : Type := CERRADO | PARCIALMENTE_CERRADO | ABIERTO.
Inductive CategoriaExposicion : Type := A | B | C | D.
Inductive Flexibilidad : Type := RIGIDA | FLEXIBLE.
Inductive TipoTerrenoTopografia : Type :=
  LOMA_BIDIMENSIONAL | ESCARPA_BIDIMENSIONAL | COLINA_TRIDIMENSIONAL.
Inductive DireccionTopografia : Type := BARLOVENTO | SOTAVENTO.
Inductive TipoCubierta : Type := PLANA | UN_AGUA | DOS_AGUAS.
Inductive PosicionBloqueoCubierta : Type := ALERO_BAJO | ALERO_ALTO.

End Enums.

(** ** Real-valued Python arithmetic *)

Module PyReal.
Local Open Scope R_scope.
Local Open Scope py_scope.

Definition Rleb (x y : R) : bool := if Rle_dec x y then true else false.
Definition Rltb (x y : R) : bool := if Rlt_dec x y then true else false.
Definition Reqb (x y : R) : bool := if Req_dec_T x y then true else false.

(** [x / y] on floats: [ZeroDivisionError] when the divisor is zero. *)
Definition py_div (x y : R) : resultado R :=
  if Reqb y 0 then Falla ZeroDivisionError else Ok (x / y).

(** [x ** y] on floats: a power of a positive base; of zero, 0, 1 or
    [ZeroDivisionError] by the sign of the exponent; of a negative base, a
    complex number unless the exponent is zero (the code raises negative
    bases to fractional exponents only). *)
Definition py_pow (x y : R) : resultado R :=
  if Rltb 0 x then Ok (Rpower x y)
  else if Reqb x 0 then
    (if Rltb 0 y then Ok 0
     else if Reqb y 0 then Ok 1
     else Falla ZeroDivisionError)
  else if Reqb y 0 then Ok 1
  else Falla ResultadoComplejo.

(** [math.log] and [math.log10]: [ValueError] outside the positive reals. *)
Definition math_log (x : R) : resultado R :=
  if Rltb 0 x then Ok (ln x) else Falla ValueError.

Definition log10 (x : R) : R := ln x / ln 10.

Definition math_log10 (x : R) : resultado R :=
  if Rltb 0 x then Ok (log10 x) else Falla ValueError.

(** [np.interp(x, xp, fp)] for increasing [xp], the table given as the
    list of its points [(xp_i, fp_i)]: the first ordinate up to the first
    abscissa, the last one from the last abscissa on, and the chord between
    the two neighbouring points in between. *)
Fixpoint interp_desde (x x0 f0 : R) (resto : list (R * R)) : R :=
  match resto with
  | [] => f0
  | (x1, f1) :: resto' =>
      if Rltb x x1 then (f1 - f0) / (x1 - x0) * (x - x0) + f0
      else interp_desde x x1 f1 resto'
  end.

Definition np_interp (x : R) (tabla : list (R * R)) : resultado R :=
  match tabla with
  | [] => Falla ValueError
  | (x0, f0) :: resto =>
      if Rleb x x0 then Ok f0 else Ok (interp_desde x x0 f0 resto)
  end.

End PyReal.

(** ** sse102/cirsoc/presiones/edificio.py *)

Module Presiones.
Import Enums PyReal.
Local Open Scope R_scope.
Local Open Scope py_scope.

(** [np.sign]: -1, 0 or 1. *)
Definition np_sign (x : R) : R :=
  if Rltb x 0 then -1 else if Rltb 0 x then 1 else 0.

(** [presion_minima]: [np.sign(presion) * max(500, abs(presion))]. *)
Definition presion_minima (presion : R) : R :=
  np_sign presion * Rmax 500 (Rabs presion).

Record PresionesEdificio : Type := { pos : R; neg : R }.

(** The attributes of [CubiertaSprfvMetodoDireccional] that the pressure
    assembly reads.  [presion_velocidad_media] is the value of the property
    of that name: the velocity pressure at the mean roof height. *)
Record CubiertaSprfvMetodoDireccional : Type := {
  cerramiento : Cerramiento;
  reducir_gcpi : bool;
  aberturas_totales : option R;
  volumen_interno : option R;
  presion_velocidad_media : R
}.

(** Truth value of an [Optional[float]]: [None] and [0.0] are false. *)
Definition verdadero (x : option R) : bool :=
  match x with
  | Some a => negb (Reqb a 0)
  | None => false
  end.

(** The guarded expression of [factor_reduccion_gcpi],
    [min(0.5 * (1 + 1 / (1 + volumen / 6954 / aberturas) ** 0.5), 1.0)]:
    a negative base makes the power complex, and the comparison inside
    [min] then raises [TypeError]. *)
Definition reduccion_gcpi (volumen aberturas : R) : resultado R :=
  x1 <- py_div volumen 6954 ;;
  x2 <- py_div x1 aberturas ;;
  match py_pow (1 + x2) 0.5 with
  | Ok raiz => x3 <- py_div 1 raiz ;; Ok (Rmin (0.5 * (1 + x3)) 1)
  | Falla ResultadoComplejo => Falla TypeError
  | Falla e => Falla e
  end.

Definition factor_reduccion_gcpi (self : CubiertaSprfvMetodoDireccional) : resultado R :=
  if reducir_gcpi self then
    match cerramiento self with
    | PARCIALMENTE_CERRADO =>
        match volumen_interno self with
        | Some volumen =>
            if verdadero (aberturas_totales self) then
              match aberturas_totales self with
              | Some aberturas => reduccion_gcpi volumen aberturas
              | None => Ok 1
              end
            else Ok 1
        | None => Ok 1
        end
    | _ => Ok 1
    end
  else Ok 1.

Definition cerramiento_gcpi (c : Cerramiento) : R :=
  match c with
  | CERRADO => 0.18
  | PARCIALMENTE_CERRADO => 0.55
  | ABIERTO => 0.0
  end.

Definition gcpi (self : CubiertaSprfvMetodoDireccional) : resultado R :=
  f <- factor_reduccion_gcpi self ;;
  Ok (cerramiento_gcpi (cerramiento self) * f).

(** [CubiertaSprfvMetodoDireccional._presiones]. *)
Definition _presiones (presion_velocidad cp factor_rafaga presion_velocidad_media gcpi : R)
    (considerar_presion_minima : bool) : PresionesEdificio :=
  let q1 := presion_velocidad * factor_rafaga * cp in
  let q2 := presion_velocidad_media * gcpi in
  let q_pos := q1 - q2 in
  let q_neg := q1 + q2 in
  if considerar_presion_minima
  then {| pos := presion_minima q_pos; neg := presion_minima q_neg |}
  else {| pos := q_pos; neg := q_neg |}.

(** [AleroSprfvMetodoDireccional._presiones]: a single pressure, no
    internal-pressure term. *)
Definition _presiones_alero (presion_velocidad cp factor_rafaga : R)
    (considerar_presion_minima : bool) : R :=
  let presion := presion_velocidad * factor_rafaga * cp in
  if considerar_presion_minima then presion_minima presion else presion.

(** [self._presion_media_parcial]: [_presiones] with the velocity pressure
    at the mean roof height in both pressure slots and [self.gcpi]. *)
Definition _presion_media_parcial (self : CubiertaSprfvMetodoDireccional)
    (cp factor_rafaga : R) (considerar_presion_minima : bool) : resultado PresionesEdificio :=
  g <- gcpi self ;;
  Ok (_presiones (presion_velocidad_media self) cp factor_rafaga
        (presion_velocidad_media self) g considerar_presion_minima).

(** [AleroSprfvMetodoDireccional._presion_media_parcial]. *)
Definition _presion_media_parcial_alero (self : CubiertaSprfvMetodoDireccional)
    (cp factor_rafaga : R) (considerar_presion_minima : bool) : R :=
  _presiones_alero (presion_velocidad_media self) cp factor_rafaga considerar_presion_minima.

(** One entry of [ParedesSprfvMetodoDireccional.valores]: the call passes
    [self.gcpi] and [self.presion_velocidad_media] positionally, in that
    order, to the parameters [presion_velocidad_media] and [gcpi]. *)
Definition presion_pared (self : CubiertaSprfvMetodoDireccional) (qi cp factor_rafaga : R)
    : resultado PresionesEdificio :=
  g <- gcpi self ;;
  Ok (_presiones qi cp factor_rafaga g (presion_velocidad_media self) false).

(** Traversal of a dictionary whose values may fail. *)
Fixpoint recorrer {K A B : Type} (f : A -> resultado B) (d : list (K * A))
    : resultado (list (K * B)) :=
  match d with
  | [] => Ok []
  | (k, a) :: resto =>
      b <- f a ;;
      bs <- recorrer f resto ;;
      Ok ((k, b) :: bs)
  end.

(** [MixinCr._presiones_componentes] for a roof or wall object: every
    coefficient goes through [_presion_media_parcial] with a gust factor of
    1 and the minimum-pressure check on. *)
Definition _presiones_componentes {nombre zona : Type} (self : CubiertaSprfvMetodoDireccional)
    (valores_cp : option (list (nombre * list (zona * R))))
    : resultado (option (list (nombre * list (zona * PresionesEdificio)))) :=
  match valores_cp with
  | None => Ok None
  | Some d =>
      r <- recorrer (recorrer (fun valor_cp => _presion_media_parcial self valor_cp 1 true)) d ;;
      Ok (Some r)
  end.

(** [MixinCr._presiones_componentes] for [AleroComponentes]. *)
Definition _presiones_componentes_alero {nombre zona : Type} (self : CubiertaSprfvMetodoDireccional)
    (valores_cp : option (list (nombre * list (zona * R))))
    : option (list (nombre * list (zona * R))) :=
  match valores_cp with
  | None => None
  | Some d =>
      Some (map (fun nz => (fst nz,
              map (fun zc => (fst zc, _presion_media_parcial_alero self (snd zc) 1 true))
                  (snd nz))) d)
  end.

End Presiones.

(** ** sse102/cirsoc/factores.py *)

Module Factores.
Import Enums PyReal.
Local Open Scope R_scope.
Local Open Scope py_scope.

Record Constantes : Type := {
  alfa : R; zg : R; a_hat : R; b_hat : R; alpha_bar : R;
  b_bar : R; c : R; le : R; ep_bar : R; zmin : R
}.

Definition _constantes_exposicion (cat : CategoriaExposicion) : Constantes :=
  match cat with
  | A => Build_Constantes 5 457 (1 / 5) 0.64 (1 / 3) 0.3 0.45 55 (1 / 2) 18.3
  | B => Build_Constantes 7 366 (1 / 7) 0.84 (1 / 4) 0.45 0.3 98 (1 / 3) 9.2
  | C => Build_Constantes 9.5 274 (1 / 9.5) 1 (1 / 6.5) 0.65 0.2 152 (1 / 5) 4.6
  | D => Build_Constantes 11.5 213 (1 / 11.5) 1.07 (1 / 9) 0.8 0.15 198 (1 / 8) 2.1
  end.

(** *** Rafaga *)

Record Rafaga : Type := {
  ancho : R;
  longitud : R;
  altura : R;
  altura_rafaga : R;
  velocidad : R;
  frecuencia : R;
  beta : R;
  flexibilidad : Flexibilidad;
  factor_g_simplificado : bool;
  categoria_exp : CategoriaExposicion
}.

Definition constantes_exp_terreno (self : Rafaga) : Constantes :=
  _constantes_exposicion (categoria_exp self).

Record ParametrosRafaga : Type := {
  z : R; iz : R; lz : R; gr : option R; r : option R
}.

Definition es_flexible (f : Flexibilidad) : bool :=
  match f with FLEXIBLE => true | RIGIDA => false end.

(** One term of the tuple [ri]. *)
Definition ri (j : R) : resultado R :=
  if Rltb 0 j then
    a <- py_div 1 j ;;
    b <- py_div (1 - exp (-2 * j)) (2 * (j * j)) ;;
    Ok (a - b)
  else Ok 1.

Definition parametros (self : Rafaga) : resultado ParametrosRafaga :=
  let k := constantes_exp_terreno self in
  let z := Rmax (altura_rafaga self) (zmin k) in
  q <- py_div 10 z ;;
  p <- py_pow q (1 / 6) ;;
  let iz := c k * p in
  q' <- py_div z 10 ;;
  p' <- py_pow q' (ep_bar k) ;;
  let lz := le k * p' in
  if es_flexible (flexibilidad self) then
    l <- math_log (3600 * frecuencia self) ;;
    g1 <- py_pow (2 * l) 0.5 ;;
    g2 <- py_div 0.577 g1 ;;
    let gr := g1 + g2 in
    v <- py_pow q' (alpha_bar k) ;;
    let vz := b_bar k * v * velocidad self in
    n1 <- py_div (frecuencia self * lz) vz ;;
    d <- py_pow (1 + 10.3 * n1) (5 / 3) ;;
    rn <- py_div (7.47 * n1) d ;;
    nh <- py_div (4.6 * frecuencia self * altura self) vz ;;
    nb <- py_div (4.6 * frecuencia self * ancho self) vz ;;
    nl <- py_div (15.4 * frecuencia self * longitud self) vz ;;
    rh <- ri nh ;;
    rb <- ri nb ;;
    rl <- ri nl ;;
    t <- py_div (rn * rh * rb * (0.53 + 0.47 * rl)) (beta self) ;;
    r <- py_pow t 0.5 ;;
    Ok (Build_ParametrosRafaga z iz lz (Some gr) (Some r))
  else Ok (Build_ParametrosRafaga z iz lz None None).

Definition factor_q (self : Rafaga) : resultado R :=
  p <- parametros self ;;
  q <- py_div (longitud self + altura self) (lz p) ;;
  e <- py_pow q 0.63 ;;
  i <- py_div 1 (1 + 0.63 * e) ;;
  py_pow i 0.5.

Definition _rigida (self : Rafaga) : resultado R :=
  p <- parametros self ;;
  fq <- factor_q self ;;
  q <- py_div (1 + 1.7 * 3.4 * iz p * fq) (1 + 1.7 * 3.4 * iz p) ;;
  Ok (q * 0.925).

(** [gr] and [r] are [None] for a rigid structure; multiplying them raises
    [TypeError]. *)
Definition _flexible (self : Rafaga) : resultado R :=
  p <- parametros self ;;
  fq <- factor_q self ;;
  match gr p, r p with
  | Some g, Some r' =>
      s <- py_pow ((3.4 * fq) * (3.4 * fq) + (g * r') * (g * r')) 0.5 ;;
      q <- py_div (1 + 1.7 * iz p * s) (1 + 1.7 * 3.4 * iz p) ;;
      Ok (q * 0.925)
  | _, _ => Falla TypeError
  end.

Definition factor (self : Rafaga) : resultado R :=
  if factor_g_simplificado self then Ok 0.85
  else if es_flexible (flexibilidad self) then _flexible self
  else _rigida self.

(** *** Topografia *)

(** [EscalarOArray]: a float or a numpy array of floats. *)
Inductive EscalarOArray : Type :=
  | Escalar (x : R)
  | Array (xs : list R).

(** Element-wise application, as numpy broadcasts a scalar function. *)
Definition elemento_a_elemento (f : R -> R) (v : EscalarOArray) : EscalarOArray :=
  match v with
  | Escalar x => Escalar (f x)
  | Array xs => Array (map f xs)
  end.

Definition entradas (v : EscalarOArray) : list R :=
  match v with
  | Escalar x => [x]
  | Array xs => xs
  end.

Record Topografia : Type := {
  topo_categoria_exp : CategoriaExposicion;
  considerar_topografia : bool;
  tipo_terreno : TipoTerrenoTopografia;
  altura_terreno : R;
  distancia_cresta : R;
  distancia_barlovento_sotavento : R;
  direccion : DireccionTopografia;
  alturas : EscalarOArray
}.

Definition en_A_B (cat : CategoriaExposicion) : bool :=
  match cat with A | B => true | _ => false end.

Definition en_C_D (cat : CategoriaExposicion) : bool :=
  match cat with C | D => true | _ => false end.

Definition topografia_considerada (self : Topografia) : resultado bool :=
  if negb (considerar_topografia self) then Ok false
  else
    q <- py_div (altura_terreno self) (distancia_cresta self) ;;
    if Rleb 0.2 q
       && ((en_A_B (topo_categoria_exp self) && Rltb 20 (altura_terreno self))
           || (en_C_D (topo_categoria_exp self) && Rltb 5 (altura_terreno self)))
    then Ok true
    else Ok false.

(** The table [param_topo_vel] (CIRSOC 102-2005 Fig. 2). *)
Definition tabla_factor_k (t : TipoTerrenoTopografia) (cat : CategoriaExposicion) : R :=
  match t, cat with
  | LOMA_BIDIMENSIONAL, A => 1.3
  | LOMA_BIDIMENSIONAL, B => 1.3
  | LOMA_BIDIMENSIONAL, C => 1.45
  | LOMA_BIDIMENSIONAL, D => 1.55
  | ESCARPA_BIDIMENSIONAL, A => 0.75
  | ESCARPA_BIDIMENSIONAL, B => 0.75
  | ESCARPA_BIDIMENSIONAL, C => 0.85
  | ESCARPA_BIDIMENSIONAL, D => 0.95
  | COLINA_TRIDIMENSIONAL, A => 0.95
  | COLINA_TRIDIMENSIONAL, B => 0.95
  | COLINA_TRIDIMENSIONAL, C => 1.05
  | COLINA_TRIDIMENSIONAL, D => 1.15
  end.

Definition tabla_gamma (t : TipoTerrenoTopografia) : R :=
  match t with
  | LOMA_BIDIMENSIONAL => 3.0
  | ESCARPA_BIDIMENSIONAL => 2.5
  | COLINA_TRIDIMENSIONAL => 4.0
  end.

Definition tabla_mu (t : TipoTerrenoTopografia) (d : DireccionTopografia) : R :=
  match t, d with
  | LOMA_BIDIMENSIONAL, BARLOVENTO => 1.5
  | LOMA_BIDIMENSIONAL, SOTAVENTO => 1.5
  | ESCARPA_BIDIMENSIONAL, BARLOVENTO => 1.5
  | ESCARPA_BIDIMENSIONAL, SOTAVENTO => 4.0
  | COLINA_TRIDIMENSIONAL, BARLOVENTO => 1.5
  | COLINA_TRIDIMENSIONAL, SOTAVENTO => 1.5
  end.

Record ParametrosTopograficos : Type := {
  factor_k : R; gamma : R; mu : R; lh : R; k1 : R; k2 : R; k3 : EscalarOArray
}.

(** [Topografia.parametros].  The division by [lh] in [k1] comes first, so
    a zero [lh] has already raised when [k3] is formed. *)
Definition topo_parametros (self : Topografia) : resultado ParametrosTopograficos :=
  let lh := Rmax (distancia_cresta self) (2 * altura_terreno self) in
  let k_factor := tabla_factor_k (tipo_terreno self) (topo_categoria_exp self) in
  let gamma := tabla_gamma (tipo_terreno self) in
  let mu := tabla_mu (tipo_terreno self) (direccion self) in
  k1 <- py_div (k_factor * altura_terreno self) lh ;;
  a <- py_div (distancia_barlovento_sotavento self) mu ;;
  b <- py_div a lh ;;
  let k2 := 1 - b in
  let k3 := elemento_a_elemento (fun altura => exp (-1 * gamma * altura / lh)) (alturas self) in
  Ok (Build_ParametrosTopograficos k_factor gamma mu lh k1 k2 k3).

(** [Topografia.factor]: ones of the shape of [alturas] when the topography
    is not considered, [(1 + k1 * k2 * k3) ** 2] otherwise. *)
Definition topo_factor (self : Topografia) : resultado EscalarOArray :=
  considerada <- topografia_considerada self ;;
  if negb considerada then Ok (elemento_a_elemento (fun _ => 1) (alturas self))
  else
    p <- topo_parametros self ;;
    Ok (elemento_a_elemento
          (fun k3 => (1 + k1 p * k2 p * k3) * (1 + k1 p * k2 p * k3)) (k3 p)).

End Factores.

(** ** zonda/cirsoc/cp/edificio.py *)

Module CpEdificio.
Import Enums PyReal.
Local Open Scope R_scope.
Local Open Scope py_scope.

(** [calcular_cp_componente]; [cps] and [areas] are pairs. *)
Definition calcular_cp_componente (cps areas : R * R) (area_componente : R) : resultado R :=
  let '(primer_cp, ultimo_cp) := cps in
  let '(primer_area, ultima_area) := areas in
  if Rleb area_componente primer_area then Ok primer_cp
  else if Rleb ultima_area area_componente then Ok ultimo_cp
  else
    q <- py_div ultima_area primer_area ;;
    l <- math_log10 q ;;
    g <- py_div (ultimo_cp - primer_cp) l ;;
    q' <- py_div area_componente primer_area ;;
    l' <- math_log10 q' ;;
    Ok (primer_cp + g * l').

End CpEdificio.

(** ** zonda/cirsoc/geometria/cubiertas.py *)

Module Cubiertas.
Import Enums PyReal.
Local Open Scope R_scope.
Local Open Scope py_scope.

(** The attributes of [Cubierta] that the slope and the mean height read. *)
Record Cubierta : Type := {
  ancho : R;
  longitud : R;
  altura_alero : R;
  altura_cumbrera : R;
  tipo_cubierta : TipoCubierta
}.

(** [Cubierta.__init__]: a flat roof takes its eave height as its ridge
    height. *)
Definition Cubierta_init (ancho longitud altura_alero altura_cumbrera : R)
    (tipo_cubierta : TipoCubierta) : Cubierta :=
  {| ancho := ancho;
     longitud := longitud;
     altura_alero := altura_alero;
     altura_cumbrera :=
       match tipo_cubierta with
       | PLANA => altura_alero
       | _ => altura_cumbrera
       end;
     tipo_cubierta := tipo_cubierta |}.

(** [math.degrees]. *)
Definition math_degrees (x : R) : R := x * (180 / PI).

Definition angulo (self : Cubierta) : resultado R :=
  pendiente <- py_div (altura_cumbrera self - altura_alero self) (ancho self) ;;
  let pendiente' :=
    match tipo_cubierta self with
    | DOS_AGUAS => pendiente * 2
    | _ => pendiente
    end in
  Ok (math_degrees (atan pendiente')).

Definition altura_media (self : Cubierta) : resultado R :=
  a <- angulo self ;;
  if Rleb a 10 then Ok (altura_alero self)
  else Ok ((altura_alero self + altura_cumbrera self) / 2).

End Cubiertas.

(** ** Comparisons of rational numbers *)

Module PyRac.
Local Open Scope Q_scope.

Definition Qleb (x y : Q) : bool := Qle_bool x y.
Definition Qltb (x y : Q) : bool := negb (Qle_bool y x).
Definition Qeqb (x y : Q) : bool := Qeq_bool x y.

End PyRac.

(** ** zonda/cirsoc/cp/aisladas.py *)

Module CpAisladas.
Import Enums PyRac.
Local Open Scope Q_scope.

Record CubiertaAislada : Type := {
  tipo_cubierta : TipoCubierta;
  angulo : Q;
  relacion_bloqueo : Q;
  posicion_bloqueo : PosicionBloqueoCubierta
}.

Definition es_dos_aguas (t : TipoCubierta) : bool :=
  match t with DOS_AGUAS => true | _ => false end.

Definition es_un_agua (t : TipoCubierta) : bool :=
  match t with UN_AGUA => true | _ => false end.

(** [CubiertaAislada.__init__]: the four guards in the order of the code. *)
Definition CubiertaAislada_init (tipo_cubierta : TipoCubierta) (angulo relacion_bloqueo : Q)
    (posicion_bloqueo : PosicionBloqueoCubierta) : resultado CubiertaAislada :=
  if negb (Qleb 0 relacion_bloqueo && Qleb relacion_bloqueo 1) then Falla ValueError
  else if negb (es_dos_aguas tipo_cubierta || es_un_agua tipo_cubierta)
  then Falla ErrorLineamientos
  else if (Qltb (-5) angulo && Qltb angulo 5) && es_dos_aguas tipo_cubierta
  then Falla ErrorLineamientos
  else if negb (Qleb 0 angulo && Qleb angulo 30) && es_un_agua tipo_cubierta
  then Falla ErrorLineamientos
  else Ok {| tipo_cubierta := tipo_cubierta;
             angulo := angulo;
             relacion_bloqueo := relacion_bloqueo;
             posicion_bloqueo := posicion_bloqueo |}.

End CpAisladas.

(** ** zonda/cirsoc/cp/cartel.py *)

Module CpCartel.
Import PyReal.
Local Open Scope R_scope.
Local Open Scope py_scope.

Record Cartel : Type := {
  altura_inferior : R;
  altura_neta : R;
  ancho : R;
  es_parapeto : bool
}.

Definition sobre_nivel_terreno (self : Cartel) : bool :=
  if Rltb (altura_inferior self) (0.25 * altura_neta self) || es_parapeto self
  then false
  else true.

Definition cfs : list R := [1.2; 1.3; 1.4; 1.5; 1.75; 1.85; 2].

(** [m_n] of [_sobre_nivel_terreno], paired with [cfs]. *)
Definition tabla_sobre_nivel : list (R * R) := combine [6; 10; 16; 20; 40; 60; 80] cfs.

(** [m_n] of [_a_nivel_terreno], paired with [cfs]. *)
Definition tabla_a_nivel : list (R * R) := combine [3; 5; 8; 10; 20; 30; 40] cfs.

Definition _sobre_nivel_terreno (self : Cartel) : resultado R :=
  let m := Rmax (altura_neta self) (ancho self) in
  let n := Rmin (altura_neta self) (ancho self) in
  q <- py_div m n ;;
  np_interp q tabla_sobre_nivel.

Definition _a_nivel_terreno (self : Cartel) : resultado R :=
  q <- py_div (altura_neta self) (ancho self) ;;
  np_interp q tabla_a_nivel.

Definition cf (self : Cartel) : resultado R :=
  if sobre_nivel_terreno self then _sobre_nivel_terreno self
  else _a_nivel_terreno self.

End CpCartel.

(** ** zonda/cirsoc/geometria/utils_alturas.py *)

Module UtilsAlturas.
Import PyRac.
Local Open Scope Q_scope.

(** [range(a, b, 1)]. *)
Definition rango (a b : Z) : list Z :=
  map (fun i => (a + Z.of_nat i)%Z) (seq 0 (Z.to_nat (b - a))).

(** [x in l], by the equality of numbers. *)
Definition contiene (x : Q) (l : list Q) : bool := existsb (Qeqb x) l.

(** [list.sort]: a stable sort, here by insertion. *)
Fixpoint insertar (x : Q) (l : list Q) : list Q :=
  match l with
  | [] => [x]
  | y :: l' => if Qleb x y then x :: l else y :: insertar x l'
  end.

Definition ordenar (l : list Q) : list Q := fold_right insertar [] l.

(** The loop over [alturas_caracteristicas]: a height is appended when the
    list does not hold it yet. *)
Definition agregar_faltantes (alturas caracteristicas : list Q) : list Q :=
  fold_left (fun acc altura => if contiene altura acc then acc else acc ++ [altura])
            caracteristicas alturas.

(** The list the loop starts from: the custom heights within the bounds,
    or the integers from [ceil(altura_inferior)] up to, and without,
    [ceil(altura_superior)]. *)
Definition alturas_iniciales (altura_inferior altura_superior : Q)
    (alturas_personalizadas : option (list Q)) : list Q :=
  match alturas_personalizadas with
  | Some l => filter (fun altura => Qleb altura_inferior altura && Qleb altura altura_superior) l
  | None => map inject_Z (rango (Qceiling altura_inferior) (Qceiling altura_superior))
  end.

Definition array_alturas (altura_inferior altura_superior : Q)
    (alturas_personalizadas : option (list Q)) (otras_alturas : list Q) : list Q :=
  ordenar
    (agregar_faltantes
       (alturas_iniciales altura_inferior altura_superior alturas_personalizadas)
       (altura_inferior :: altura_superior :: otras_alturas)).

End UtilsAlturas.

(** ** sse102/enums.py, further enumerations *)

Module MasEnums.

Inductive CategoriaEstructura : Type := I | II | III | IV.
(** [ZonaComponenteParedEdificio.TODAS] is [TODAS_PARED] here. *)
Inductive ZonaComponenteParedEdificio : Type := CUATRO | CINCO | TODAS_PARED.
Inductive ZonaComponenteCubiertaEdificio : Type :=
  UNO | DOS | TRES | DOS_PRIMA | TRES_PRIMA | TODAS.

(** The reference strings of [ParedesComponentes]: ["Figura 5A"] and
    ["Figura 8"]. *)
Inductive ReferenciaPared : Type := Pared_Figura_5A | Pared_Figura_8.

(** The reference strings of [CubiertaComponentes], the keys of its
    dictionary [casos]: ["Figura 5B"], ["Figura 5B (cont.) 1"],
    ["Figura 5B (cont.) 2"], ["Figura 7A"], ["Figura 7A (cont.)"] and
    ["Figura 8"]. *)
Inductive ReferenciaCubierta : Type :=
  | Figura_5B
  | Figura_5B_cont_1
  | Figura_5B_cont_2
  | Figura_7A
  | Figura_7A_cont
  | Figura_8.

End MasEnums.

(** ** sse102/cirsoc/presiones/base.py *)

Module PresionesBase.
Import Enums MasEnums PyReal Factores.
Local Open Scope R_scope.
Local Open Scope py_scope.

(** The attributes of [PresionesBase].  [caso_altura_limite] is the
    argument the class hands to [_calcular_altura_limite] in its
    [_altura_limite] property: 2 in the base class, 1 in the component
    classes that override the property. *)
Record PresionesBase : Type := {
  alturas : EscalarOArray;
  categoria : CategoriaEstructura;
  velocidad : R;
  rafaga : Rafaga;
  factor_topografico : EscalarOArray;
  factor_direccionalidad : R;
  categoria_exp : CategoriaExposicion;
  caso_altura_limite : Z
}.

Definition factor_importancia (self : PresionesBase) : R :=
  match categoria self with
  | I => 0.87
  | II => 1.0
  | III => 1.15
  | IV => 1.15
  end.

Definition _calcular_altura_limite (self : PresionesBase) (caso : Z) : R :=
  if (caso =? 1)%Z then
    match categoria_exp self with
    | A => 30
    | B => 10
    | _ => 5
    end
  else 5.

Definition _altura_limite (self : PresionesBase) : R :=
  _calcular_altura_limite self (caso_altura_limite self).

Definition _kz (altura altura_limite alfa zg : R) : resultado R :=
  q <- py_div (Rmax altura altura_limite) zg ;;
  e <- py_div 2 alfa ;;
  p <- py_pow q e ;;
  Ok (2.01 * p).

(** A function that may fail, over every element of a list. *)
Fixpoint mapear {X Y : Type} (f : X -> resultado Y) (l : list X) : resultado (list Y) :=
  match l with
  | [] => Ok []
  | x :: resto =>
      y <- f x ;;
      ys <- mapear f resto ;;
      Ok (y :: ys)
  end.

(** [coeficientes_exposicion]: [_kz] at every height of an array, or at
    the height itself when it cannot be iterated. *)
Definition coeficientes_exposicion (self : PresionesBase) : resultado EscalarOArray :=
  let k := constantes_exp_terreno (rafaga self) in
  let kz_parcial_func := fun altura => _kz altura (_altura_limite self) (alfa k) (zg k) in
  match alturas self with
  | Array hs => xs <- mapear kz_parcial_func hs ;; Ok (Array xs)
  | Escalar h => x <- kz_parcial_func h ;; Ok (Escalar x)
  end.

(** Product of a number and a scalar-or-array. *)
Definition escalar_por (k : R) (v : EscalarOArray) : EscalarOArray :=
  elemento_a_elemento (fun x => k * x) v.

(** [a * b] with numpy broadcasting: arrays multiply element by element
    when their lengths agree or one of them has a single element, and
    raise [ValueError] otherwise. *)
Definition multiplicar (a b : EscalarOArray) : resultado EscalarOArray :=
  match a, b with
  | Escalar x, _ => Ok (escalar_por x b)
  | Array xs, Escalar y => Ok (elemento_a_elemento (fun x => x * y) a)
  | Array xs, Array ys =>
      if (length xs =? length ys)%nat
      then Ok (Array (map (fun p => fst p * snd p) (combine xs ys)))
      else match xs, ys with
           | [x], _ => Ok (Array (map (fun y => x * y) ys))
           | _, [y] => Ok (Array (map (fun x => x * y) xs))
           | _, _ => Falla ValueError
           end
  end.

(** [presiones_velocidad]:
    [0.613 * Kd * Kz * Kzt * I * V ** 2], from left to right. *)
Definition presiones_velocidad (self : PresionesBase) : resultado EscalarOArray :=
  kz <- coeficientes_exposicion self ;;
  p <- multiplicar (escalar_por (0.613 * factor_direccionalidad self) kz)
                   (factor_topografico self) ;;
  Ok (elemento_a_elemento
        (fun x => x * factor_importancia self * (velocidad self * velocidad self)) p).

End PresionesBase.

(** ** zonda/cirsoc/cp/edificio.py, walls *)

Module CpParedes.
Import Enums MasEnums PyReal CpEdificio.
Local Open Scope R_scope.
Local Open Scope py_scope.

(** The two shapes [seleccionar_cp_area] is called with: a pair of
    coefficients with a pair of areas, or a tuple of such pairs with the
    tuple of their area pairs. *)
Inductive TablaCp : Type :=
  | Par (cps areas : R * R)
  | Tramos (cps areas : list (R * R)).

(** The loop of [seleccionar_cp_area] over [zip(cps, areas)]: the first
    segment whose last area is not below the component's, or else the
    last segment. *)
Fixpoint seleccionar_tramo (cp_areas : list ((R * R) * (R * R))) (area_componente : R)
    : option ((R * R) * (R * R)) :=
  match cp_areas with
  | [] => None
  | (cp, area) :: resto =>
      if Rltb (snd area) area_componente then
        match resto with
        | [] => Some (cp, area)
        | _ :: _ => seleccionar_tramo resto area_componente
        end
      else Some (cp, area)
  end.

(** [seleccionar_cp_area]; [None] is Python's, returned when the loop runs
    over no segment. *)
Definition seleccionar_cp_area (tabla : TablaCp) (area_componente : R)
    : option ((R * R) * (R * R)) :=
  match tabla with
  | Par cps areas => Some (cps, areas)
  | Tramos cps areas => seleccionar_tramo (combine cps areas) area_componente
  end.

Definition distancia_a (ancho longitud altura_media : R) : R :=
  let menor_dimension_horizontal := Rmin ancho longitud in
  let valor_propuesto := Rmin (0.1 * menor_dimension_horizontal) (0.4 * altura_media) in
  let limite_minimo := Rmax (0.04 * menor_dimension_horizontal) 1 in
  Rmax valor_propuesto limite_minimo.

(** [ParedesSprfvMetodoDireccional._cp_pared_sotavento]. *)
Definition _cp_pared_sotavento (dimension_paralela dimension_normal : R) : resultado R :=
  q <- py_div dimension_paralela dimension_normal ;;
  np_interp q (combine [0; 1; 2; 4] [-0.5; -0.5; -0.3; -0.2]).

(** The coefficients of the three walls for one wind direction. *)
Record CpParedesSprfv : Type := {
  cp_barlovento : R;
  cp_lateral : R;
  cp_sotavento : R
}.

(** [ParedesSprfvMetodoDireccional.valores]: the dictionaries of the
    directions [PARALELO] and [NORMAL], in that order. *)
Definition paredes_sprfv_valores (ancho longitud : R)
    : resultado (CpParedesSprfv * CpParedesSprfv) :=
  pared_sotavento_cp_paralelo <- _cp_pared_sotavento longitud ancho ;;
  pared_sotavento_cp_normal <- _cp_pared_sotavento ancho longitud ;;
  Ok ({| cp_barlovento := 0.8; cp_lateral := -0.7;
         cp_sotavento := pared_sotavento_cp_paralelo |},
      {| cp_barlovento := 0.8; cp_lateral := -0.7;
         cp_sotavento := pared_sotavento_cp_normal |}).

(** The attributes of [ParedesComponentes] but [componentes], which the
    functions below take as an argument: a dictionary from the name of a
    component to its area, or [None]. *)
Record ParedesComponentes : Type := {
  ancho : R;
  longitud : R;
  altura_media : R;
  angulo_cubierta : R
}.

Definition referencia (self : ParedesComponentes) : ReferenciaPared :=
  if Rleb (altura_media self) 20 then Pared_Figura_5A else Pared_Figura_8.

Definition valores_zonas_cp (ref : ReferenciaPared)
    : list (ZonaComponenteParedEdificio * (R * R)) :=
  match ref with
  | Pared_Figura_5A => [(CUATRO, (-1.1, -0.8)); (CINCO, (-1.4, -0.8)); (TODAS_PARED, (1, 0.7))]
  | Pared_Figura_8 => [(CUATRO, (-0.9, -0.7)); (CINCO, (-1.8, -1)); (TODAS_PARED, (0.9, 0.6))]
  end.

Definition factor_reduccion (self : ParedesComponentes) : R :=
  match referencia self with
  | Pared_Figura_8 => 1
  | Pared_Figura_5A => if Rleb (angulo_cubierta self) 10 then 0.9 else 1
  end.

Definition area_paredes (self : ParedesComponentes) : R * R :=
  match referencia self with
  | Pared_Figura_8 => (2, 50)
  | Pared_Figura_5A => (1, 50)
  end.

(** [ParedesComponentes.valores]. *)
Definition valores {nombre : Type} (self : ParedesComponentes)
    (componentes : option (list (nombre * R)))
    : resultado (option (list (nombre * list (ZonaComponenteParedEdificio * R)))) :=
  match componentes with
  | None => Ok None
  | Some d =>
      r <- Presiones.recorrer
             (fun area_componente =>
                Presiones.recorrer
                  (fun cp =>
                     v <- calcular_cp_componente cp (area_paredes self) area_componente ;;
                     Ok (v * factor_reduccion self))
                  (valores_zonas_cp (referencia self)))
             d ;;
      Ok (Some r)
  end.

End CpParedes.

(** ** zonda/cirsoc/cp/edificio.py, roofs *)

Module CpCubierta.
Import Enums MasEnums PyReal CpEdificio CpParedes PresionesBase.
Local Open Scope R_scope.
Local Open Scope py_scope.

(** *** CubiertaSprfvMetodoDireccional *)

Record CubiertaSprfv : Type := {
  ancho : R;
  longitud : R;
  altura_media : R;
  angulo : R;
  tipo_cubierta : TipoCubierta
}.

Definition normal_como_paralelo (self : CubiertaSprfv) : bool :=
  if Rltb (angulo self) 10 then true else false.

Definition _area_cp_cubierta (altura_media_cubierta dimension_paralela dimension_normal : R)
    : R :=
  let min_dimension := Rmin (altura_media_cubierta / 2) dimension_paralela in
  min_dimension * dimension_normal.

(** The table of the reduction factor, by area. *)
Definition tabla_reduccion : list (R * R) := combine [10; 25; 100] [1.0; 0.9; 0.8].

(** [np.interp] of one abscissa over several rows of ordinates, as the
    generators handed to [np.fromiter] do. *)
Definition interpolar_filas (x : R) (xp : list R) (filas : list (list R))
    : resultado (list R) :=
  mapear (fun fila => np_interp x (combine xp fila)) filas.

(** [_cp_cubierta_angulo_menor_diez]; the generator divides by
    [dimension_paralela] when [np.fromiter] consumes it. *)
Definition _cp_cubierta_angulo_menor_diez (self : CubiertaSprfv)
    (dimension_paralela dimension_normal : R) (numero_de_zonas : Z) : resultado (list R) :=
  if negb ((1 <=? numero_de_zonas)%Z && (numero_de_zonas <=? 4)%Z) then Falla ValueError
  else
    let area := _area_cp_cubierta (altura_media self) dimension_paralela dimension_normal in
    reduccion <- np_interp area tabla_reduccion ;;
    q <- py_div (altura_media self) dimension_paralela ;;
    cps <- interpolar_filas q [0.5; 1.0]
             [[-0.9; -1.3 * reduccion]; [-0.9; -0.7]; [-0.5; -0.7]; [-0.3; -0.7]] ;;
    Ok (firstn (Z.to_nat numero_de_zonas) cps).

(** [_cp_cubierta_sotavento]. *)
Definition _cp_cubierta_sotavento (self : CubiertaSprfv) : resultado R :=
  if Rltb (angulo self) 10 then Falla ValueError
  else
    q <- py_div (altura_media self) (ancho self) ;;
    relation_interp_cp <- interpolar_filas q [0.25; 0.5; 1]
                            [[-0.3; -0.5; -0.7]; [-0.5; -0.5; -0.6]; [-0.6; -0.6; -0.6]] ;;
    np_interp (angulo self) (combine [10; 15; 20] relation_interp_cp).

Definition angulos_barlovento : list R := [10; 15; 20; 25; 30; 35; 45; 60; 80].

(** [_cp_cubierta_barlovento]: the coefficients for negative and for
    positive pressure, in that order. *)
Definition _cp_cubierta_barlovento (self : CubiertaSprfv) : resultado (R * R) :=
  if Rltb (angulo self) 10 then Falla ValueError
  else
    let area := _area_cp_cubierta (altura_media self) (longitud self) (ancho self) in
    reduccion <- np_interp area tabla_reduccion ;;
    q <- py_div (altura_media self) (ancho self) ;;
    interp_relacion_presion_negativa <-
      interpolar_filas q [0.25; 0.5; 1]
        [[-0.7; -0.9; -1.3 * reduccion];
         [-0.5; -0.7; -1];
         [-0.3; -0.4; -0.7];
         [-0.2; -0.3; -0.5];
         [-0.2; -0.2; -0.3];
         [0; -0.2; -0.2];
         [0; 0; 0];
         [0; 0; 0];
         [0; 0; 0]] ;;
    interp_relacion_presion_positiva <-
      interpolar_filas q [0.25; 0.5; 1]
        [[0; 0; 0];
         [0; 0; 0];
         [0.2; 0; 0];
         [0.3; 0.2; 0];
         [0.3; 0.2; 0.2];
         [0.4; 0.3; 0.2];
         [0.4; 0.4; 0.3];
         [0.6; 0.6; 0.6];
         [0.8; 0.8; 0.8]] ;;
    cp_presion_negativa <-
      np_interp (angulo self) (combine angulos_barlovento interp_relacion_presion_negativa) ;;
    cp_presion_positiva <-
      np_interp (angulo self) (combine angulos_barlovento interp_relacion_presion_positiva) ;;
    Ok (cp_presion_negativa, cp_presion_positiva).

(** *** CubiertaComponentes *)

(** The attributes of [CubiertaComponentes] but [componentes], which
    [valores] takes as an argument. *)
Record CubiertaComponentes : Type := {
  cc_ancho : R;
  cc_longitud : R;
  cc_altura_media : R;
  cc_angulo : R;
  cc_tipo_cubierta : TipoCubierta;
  parapeto : R;
  es_alero : bool
}.

Definition es_un_agua (t : TipoCubierta) : bool :=
  match t with UN_AGUA => true | _ => false end.

Definition _referencia_dos_aguas (self : CubiertaComponentes) : resultado ReferenciaCubierta :=
  if Rleb (cc_angulo self) 10 && Rltb 20 (cc_altura_media self) && negb (es_alero self)
  then Ok Figura_8
  else if Rleb (cc_angulo self) 10 then Ok Figura_5B
  else if Rltb 10 (cc_angulo self) && Rleb (cc_angulo self) 30 then Ok Figura_5B_cont_1
  else if Rltb 30 (cc_angulo self) && Rleb (cc_angulo self) 45 then Ok Figura_5B_cont_2
  else Falla ErrorLineamientos.

Definition _referencia_un_agua (self : CubiertaComponentes) : resultado ReferenciaCubierta :=
  if Rltb 20 (cc_altura_media self) then
    if Rleb (cc_angulo self) 10 then Ok Figura_8
    else if Rltb 10 (cc_angulo self) && Rleb (cc_angulo self) 30 then Ok Figura_5B_cont_1
    else if Rltb 30 (cc_angulo self) && Rleb (cc_angulo self) 45 then Ok Figura_5B_cont_2
    else Falla ErrorLineamientos
  else if Rleb (cc_angulo self) 3 then Ok Figura_5B
  else if Rltb 3 (cc_angulo self) && Rleb (cc_angulo self) 10 then Ok Figura_7A
  else if Rltb 10 (cc_angulo self) && Rleb (cc_angulo self) 30 then Ok Figura_7A_cont
  else Falla ErrorLineamientos.

Definition cc_referencia (self : CubiertaComponentes) : resultado ReferenciaCubierta :=
  if negb (es_un_agua (cc_tipo_cubierta self)) || es_alero self
  then _referencia_dos_aguas self
  else _referencia_un_agua self.

End CpCubierta.

(** ** zonda/cirsoc/cp/edificio.py, roof components and cladding *)

Module CpCubiertaValores.
Import Enums MasEnums PyReal CpEdificio CpParedes CpCubierta.
Local Open Scope R_scope.
Local Open Scope py_scope.

(** The dictionary of one zone: [{"cp": (c1, c2)}], or
    [{"cp": ((c1, c2), ...), "area": ((a1, a2), ...)}]. *)
Inductive EntradaCaso : Type :=
  | SoloCp (cp : R * R)
  | CpArea (cps areas : list (R * R)).

Definition zona_eqb (a b : ZonaComponenteCubiertaEdificio) : bool :=
  match a, b with
  | UNO, UNO | DOS, DOS | TRES, TRES | DOS_PRIMA, DOS_PRIMA
  | TRES_PRIMA, TRES_PRIMA | TODAS, TODAS => true
  | _, _ => false
  end.

(** A dictionary from zones to entries, in insertion order. *)
Definition Caso : Type := list (ZonaComponenteCubiertaEdificio * EntradaCaso).

(** [d.get(z)]. *)
Fixpoint buscar (d : Caso) (z : ZonaComponenteCubiertaEdificio) : option EntradaCaso :=
  match d with
  | [] => None
  | (k, v) :: resto => if zona_eqb k z then Some v else buscar resto z
  end.

(** [d[z] = v]: the value of an existing key is replaced in place, a new
    key goes to the end. *)
Fixpoint asignar (d : Caso) (z : ZonaComponenteCubiertaEdificio) (v : EntradaCaso) : Caso :=
  match d with
  | [] => [(z, v)]
  | (k, w) :: resto => if zona_eqb k z then (k, v) :: resto else (k, w) :: asignar resto z v
  end.

(** [d.pop(z, None)]. *)
Fixpoint quitar (d : Caso) (z : ZonaComponenteCubiertaEdificio) : Caso :=
  match d with
  | [] => []
  | (k, w) :: resto => if zona_eqb k z then resto else (k, w) :: quitar resto z
  end.

(** [d.update(nuevos)]. *)
Definition actualizar (d nuevos : Caso) : Caso :=
  fold_left (fun acc kv => asignar acc (fst kv) (snd kv)) nuevos d.

(** The dictionary [casos], by figure. *)
Definition casos (ref : ReferenciaCubierta) : Caso :=
  match ref with
  | Figura_5B =>
      [(UNO, SoloCp (-1, -0.9)); (DOS, SoloCp (-1.8, -1.1));
       (TRES, SoloCp (-2.8, -1.1)); (TODAS, SoloCp (0.3, 0.2))]
  | Figura_5B_cont_1 =>
      [(UNO, SoloCp (-0.9, -0.8)); (DOS, SoloCp (-2.1, -1.4));
       (TRES, SoloCp (-2.1, -1.4)); (TODAS, SoloCp (0.5, 0.3))]
  | Figura_5B_cont_2 =>
      [(UNO, SoloCp (-1, -0.8)); (DOS, SoloCp (-1.2, -1));
       (TRES, SoloCp (-1.2, -1)); (TODAS, SoloCp (0.9, 0.8))]
  | Figura_7A =>
      [(UNO, SoloCp (-1.1, -1.1)); (DOS, SoloCp (-1.3, -1.2));
       (TRES, SoloCp (-1.8, -1.2)); (DOS_PRIMA, SoloCp (-1.6, -1.5));
       (TRES_PRIMA, SoloCp (-2.6, -1.6)); (TODAS, SoloCp (0.3, 0.2))]
  | Figura_7A_cont =>
      [(UNO, SoloCp (-1.3, -1.1)); (DOS, SoloCp (-1.6, -1.2));
       (TRES, SoloCp (-2.9, -2)); (TODAS, SoloCp (0.4, 0.3))]
  | Figura_8 =>
      [(UNO, SoloCp (-1.4, -0.9)); (DOS, SoloCp (-2.3, -1.6));
       (TRES, SoloCp (-3.2, -2.3))]
  end.

(** The dictionary [casos_alero], by figure; it has no key for the
    figures 7A and 8. *)
Definition casos_alero (ref : ReferenciaCubierta) : Caso :=
  match ref with
  | Figura_5B =>
      [(UNO, CpArea [(-1.7, -1.6); (-1.6, -1.1)] [(1, 10); (10, 50)]);
       (DOS, CpArea [(-1.7, -1.6); (-1.6, -1.1)] [(1, 10); (10, 50)]);
       (TRES, SoloCp (-2.8, -0.8))]
  | Figura_5B_cont_1 => [(DOS, SoloCp (-2.2, -2.2)); (TRES, SoloCp (-3.7, -2.5))]
  | Figura_5B_cont_2 => [(DOS, SoloCp (-2.0, -1.8)); (TRES, SoloCp (-2.0, -1.8))]
  | _ => []
  end.

Definition es_5B_u_8 (ref : ReferenciaCubierta) : bool :=
  match ref with Figura_5B | Figura_8 => true | _ => false end.

(** [caso_cp] as [valores] leaves it before the loop: the eave entries
    merged in, the all-zones entry dropped for an eave, and zone 3 given
    the entry of zone 2 behind a parapet above 1.  Looking up a missing
    zone 2 would raise [KeyError]; every dictionary holds zone 2, and the
    branch keeps the dictionary. *)
Definition caso_cp (self : CubiertaComponentes) (ref : ReferenciaCubierta) : Caso :=
  let c1 := if es_alero self then actualizar (casos ref) (casos_alero ref) else casos ref in
  let c2 := if es_alero self then quitar c1 TODAS else c1 in
  if es_5B_u_8 ref && Rltb 1 (parapeto self) then
    match buscar c2 DOS with
    | Some v => asignar c2 TRES v
    | None => c2
    end
  else c2.

Definition area_cubierta (ref : ReferenciaCubierta) : R * R :=
  match ref with
  | Figura_8 => (1, 50)
  | _ => (1, 10)
  end.

(** The arguments [cp] and [areas] of [seleccionar_cp_area] for an entry:
    [cps["cp"]] and [cps.get("area", area)]. *)
Definition tabla_de (e : EntradaCaso) (area : R * R) : TablaCp :=
  match e with
  | SoloCp cp => Par cp area
  | CpArea cps areas => Tramos cps areas
  end.

(** The body of the inner loop; unpacking [None] raises [TypeError]. *)
Definition cp_de_zona (e : EntradaCaso) (area : R * R) (area_componente : R) : resultado R :=
  match seleccionar_cp_area (tabla_de e area) area_componente with
  | Some (cp_filtrado, area_filtrada) =>
      calcular_cp_componente cp_filtrado area_filtrada area_componente
  | None => Falla TypeError
  end.

(** [CubiertaComponentes.valores]. *)
Definition cc_valores {nombre : Type} (self : CubiertaComponentes)
    (componentes : option (list (nombre * R)))
    : resultado (option (list (nombre * list (ZonaComponenteCubiertaEdificio * R)))) :=
  match componentes with
  | None => Ok None
  | Some d =>
      ref <- cc_referencia self ;;
      r <- Presiones.recorrer
             (fun area_componente =>
                Presiones.recorrer
                  (fun e => cp_de_zona e (area_cubierta ref) area_componente)
                  (caso_cp self ref))
             d ;;
      Ok (Some r)
  end.

End CpCubiertaValores.

(** ** zonda/cirsoc/cp/edificio.py, the roof zones and the SPRFV roof values *)

Module ZonasCubierta.
Import Enums PyReal CpCubierta.
Local Open Scope R_scope.
Local Open Scope py_scope.

(** [x in t], by the equality of numbers. *)
Definition contiene (x : R) (l : list R) : bool := existsb (Reqb x) l.

(** [set(t)]: each number once. *)
Definition unicas (l : list R) : list R :=
  fold_left (fun acc x => if contiene x acc then acc else acc ++ [x]) l [].

(** [sorted]: a stable sort, here by insertion. *)
Fixpoint insertar (x : R) (l : list R) : list R :=
  match l with
  | [] => [x]
  | y :: l' => if Rleb x y then x :: l else y :: insertar x l'
  end.

Definition ordenar (l : list R) : list R := fold_right insertar [] l.

(** The attribute [distancias_codigo] set by [__init__]. *)
Definition distancias_codigo (self : CubiertaSprfv) : list R :=
  [0; altura_media self / 2; altura_media self; 2 * altura_media self].

Definition _zonas_cubierta (self : CubiertaSprfv) (dimension_paralela : R)
    (distancias_extras : list R) : list (R * R) :=
  let distancia_codigo :=
    distancias_codigo self ++ [dimension_paralela] ++ distancias_extras in
  let distancias_unicas := ordenar (unicas distancia_codigo) in
  let distancias_filtradas :=
    filter (fun dist => Rleb dist dimension_paralela) distancias_unicas in
  combine distancias_filtradas (tl distancias_filtradas).

(** [zonas]: the entries [PARALELO] and [NORMAL] of the dictionary, the
    second one [None] from 10 degrees on. *)
Definition zonas_paralelo (self : CubiertaSprfv) : list (R * R) :=
  _zonas_cubierta self (longitud self) [].

Definition zonas_normal (self : CubiertaSprfv) : option (list (R * R)) :=
  if normal_como_paralelo self then
    let args :=
      match tipo_cubierta self with
      | DOS_AGUAS => [longitud self; ancho self / 2]
      | _ => [longitud self]
      end in
    Some (_zonas_cubierta self (ancho self) args)
  else None.

(** The outcome of [valores]: a value, an exception of the functions it
    calls, or the [IndexError] of an index out of range. *)
Inductive resultado_valores (A : Type) : Type :=
  | Valores (a : A)
  | Excepcion (e : excepcion)
  | IndexError.

Arguments Valores {A} a.
Arguments Excepcion {A} e.
Arguments IndexError {A}.

(** The value under [NORMAL]: an array when the wind across the ridge is
    treated as along it, else the windward pair and the leeward value. *)
Inductive CpNormal : Type :=
  | ComoParalelo (cps : list R)
  | PorPosicion (barlovento : R * R) (sotavento : R).

(** [i for i, (inicio, fin) in enumerate(zonas) if fin == mitad_ancho],
    counting from [i]. *)
Fixpoint indices_con_fin (zonas : list (R * R)) (mitad_ancho : R) (i : nat) : list nat :=
  match zonas with
  | [] => []
  | (inicio, fin) :: resto =>
      if Reqb fin mitad_ancho then i :: indices_con_fin resto mitad_ancho (S i)
      else indices_con_fin resto mitad_ancho (S i)
  end.

(** [np.insert(cp_normal, indice + 1, cp_normal[indice])]. *)
Definition repetir_en (cp_normal : list R) (indice : nat) : resultado_valores (list R) :=
  match nth_error cp_normal indice with
  | Some v => Valores (firstn (S indice) cp_normal ++ v :: skipn (S indice) cp_normal)
  | None => IndexError
  end.

(** [CubiertaSprfvMetodoDireccional.valores]: the values under [PARALELO]
    and [NORMAL]. *)
Definition valores (self : CubiertaSprfv) : resultado_valores (list R * CpNormal) :=
  match _cp_cubierta_angulo_menor_diez self (longitud self) (ancho self)
          (Z.of_nat (length (zonas_paralelo self))) with
  | Falla e => Excepcion e
  | Ok cp_paralelo =>
      if normal_como_paralelo self then
        match zonas_normal self with
        | None => Excepcion TypeError
        | Some zonas =>
            let numero_zonas := Z.of_nat (length zonas) in
            let mitad_ancho := ancho self / 2 in
            let mitad_ancho_en_distancias_codigo :=
              contiene mitad_ancho (distancias_codigo self) in
            let restar_zona_y_sumar_cp :=
              match tipo_cubierta self with
              | DOS_AGUAS => negb mitad_ancho_en_distancias_codigo
              | _ => false
              end in
            let numero_zonas :=
              if restar_zona_y_sumar_cp then (numero_zonas - 1)%Z else numero_zonas in
            match _cp_cubierta_angulo_menor_diez self (ancho self) (longitud self)
                    numero_zonas with
            | Falla e => Excepcion e
            | Ok cp_normal =>
                if restar_zona_y_sumar_cp then
                  match indices_con_fin zonas mitad_ancho 0 with
                  | [] => IndexError
                  | indice :: _ =>
                      match repetir_en cp_normal indice with
                      | Valores cp_normal' => Valores (cp_paralelo, ComoParalelo cp_normal')
                      | Excepcion e => Excepcion e
                      | IndexError => IndexError
                      end
                  end
                else Valores (cp_paralelo, ComoParalelo cp_normal)
            end
        end
      else
        match _cp_cubierta_barlovento self with
        | Falla e => Excepcion e
        | Ok cp_barlovento =>
            match _cp_cubierta_sotavento self with
            | Falla e => Excepcion e
            | Ok cp_sotavento =>
                Valores (cp_paralelo, PorPosicion cp_barlovento cp_sotavento)
            end
        end
  end.

End ZonasCubierta.

(** ** sse102/cirsoc/geometria/cartel.py *)

Module GeometriaCartel.
Import PyRac UtilsAlturas.
Local Open Scope Q_scope.

Record Cartel : Type := {
  profundidad : Q;
  ancho : Q;
  altura_inferior : Q;
  altura_superior : Q;
  alturas_personalizadas : option (list Q)
}.

Definition altura_neta (self : Cartel) : Q := altura_superior self - altura_inferior self.

Definition area (self : Cartel) : Q := ancho self * altura_neta self.

Definition altura_media (self : Cartel) : Q :=
  (altura_inferior self + altura_superior self) / 2.

Definition alturas (self : Cartel) : list Q :=
  array_alturas (altura_inferior self) (altura_superior self)
                (alturas_personalizadas self) [].

Definition areas_parciales (self : Cartel) : list Q :=
  map (fun par => ancho self * (snd par - fst par))
      (combine (alturas self) (tl (alturas self))).

End GeometriaCartel.

(** ** zonda/cirsoc/geometria/cubiertas.py, areas and blockage *)

Module CubiertasAreas.
Import Enums PyReal Cubiertas.
Local Open Scope R_scope.
Local Open Scope py_scope.

(** [math.hypot]. *)
Definition math_hypot (x y : R) : R := sqrt (x * x + y * y).

Definition area (self : Cubierta) : R :=
  match tipo_cubierta self with
  | PLANA => ancho self * longitud self
  | DOS_AGUAS =>
      let altura := altura_cumbrera self - altura_alero self in
      let perimetro_frontal := 2 * math_hypot altura (ancho self / 2) in
      perimetro_frontal * longitud self
  | UN_AGUA =>
      let altura := altura_cumbrera self - altura_alero self in
      let perimetro_frontal := math_hypot altura (ancho self) in
      perimetro_frontal * longitud self
  end.

Definition area_mojinete (self : Cubierta) : R :=
  ancho self * (altura_cumbrera self - altura_alero self) / 2.

(** [Cubierta.relacion_bloqueo], with the two attributes it reads besides
    the ones of the record. *)
Definition relacion_bloqueo (self : Cubierta) (altura_bloqueo : R)
    (posicion_bloqueo : PosicionBloqueoCubierta) : resultado R :=
  let altura :=
    match tipo_cubierta self, posicion_bloqueo with
    | PLANA, _ | _, ALERO_BAJO => altura_alero self
    | _, _ => altura_cumbrera self
    end in
  q <- py_div altura_bloqueo altura ;;
  Ok (Rmin q 1).

End CubiertasAreas.

(** ** sse102/cirsoc/geometria/edificio.py, areas and openings *)

Module GeometriaEdificio.
Import PyReal.
Local Open Scope R_scope.
Local Open Scope py_scope.

Record AreasEdificio : Type := {
  frontal : R;
  izquierda : R;
  trasera : R;
  derecha : R;
  cubierta : R
}.

(** The tuple, as [zip], [sum] and slicing see it. *)
Definition tupla (a : AreasEdificio) : list R :=
  [frontal a; izquierda a; trasera a; derecha a; cubierta a].

(** One element of the generator in [aberturas]. *)
Definition abertura_procesada (abertura area : R) : R :=
  if Rleb 0 abertura then Rmin abertura area else 0.

(** [Edificio.aberturas], from [self._aberturas] and [self.areas]. *)
Definition aberturas (_aberturas areas : AreasEdificio) : AreasEdificio :=
  {| frontal := abertura_procesada (frontal _aberturas) (frontal areas);
     izquierda := abertura_procesada (izquierda _aberturas) (izquierda areas);
     trasera := abertura_procesada (trasera _aberturas) (trasera areas);
     derecha := abertura_procesada (derecha _aberturas) (derecha areas);
     cubierta := abertura_procesada (cubierta _aberturas) (cubierta areas) |}.

(** [sum] of a tuple. *)
Definition suma (l : list R) : R := fold_left Rplus l 0.

Definition area_total (areas : AreasEdificio) : R := suma (tupla areas).

Definition abertura_total (_aberturas areas : AreasEdificio) : R :=
  suma (tupla (aberturas _aberturas areas)).

(** [t[:-1]] of the five-element tuple. *)
Definition paredes (a : AreasEdificio) : list R :=
  [frontal a; izquierda a; trasera a; derecha a].

Definition a0i (_aberturas areas : AreasEdificio) : list R :=
  map (fun abertura => abertura_total _aberturas areas - abertura)
      (paredes (aberturas _aberturas areas)).

Definition agi (areas : AreasEdificio) : list R :=
  map (fun area => area_total areas - area) (paredes areas).

Definition min_areas (areas : AreasEdificio) : list R :=
  map (fun area => Rmin 0.4 (0.01 * area)) (paredes areas).

Definition cerramiento_condicion_1 (_aberturas areas : AreasEdificio) : list bool :=
  map (fun par => Rleb (0.8 * snd par) (fst par))
      (combine (paredes (aberturas _aberturas areas)) (paredes areas)).

Definition cerramiento_condicion_2 (_aberturas areas : AreasEdificio) : list bool :=
  map (fun par => Rltb (1.1 * snd par) (fst par))
      (combine (paredes (aberturas _aberturas areas)) (a0i _aberturas areas)).

Definition cerramiento_condicion_3 (_aberturas areas : AreasEdificio) : list bool :=
  map (fun par => Rltb (snd par) (fst par))
      (combine (paredes (aberturas _aberturas areas)) (min_areas areas)).

(** The generator of [cerramiento_condicion_4] stops at the first division
    by zero. *)
Fixpoint condicion_4 (pares : list (R * R)) : resultado (list bool) :=
  match pares with
  | [] => Ok []
  | (abertura, area) :: resto =>
      q <- py_div abertura area ;;
      bs <- condicion_4 resto ;;
      Ok (Rleb q 0.2 :: bs)
  end.

Definition cerramiento_condicion_4 (_aberturas areas : AreasEdificio)
    : resultado (list bool) :=
  condicion_4 (combine (a0i _aberturas areas) (agi areas)).

End GeometriaEdificio.

(** ** zonda/cirsoc/cp/aisladas.py, the net pressure coefficients *)

Module CpAisladasValores.
Import Enums PyReal CpCubierta.
Local Open Scope R_scope.
Local Open Scope py_scope.

(** The attributes of [CubiertaAislada] that [valores] reads, as the
    numbers the interpolations take. *)
Record CubiertaAislada : Type := {
  tipo_cubierta : TipoCubierta;
  angulo : R;
  relacion_bloqueo : R;
  posicion_bloqueo : PosicionBloqueoCubierta
}.

(** [ZonaPresionCubiertaAislada]: [A], [B], [C], [D], [BC] and [BD]. *)
Inductive ZonaPresionCubiertaAislada : Type :=
  ZONA_A | ZONA_B | ZONA_C | ZONA_D | ZONA_BC | ZONA_BD.

(** The dictionary with the keys [ExtremoPresion.MAX] and
    [ExtremoPresion.MIN]. *)
Record Extremos : Type := { MAX : R; MIN : R }.

(** The dictionary with the keys [GLOBAL] and [LOCAL]. *)
Record ValoresCpn : Type := {
  cpn_global : Extremos;
  cpn_local : list (ZonaPresionCubiertaAislada * Extremos)
}.

Definition bloqueos : list R := [0; 1].

Definition _cpn_dos_aguas (self : CubiertaAislada) : resultado ValoresCpn :=
  let angulos := [-20; -15; -10; -5; 5; 10; 15; 20; 25; 30] in
  let maximos_valores_globales := [0.7; 0.5; 0.4; 0.3; 0.3; 0.4; 0.4; 0.6; 0.7; 0.9] in
  let maximos_valores_zona_a := [0.8; 0.6; 0.6; 0.5; 0.6; 0.7; 0.9; 1.1; 1.2; 1.3] in
  let maximos_valores_zona_b := [1.6; 1.5; 1.4; 1.5; 1.8; 1.8; 1.9; 1.9; 1.9; 1.9] in
  let maximos_valores_zona_c := [0.6; 0.7; 0.8; 0.8; 1.3; 1.4; 1.4; 1.5; 1.6; 1.6] in
  let maximos_valores_zona_d := [1.7; 1.4; 1.1; 0.8; 0.4; 0.4; 0.4; 0.4; 0.5; 0.7] in
  let minimos_valores_globales :=
    [[-0.7; -1.5]; [-0.6; -1.5]; [-0.6; -1.4]; [-0.5; -1.4]; [-0.6; -1.2];
     [-0.7; -1.2]; [-0.8; -1.2]; [-0.9; -1.2]; [-1.0; -1.2]; [-1.0; -1.2]] in
  let minimos_valores_zona_a :=
    [[-0.9; -1.5]; [-0.8; -1.5]; [-0.8; -1.4]; [-0.5; -1.4]; [-0.6; -1.2];
     [-0.7; -1.2]; [-0.9; -1.2]; [-1.2; -1.2]; [-1.4; -1.2]; [-1.4; -1.2]] in
  let minimos_valores_zona_b :=
    [[-1.3; -2.4]; [-1.3; -2.7]; [-1.3; -2.5]; [-1.3; -2.3]; [-1.4; -2.0];
     [-1.5; -1.8]; [-1.7; -1.6]; [-1.8; -1.5]; [-1.9; -1.4]; [-1.9; -1.3]] in
  let minimos_valores_zona_c :=
    [[-1.6; -2.4]; [-1.6; -2.6]; [-1.5; -2.5]; [-1.6; -2.4]; [-1.4; -1.8];
     [-1.4; -1.6]; [-1.4; -1.3]; [-1.4; -1.2]; [-1.4; -1.1]; [-1.4; -1.1]] in
  let minimos_valores_zona_d :=
    [[-0.6; -1.2]; [-0.6; -1.2]; [-0.6; -1.2]; [-0.6; -1.2]; [-1.1; -1.5];
     [-1.4; -1.6]; [-1.8; -1.7]; [-2.0; -1.7]; [-2.0; -1.6]; [-2.0; -1.6]] in
  valor_maximo_global <- np_interp (angulo self) (combine angulos maximos_valores_globales) ;;
  valor_maximo_zona_a <- np_interp (angulo self) (combine angulos maximos_valores_zona_a) ;;
  valor_maximo_zona_b <- np_interp (angulo self) (combine angulos maximos_valores_zona_b) ;;
  valor_maximo_zona_c <- np_interp (angulo self) (combine angulos maximos_valores_zona_c) ;;
  valor_maximo_zona_d <- np_interp (angulo self) (combine angulos maximos_valores_zona_d) ;;
  minimos_valores_globales_relacion <-
    interpolar_filas (relacion_bloqueo self) bloqueos minimos_valores_globales ;;
  minimos_valores_caso_a_relacion <-
    interpolar_filas (relacion_bloqueo self) bloqueos minimos_valores_zona_a ;;
  minimos_valores_caso_b_relacion <-
    interpolar_filas (relacion_bloqueo self) bloqueos minimos_valores_zona_b ;;
  minimos_valores_caso_c_relacion <-
    interpolar_filas (relacion_bloqueo self) bloqueos minimos_valores_zona_c ;;
  minimos_valores_caso_d_relacion <-
    interpolar_filas (relacion_bloqueo self) bloqueos minimos_valores_zona_d ;;
  valor_minimo_global <-
    np_interp (angulo self) (combine angulos minimos_valores_globales_relacion) ;;
  valor_minimo_zona_a <-
    np_interp (angulo self) (combine angulos minimos_valores_caso_a_relacion) ;;
  valor_minimo_zona_b <-
    np_interp (angulo self) (combine angulos minimos_valores_caso_b_relacion) ;;
  valor_minimo_zona_c <-
    np_interp (angulo self) (combine angulos minimos_valores_caso_c_relacion) ;;
  valor_minimo_zona_d <-
    np_interp (angulo self) (combine angulos minimos_valores_caso_d_relacion) ;;
  Ok {| cpn_global := {| MAX := valor_maximo_global; MIN := valor_minimo_global |};
        cpn_local :=
          [(ZONA_A, {| MAX := valor_maximo_zona_a; MIN := valor_minimo_zona_a |});
           (ZONA_B, {| MAX := valor_maximo_zona_b; MIN := valor_minimo_zona_b |});
           (ZONA_C, {| MAX := valor_maximo_zona_c; MIN := valor_minimo_zona_c |});
           (ZONA_D, {| MAX := valor_maximo_zona_d; MIN := valor_minimo_zona_d |});
           (ZONA_BC, {| MAX := Rmax valor_maximo_zona_b valor_maximo_zona_c;
                        MIN := Rmin valor_minimo_zona_b valor_minimo_zona_c |});
           (ZONA_BD, {| MAX := Rmax valor_maximo_zona_b valor_maximo_zona_d;
                        MIN := Rmin valor_minimo_zona_b valor_minimo_zona_d |})] |}.

Definition _cpn_un_agua (self : CubiertaAislada) : resultado ValoresCpn :=
  let angulos := [0; 5; 10; 15; 20; 25; 30] in
  let maximos_valores_globales := [0.2; 0.4; 0.5; 0.7; 0.8; 1; 1.2] in
  let maximos_valores_zona_a := [0.5; 0.8; 1.2; 1.4; 1.7; 2; 2.2] in
  let maximos_valores_zona_b := [1.8; 2.1; 2.4; 2.7; 2.9; 3.1; 3.2] in
  let maximos_valores_zona_c := [1.1; 1.3; 1.6; 1.8; 2.1; 2.3; 2.4] in
  let minimos_valores_globales :=
    match posicion_bloqueo self with
    | ALERO_BAJO =>
        [[-0.5; -1.2]; [-0.7; -1.4]; [-0.9; -1.4]; [-1.1; -1.5]; [-1.3; -1.5];
         [-1.6; -1.4]; [-1.8; -1.4]]
    | ALERO_ALTO =>
        [[-0.5; -1.2]; [-0.7; -1.2]; [-0.9; -1.1]; [-1.1; -1]; [-1.3; -0.9];
         [-1.6; -0.8]; [-1.8; -0.8]]
    end in
  let minimos_valores_zona_a :=
    match posicion_bloqueo self with
    | ALERO_BAJO =>
        [[-0.6; -1.3]; [-1.1; -1.4]; [-1.5; -1.4]; [-1.8; -1.5]; [-2.2; -1.5];
         [-2.6; -1.4]; [-3.0; -1.4]]
    | ALERO_ALTO =>
        [[-0.6; -1.3]; [-1.1; -1.2]; [-1.5; -1.1]; [-1.8; -1]; [-2.2; -0.9];
         [-2.6; -0.8]; [-3.0; -0.8]]
    end in
  let minimos_valores_zona_b :=
    [[-1.3; -1.8]; [-1.7; -2.6]; [-2.0; -2.6]; [-2.4; -2.9]; [-2.8; -2.9];
     [-3.2; -2.5]; [-3.8; -2.0]] in
  let minimos_valores_zona_c :=
    match posicion_bloqueo self with
    | ALERO_BAJO =>
        [[-1.4; -2.2]; [-1.8; -2.6]; [-2.1; -2.7]; [-2.5; -2.8]; [-2.9; -2.7];
         [-3.2; -2.5]; [-3.6; -2.3]]
    | ALERO_ALTO =>
        [[-1.4; -2.2]; [-1.8; -2.1]; [-2.1; -1.8]; [-2.5; -1.6]; [-2.9; -1.5];
         [-3.2; -1.4]; [-3.6; -1.2]]
    end in
  valor_maximo_global <- np_interp (angulo self) (combine angulos maximos_valores_globales) ;;
  valor_maximo_zona_a <- np_interp (angulo self) (combine angulos maximos_valores_zona_a) ;;
  valor_maximo_zona_b <- np_interp (angulo self) (combine angulos maximos_valores_zona_b) ;;
  valor_maximo_zona_c <- np_interp (angulo self) (combine angulos maximos_valores_zona_c) ;;
  minimos_valores_globales_relacion <-
    interpolar_filas (relacion_bloqueo self) bloqueos minimos_valores_globales ;;
  minimos_valores_caso_a_relacion <-
    interpolar_filas (relacion_bloqueo self) bloqueos minimos_valores_zona_a ;;
  minimos_valores_caso_b_relacion <-
    interpolar_filas (relacion_bloqueo self) bloqueos minimos_valores_zona_b ;;
  minimos_valores_caso_c_relacion <-
    interpolar_filas (relacion_bloqueo self) bloqueos minimos_valores_zona_c ;;
  valor_minimo_global <-
    np_interp (angulo self) (combine angulos minimos_valores_globales_relacion) ;;
  valor_minimo_zona_a <-
    np_interp (angulo self) (combine angulos minimos_valores_caso_a_relacion) ;;
  valor_minimo_zona_b <-
    np_interp (angulo self) (combine angulos minimos_valores_caso_b_relacion) ;;
  valor_minimo_zona_c <-
    np_interp (angulo self) (combine angulos minimos_valores_caso_c_relacion) ;;
  Ok {| cpn_global := {| MAX := valor_maximo_global; MIN := valor_minimo_global |};
        cpn_local :=
          [(ZONA_A, {| MAX := valor_maximo_zona_a; MIN := valor_minimo_zona_a |});
           (ZONA_B, {| MAX := valor_maximo_zona_b; MIN := valor_minimo_zona_b |});
           (ZONA_C, {| MAX := valor_maximo_zona_c; MIN := valor_minimo_zona_c |});
           (ZONA_BC, {| MAX := Rmax valor_maximo_zona_b valor_maximo_zona_c;
                        MIN := Rmin valor_minimo_zona_b valor_minimo_zona_c |})] |}.

Definition valores (self : CubiertaAislada) : resultado ValoresCpn :=
  match tipo_cubierta self with
  | UN_AGUA => _cpn_un_agua self
  | _ => _cpn_dos_aguas self
  end.

End CpAisladasValores.

(** ** sse102/cirsoc/presiones/edificio.py, wall components *)

Module PresionesParedes.
Import Enums MasEnums PyReal Presiones.
Local Open Scope R_scope.
Local Open Scope py_scope.

(** [ParedEdificioSprfv], in the order of the enumeration: [BARLOVENTO],
    [SOTAVENTO], [LATERAL]. *)
Inductive ParedEdificioSprfv : Type :=
  PARED_BARLOVENTO | PARED_SOTAVENTO | PARED_LATERAL.

(** The attributes of the pressure class [ParedesComponentes] that the
    functions below read: the ones of [CubiertaSprfvMetodoDireccional] and
    the value of the property [presiones_velocidad], the velocity pressure at
    each height. *)
Record ParedesComponentes : Type := {
  base : CubiertaSprfvMetodoDireccional;
  presiones_velocidad : list R
}.

(** What [_presiones] returns on the Figure 8 path: a pair of arrays when
    its first argument is the array of velocity pressures, a pair of
    numbers when it is the velocity pressure at the mean roof height. *)
Inductive PresionesPared : Type :=
  | EnAlturas (positivas negativas : list R)
  | EnAlturaMedia (presiones : PresionesEdificio).

(** One assignment of [_presiones_cr_caso_b]: the call
    [self._presiones(qi, valor_gcp, 1, self.gcpi, self.presion_velocidad_media)],
    five positional arguments, so that [considerar_presion_minima] keeps its
    default [False]. *)
Definition presion_caso_b (self : ParedesComponentes) (pared : ParedEdificioSprfv)
    (valor_gcp g : R) : PresionesPared :=
  let media := presion_velocidad_media (base self) in
  match pared with
  | PARED_BARLOVENTO =>
      EnAlturas
        (map (fun qi => pos (_presiones qi valor_gcp 1 g media false))
             (presiones_velocidad self))
        (map (fun qi => neg (_presiones qi valor_gcp 1 g media false))
             (presiones_velocidad self))
  | _ => EnAlturaMedia (_presiones media valor_gcp 1 g media false)
  end.

(** The entries of the dictionary of coefficients, in the order of the two
    inner loops. *)
Definition entradas_cp {nombre zona : Type} (valores_cp : list (nombre * list (zona * R)))
    : list (nombre * zona * R) :=
  flat_map (fun nz => map (fun zc => (fst nz, fst zc, snd zc)) (snd nz)) valores_cp.

(** [ParedesComponentes._presiones_cr_caso_b]: the nested dictionary as the
    list of its assignments [presiones[pared][nombre][zona] = ...], in
    order; [self.gcpi] is evaluated at the first one. *)
Definition _presiones_cr_caso_b {nombre zona : Type} (self : ParedesComponentes)
    (valores_cp : option (list (nombre * list (zona * R))))
    : resultado (option (list (ParedEdificioSprfv * nombre * zona * PresionesPared))) :=
  match valores_cp with
  | None => Ok None
  | Some d =>
      let asignaciones :=
        flat_map (fun pared => map (fun e => (pared, e)) (entradas_cp d))
                 [PARED_BARLOVENTO; PARED_SOTAVENTO; PARED_LATERAL] in
      match asignaciones with
      | [] => Ok (Some [])
      | _ :: _ =>
          g <- gcpi (base self) ;;
          Ok (Some (map (fun a =>
                           (fst a, fst (fst (snd a)), snd (fst (snd a)),
                            presion_caso_b self (fst a) (snd (snd a)) g))
                        asignaciones))
      end
  end.

(** The two shapes of [ParedesComponentes.valores]. *)
Inductive ValoresParedesComponentes (nombre : Type) : Type :=
  | CasoA (presiones : option (list (nombre *
                                     list (ZonaComponenteParedEdificio * PresionesEdificio))))
  | CasoB (presiones : option (list (ParedEdificioSprfv * nombre *
                                     ZonaComponenteParedEdificio * PresionesPared))).

Arguments CasoA {nombre} presiones.
Arguments CasoB {nombre} presiones.

(** [ParedesComponentes.valores], with the coefficient object [self.cp]
    and its components: Figure 8 goes through [_presiones_cr_caso_b], Figure
    5A through [_presiones_componentes]. *)
Definition valores {nombre : Type} (self : ParedesComponentes)
    (cp : CpParedes.ParedesComponentes) (componentes : option (list (nombre * R)))
    : resultado (ValoresParedesComponentes nombre) :=
  match CpParedes.referencia cp with
  | Pared_Figura_8 =>
      valores_cp <- CpParedes.valores cp componentes ;;
      r <- _presiones_cr_caso_b self valores_cp ;;
      Ok (CasoB r)
  | Pared_Figura_5A =>
      valores_cp <- CpParedes.valores cp componentes ;;
      r <- _presiones_componentes (base self) valores_cp ;;
      Ok (CasoA r)
  end.

End PresionesParedes.

(** * Properties *)

(** ** The error monad and the arithmetic *)

Lemma ligar_ok {A B : Type} (c : resultado A) (k : A -> resultado B) (b : B) :
  ligar c k = Ok b -> exists a, c = Ok a /\ k a = Ok b.
Proof. destruct c as [a|e]; simpl; intros H; [exists a; auto | discriminate]. Qed.

Section AritmeticaReal.
Import PyReal.
Local Open Scope R_scope.

Lemma Rleb_true x y : Rleb x y = true <-> x <= y.
Proof. unfold Rleb; destruct (Rle_dec x y); split; auto; discriminate. Qed.

Lemma Rleb_false x y : Rleb x y = false <-> y < x.
Proof. unfold Rleb; destruct (Rle_dec x y); split; try discriminate; auto; lra. Qed.

Lemma Rltb_true x y : Rltb x y = true <-> x < y.
Proof. unfold Rltb; destruct (Rlt_dec x y); split; auto; discriminate. Qed.

Lemma Rltb_false x y : Rltb x y = false <-> y <= x.
Proof. unfold Rltb; destruct (Rlt_dec x y); split; try discriminate; auto; lra. Qed.

Lemma Reqb_true x y : Reqb x y = true <-> x = y.
Proof. unfold Reqb; destruct (Req_dec_T x y); split; auto; discriminate. Qed.

Lemma Reqb_false x y : Reqb x y = false <-> x <> y.
Proof. unfold Reqb; destruct (Req_dec_T x y); split; try discriminate; auto; contradiction. Qed.

Lemma py_div_ok x y : y <> 0 -> py_div x y = Ok (x / y).
Proof. intros H; unfold py_div. apply Reqb_false in H. now rewrite H. Qed.

Lemma py_div_cero x : py_div x 0 = Falla ZeroDivisionError.
Proof. unfold py_div. assert (H : Reqb 0 0 = true) by now apply Reqb_true. now rewrite H. Qed.

Lemma py_pow_pos x y : 0 < x -> py_pow x y = Ok (Rpower x y).
Proof. intros H; unfold py_pow. apply Rltb_true in H. now rewrite H. Qed.

Lemma py_pow_raiz x : 0 < x -> py_pow x 0.5 = Ok (sqrt x).
Proof.
  intros H. rewrite py_pow_pos by assumption. f_equal.
  replace 0.5 with (/ 2) by lra. now apply Rpower_sqrt.
Qed.

Lemma math_log10_ok x : 0 < x -> math_log10 x = Ok (log10 x).
Proof. intros H; unfold math_log10. apply Rltb_true in H. now rewrite H. Qed.

End AritmeticaReal.

(** Decides the comparisons of a goal between concrete reals. *)
Ltac decidir_reales :=
  repeat match goal with
  | |- context [PyReal.Rleb ?x ?y] =>
      first [ replace (PyReal.Rleb x y) with true by (symmetry; apply Rleb_true; lra)
            | replace (PyReal.Rleb x y) with false by (symmetry; apply Rleb_false; lra) ]
  | |- context [PyReal.Rltb ?x ?y] =>
      first [ replace (PyReal.Rltb x y) with true by (symmetry; apply Rltb_true; lra)
            | replace (PyReal.Rltb x y) with false by (symmetry; apply Rltb_false; lra) ]
  | |- context [PyReal.Reqb ?x ?y] =>
      first [ replace (PyReal.Reqb x y) with true by (symmetry; apply Reqb_true; lra)
            | replace (PyReal.Reqb x y) with false by (symmetry; apply Reqb_false; lra) ]
  end.

(** ** Pressure assembly *)

Section PropiedadesPresiones.
Import Enums PyReal Presiones.
Local Open Scope R_scope.

Lemma np_sign_positivo p : 0 < p -> np_sign p = 1.
Proof.
  intros H. unfold np_sign.
  replace (Rltb p 0) with false by (symmetry; apply Rltb_false; lra).
  replace (Rltb 0 p) with true by (symmetry; now apply Rltb_true).
  reflexivity.
Qed.

Lemma np_sign_negativo p : p < 0 -> np_sign p = -1.
Proof.
  intros H. unfold np_sign.
  replace (Rltb p 0) with true by (symmetry; now apply Rltb_true).
  reflexivity.
Qed.

Lemma np_sign_cero : np_sign 0 = 0.
Proof. unfold np_sign. decidir_reales. reflexivity. Qed.

Lemma piso_positivo p : 0 < Rmax 500 (Rabs p).
Proof. pose proof (Rmax_l 500 (Rabs p)). lra. Qed.

Lemma presion_minima_positiva p : 0 < p -> presion_minima p = Rmax 500 p.
Proof.
  intros H. unfold presion_minima. rewrite np_sign_positivo by assumption.
  rewrite Rabs_right by lra. lra.
Qed.

Lemma presion_minima_negativa p : p < 0 -> presion_minima p = - Rmax 500 (- p).
Proof.
  intros H. unfold presion_minima. rewrite np_sign_negativo by assumption.
  rewrite Rabs_left by assumption. lra.
Qed.

Lemma presion_minima_cero : presion_minima 0 = 0.
Proof. unfold presion_minima. rewrite np_sign_cero. lra. Qed.

Lemma presion_minima_signo_magnitud p :
  p <> 0 ->
  np_sign (presion_minima p) = np_sign p /\
  Rabs (presion_minima p) = Rmax 500 (Rabs p).
Proof.
  intros Hp. pose proof (piso_positivo p) as Hpiso.
  destruct (Rlt_dec 0 p) as [Hpos|Hneg].
  - rewrite presion_minima_positiva by assumption.
    rewrite (Rabs_right p) in * by lra.
    rewrite (np_sign_positivo p) by assumption.
    split; [apply np_sign_positivo; assumption | apply Rabs_right; lra].
  - assert (Hlt : p < 0) by lra.
    rewrite presion_minima_negativa by assumption.
    rewrite (Rabs_left p) in * by assumption.
    rewrite (np_sign_negativo p) by assumption.
    split; [apply np_sign_negativo; lra |].
    rewrite Rabs_left by lra. lra.
Qed.

(** The call of the wall pressures hands [gcpi] and the mean velocity
    pressure over in swapped positions; their product is the same. *)
Lemma _presiones_conmuta qi cp G a b flag :
  _presiones qi cp G a b flag = _presiones qi cp G b a flag.
Proof. unfold _presiones. now rewrite (Rmult_comm a b). Qed.

Lemma reduccion_gcpi_cota v a f : reduccion_gcpi v a = Ok f -> f <= 1.
Proof.
  unfold reduccion_gcpi. intros H.
  apply ligar_ok in H as (x1 & _ & H).
  apply ligar_ok in H as (x2 & _ & H).
  destruct (py_pow (1 + x2) 0.5) as [raiz|[]]; try discriminate.
  apply ligar_ok in H as (x3 & _ & H).
  injection H as <-. apply Rmin_r.
Qed.

(** With a positive base the guarded expression is the reduction formula
    itself; with a zero base it divides by zero. *)
Lemma reduccion_gcpi_valor v a :
  a <> 0 -> 0 < 1 + v / 6954 / a ->
  reduccion_gcpi v a = Ok (Rmin (0.5 * (1 + 1 / sqrt (1 + v / 6954 / a))) 1).
Proof.
  intros Ha Hb. unfold reduccion_gcpi.
  rewrite py_div_ok by lra. cbn [ligar].
  rewrite py_div_ok by assumption. cbn [ligar].
  rewrite py_pow_raiz by assumption.
  rewrite py_div_ok; [reflexivity|].
  pose proof (sqrt_lt_R0 _ Hb). lra.
Qed.

Lemma reduccion_gcpi_base_cero v a :
  a <> 0 -> 1 + v / 6954 / a = 0 -> reduccion_gcpi v a = Falla ZeroDivisionError.
Proof.
  intros Ha Hb. unfold reduccion_gcpi.
  rewrite py_div_ok by lra. cbn [ligar].
  rewrite py_div_ok by assumption. cbn [ligar].
  rewrite Hb. unfold py_pow. decidir_reales.
  rewrite py_div_cero. reflexivity.
Qed.

Lemma factor_reduccion_gcpi_casos self :
  factor_reduccion_gcpi self = Ok 1 \/
  exists v a,
    reducir_gcpi self = true /\ cerramiento self = PARCIALMENTE_CERRADO /\
    volumen_interno self = Some v /\ aberturas_totales self = Some a /\ a <> 0 /\
    factor_reduccion_gcpi self = reduccion_gcpi v a.
Proof.
  unfold factor_reduccion_gcpi.
  destruct (reducir_gcpi self); [|now left].
  destruct (cerramiento self); try now left.
  destruct (volumen_interno self) as [v|]; [|now left].
  destruct (aberturas_totales self) as [a|] eqn:Ha; simpl; [|now left].
  destruct (Reqb a 0) eqn:E; simpl; [now left|].
  right. exists v, a. apply Reqb_false in E. repeat split; auto.
Qed.

Lemma gcpi_factor self g :
  gcpi self = Ok g ->
  exists f, factor_reduccion_gcpi self = Ok f /\ g = cerramiento_gcpi (cerramiento self) * f.
Proof.
  unfold gcpi. intros H. apply ligar_ok in H as (f & Hf & H).
  injection H as <-. now exists f.
Qed.

Lemma factor_reduccion_gcpi_cota self f :
  factor_reduccion_gcpi self = Ok f ->
  f <= 1 /\ (f <> 1 -> cerramiento self = PARCIALMENTE_CERRADO /\ reducir_gcpi self = true).
Proof.
  intros Hf.
  destruct (factor_reduccion_gcpi_casos self) as [H1 | (v & a & Hr & Hc & _ & _ & _ & Heq)].
  - rewrite H1 in Hf. injection Hf as <-. split; [lra | intros H; now contradiction H].
  - rewrite Heq in Hf. split; [now apply reduccion_gcpi_cota in Hf | auto].
Qed.

Lemma presion_media_parcial_piso self cp G con_piso :
  _presion_media_parcial self cp G true = Ok con_piso ->
  exists sin_piso,
    _presion_media_parcial self cp G false = Ok sin_piso /\
    pos con_piso = presion_minima (pos sin_piso) /\
    neg con_piso = presion_minima (neg sin_piso).
Proof.
  unfold _presion_media_parcial. intros H.
  apply ligar_ok in H as (g & Hg & H). rewrite Hg. simpl.
  injection H as <-. eexists. split; [reflexivity|]. split; reflexivity.
Qed.

Lemma recorrer_entrada {K X Y : Type} (f : X -> resultado Y) (d : list (K * X)) r k y :
  recorrer f d = Ok r -> In (k, y) r -> exists x, In (k, x) d /\ f x = Ok y.
Proof.
  revert r. induction d as [|[k0 x0] d IH]; simpl; intros r H Hin.
  - injection H as <-. contradiction.
  - apply ligar_ok in H as (y0 & Hy0 & H).
    apply ligar_ok in H as (r' & Hr' & H). injection H as <-.
    destruct Hin as [Heq | Hin].
    + injection Heq as <- <-. exists x0. auto.
    + destruct (IH r' Hr' Hin) as (x & Hx & Hfx). exists x. auto.
Qed.

(** Where the floor is applied: every pressure that
    [_presiones_componentes] returns for a zone is [presion_minima] of the
    pressure the same call gives without the minimum-pressure check, and so
    is the eave pressure flagged for the check; [presion_minima p] has the
    sign of [p] and the magnitude [max(500, |p|)] for every non-zero [p],
    and is 0 for [p = 0]. *)
Theorem presiones_componentes_piso :
  forall (nombre zona : Type) self (valores_cp : list (nombre * list (zona * R)))
         r n zonas z presion,
    _presiones_componentes self (Some valores_cp) = Ok (Some r) ->
    In (n, zonas) r -> In (z, presion) zonas ->
    (exists cps cp sin_piso,
        In (n, cps) valores_cp /\ In (z, cp) cps /\
        _presion_media_parcial self cp 1 false = Ok sin_piso /\
        pos presion = presion_minima (pos sin_piso) /\
        neg presion = presion_minima (neg sin_piso)) /\
    (forall cp, _presion_media_parcial_alero self cp 1 true =
                presion_minima (_presion_media_parcial_alero self cp 1 false)) /\
    (forall p, p <> 0 ->
               np_sign (presion_minima p) = np_sign p /\
               Rabs (presion_minima p) = Rmax 500 (Rabs p)) /\
    presion_minima 0 = 0.
Proof.
  intros nombre zona self valores_cp r n zonas z presion H Hn Hz.
  unfold _presiones_componentes in H.
  apply ligar_ok in H as (r' & Hr' & H). injection H as <-.
  destruct (recorrer_entrada _ _ _ _ _ Hr' Hn) as (cps & Hcps & Hzonas).
  destruct (recorrer_entrada _ _ _ _ _ Hzonas Hz) as (cp & Hcp & Hp).
  destruct (presion_media_parcial_piso _ _ _ _ Hp) as (s & Hs & Hpos & Hneg).
  split; [exists cps, cp, s; auto 6|].
  split; [reflexivity|].
  split; [apply presion_minima_signo_magnitud | apply presion_minima_cero].
Qed.

Lemma presiones_componentes_piso_testigo :
  let self := {| cerramiento := ABIERTO; reducir_gcpi := false;
                 aberturas_totales := None; volumen_interno := None;
                 presion_velocidad_media := 1000 |} in
  let presion := {| pos := presion_minima (1000 * 1 * 2 - 1000 * (0.0 * 1));
                    neg := presion_minima (1000 * 1 * 2 + 1000 * (0.0 * 1)) |} in
  _presiones_componentes self (Some [(tt, [(tt, 2)])]) = Ok (Some [(tt, [(tt, presion)])]) /\
  forall p, p <> 0 ->
            np_sign (presion_minima p) = np_sign p /\
            Rabs (presion_minima p) = Rmax 500 (Rabs p).
Proof.
  intros self presion. split; [reflexivity|].
  apply (presiones_componentes_piso unit unit self [(tt, [(tt, 2)])]
           [(tt, [(tt, presion)])] tt [(tt, presion)] tt presion).
  - reflexivity.
  - left; reflexivity.
  - left; reflexivity.
Defined.

(** At a zero pressure [np.sign(0)] is 0, so the result is 0 and its
    magnitude is not 500.  An open building with a zero coefficient
    produces it. *)
Lemma presion_minima_cero_sin_piso :
  let self := {| cerramiento := ABIERTO; reducir_gcpi := false;
                 aberturas_totales := None; volumen_interno := None;
                 presion_velocidad_media := 1000 |} in
  _presion_media_parcial self 0 1 false = Ok {| pos := 1000 * 1 * 0 - 1000 * (0.0 * 1);
                                                neg := 1000 * 1 * 0 + 1000 * (0.0 * 1) |} /\
  1000 * 1 * 0 - 1000 * (0.0 * 1) = 0 /\
  presion_minima 0 = 0 /\
  Rabs (presion_minima 0) <> Rmax 500 (Rabs 0).
Proof.
  intros self. split; [reflexivity|]. split; [lra|].
  split; [apply presion_minima_cero|].
  rewrite presion_minima_cero, Rabs_R0. rewrite Rmax_left by lra. lra.
Qed.

(** C1 (amended): with the internal-pressure coefficient [g] of the
    building, [g] is the entry of the enclosure table times a reduction
    factor that is at most 1 and differs from 1 only for a partially
    enclosed building with the reduction requested; without the
    minimum-pressure check a zone pressure is the pair
    [(q - qh * g, q + qh * g)] with [q = qz * G * Cp], for roof and wall
    zones alike; with the check each member of the pair goes through
    [presion_minima]. *)
Theorem presiones_zona_par :
  forall self g,
    gcpi self = Ok g ->
    let qh := presion_velocidad_media self in
    (exists f,
        factor_reduccion_gcpi self = Ok f /\
        g = cerramiento_gcpi (cerramiento self) * f /\
        f <= 1 /\
        (f <> 1 -> cerramiento self = PARCIALMENTE_CERRADO /\ reducir_gcpi self = true)) /\
    (cerramiento_gcpi CERRADO = 0.18 /\
     cerramiento_gcpi PARCIALMENTE_CERRADO = 0.55 /\
     cerramiento_gcpi ABIERTO = 0.0) /\
    (forall qz G Cp,
        _presiones qz Cp G qh g false =
          {| pos := qz * G * Cp - qh * g; neg := qz * G * Cp + qh * g |} /\
        presion_pared self qz Cp G =
          Ok {| pos := qz * G * Cp - qh * g; neg := qz * G * Cp + qh * g |} /\
        _presion_media_parcial self Cp G false =
          Ok {| pos := qh * G * Cp - qh * g; neg := qh * G * Cp + qh * g |} /\
        _presiones qz Cp G qh g true =
          {| pos := presion_minima (qz * G * Cp - qh * g);
             neg := presion_minima (qz * G * Cp + qh * g) |}).
Proof.
  intros self g Hg qh.
  destruct (gcpi_factor _ _ Hg) as (f & Hf & Heq).
  destruct (factor_reduccion_gcpi_cota _ _ Hf) as (Hle & Hne).
  split; [exists f; auto|].
  split; [repeat split|].
  intros qz G Cp. repeat split.
  - unfold presion_pared. rewrite Hg. cbn [ligar].
    rewrite _presiones_conmuta. reflexivity.
  - unfold _presion_media_parcial. rewrite Hg. reflexivity.
Qed.

Lemma presiones_zona_par_testigo :
  let self := {| cerramiento := CERRADO; reducir_gcpi := false;
                 aberturas_totales := None; volumen_interno := None;
                 presion_velocidad_media := 100 |} in
  gcpi self = Ok (0.18 * 1) /\
  _presion_media_parcial self 1 0.85 false =
    Ok {| pos := 100 * 0.85 * 1 - 100 * (0.18 * 1);
          neg := 100 * 0.85 * 1 + 100 * (0.18 * 1) |}.
Proof.
  intros self. split; [reflexivity|].
  pose proof (presiones_zona_par self (0.18 * 1) eq_refl) as H.
  exact (proj1 (proj2 (proj2 (proj2 (proj2 H) 100 0.85 1)))).
Defined.

(** C1 as stated fails where the minimum-pressure check is on: the
    components-and-cladding pressure of a closed building with
    [qh = 100], [Cp = 1] is (500, 500), not (82, 118). *)
Lemma presiones_componentes_no_es_par_simple :
  let self := {| cerramiento := CERRADO; reducir_gcpi := false;
                 aberturas_totales := None; volumen_interno := None;
                 presion_velocidad_media := 100 |} in
  gcpi self = Ok (0.18 * 1) /\
  (exists r, _presion_media_parcial self 1 1 true = Ok r /\ pos r = 500 /\ neg r = 500) /\
  100 * 1 * 1 - 100 * (0.18 * 1) = 82 /\
  100 * 1 * 1 + 100 * (0.18 * 1) = 118 /\
  _presion_media_parcial self 1 1 true <>
    Ok {| pos := 100 * 1 * 1 - 100 * (0.18 * 1); neg := 100 * 1 * 1 + 100 * (0.18 * 1) |}.
Proof.
  intros self.
  assert (Hpos : presion_minima (100 * 1 * 1 - 100 * (0.18 * 1)) = 500).
  { rewrite presion_minima_positiva by lra. apply Rmax_left. lra. }
  assert (Hneg : presion_minima (100 * 1 * 1 + 100 * (0.18 * 1)) = 500).
  { rewrite presion_minima_positiva by lra. apply Rmax_left. lra. }
  split; [reflexivity|].
  split; [eexists; split; [reflexivity|]; simpl; auto|].
  split; [lra|]. split; [lra|].
  intros H. apply (f_equal (fun c => match c with Ok r => pos r | Falla _ => 0 end)) in H.
  simpl in H. rewrite Hpos in H. lra.
Qed.

(** C10: for a partially enclosed building with the reduction requested,
    a total opening area of zero (or none), or no internal volume, gives a
    reduction factor of exactly 1.0; and whenever the guarded expression is
    evaluated at all, the opening area is non-zero and the division by it
    succeeds. *)
Theorem factor_reduccion_gcpi_sin_aberturas :
  forall self,
    (cerramiento self = PARCIALMENTE_CERRADO ->
     reducir_gcpi self = true ->
     aberturas_totales self = Some 0 \/ aberturas_totales self = None \/
       volumen_interno self = None ->
     factor_reduccion_gcpi self = Ok 1) /\
    (factor_reduccion_gcpi self = Ok 1 \/
     exists v a,
       volumen_interno self = Some v /\ aberturas_totales self = Some a /\ a <> 0 /\
       py_div (v / 6954) a = Ok (v / 6954 / a) /\
       factor_reduccion_gcpi self = reduccion_gcpi v a).
Proof.
  intros self. split.
  - intros Hc Hr H. unfold factor_reduccion_gcpi. rewrite Hc, Hr.
    destruct (volumen_interno self) as [v|]; [|reflexivity].
    destruct H as [H | [H | H]]; try discriminate; rewrite H; simpl; [|reflexivity].
    replace (Reqb 0 0) with true by (symmetry; now apply Reqb_true). reflexivity.
  - destruct (factor_reduccion_gcpi_casos self) as [H | (v & a & _ & _ & Hv & Ha & Hne & Heq)].
    + now left.
    + right. exists v, a. repeat split; auto. now apply py_div_ok.
Qed.

Lemma factor_reduccion_gcpi_sin_aberturas_testigo :
  factor_reduccion_gcpi
    {| cerramiento := PARCIALMENTE_CERRADO; reducir_gcpi := true;
       aberturas_totales := Some 0; volumen_interno := Some 5000;
       presion_velocidad_media := 1000 |} = Ok 1.
Proof.
  apply (proj1 (factor_reduccion_gcpi_sin_aberturas _)).
  - reflexivity.
  - reflexivity.
  - left; reflexivity.
Defined.

End PropiedadesPresiones.

(** ** Gust-effect and topographic factors *)

(** Evaluates the partial operations of a goal at concrete reals. *)
Ltac evaluar_reales :=
  repeat (progress (unfold PyReal.py_div, PyReal.py_pow, PyReal.math_log, PyReal.math_log10;
                    decidir_reales; cbn [ligar negb andb orb])).

Section PropiedadesFactores.
Import Enums PyReal Factores.
Local Open Scope R_scope.

(** C5: with the simplified flag set, the gust-effect factor is 0.85
    whatever the other attributes are. *)
Theorem rafaga_factor_simplificado :
  forall self : Rafaga, factor_g_simplificado self = true -> factor self = Ok 0.85.
Proof. intros self H. unfold factor. now rewrite H. Qed.

Lemma rafaga_factor_simplificado_testigo :
  factor {| ancho := 30; longitud := 60; altura := 11; altura_rafaga := 10;
            velocidad := 45; frecuencia := 0; beta := 0;
            flexibilidad := FLEXIBLE; factor_g_simplificado := true;
            categoria_exp := C |} = Ok 0.85.
Proof. apply rafaga_factor_simplificado. reflexivity. Defined.

(** Without the flag the same flexible structure, of natural frequency 0,
    has no gust factor: [math.log(0)] raises. *)
Lemma rafaga_factor_sin_simplificar :
  factor {| ancho := 30; longitud := 60; altura := 11; altura_rafaga := 10;
            velocidad := 45; frecuencia := 0; beta := 0;
            flexibilidad := FLEXIBLE; factor_g_simplificado := false;
            categoria_exp := C |} = Falla ValueError.
Proof.
  unfold factor, _flexible, parametros, constantes_exp_terreno.
  cbn [factor_g_simplificado flexibilidad es_flexible categoria_exp altura_rafaga
       _constantes_exposicion zmin frecuencia].
  rewrite Rmax_left by lra.
  evaluar_reales. reflexivity.
Qed.

Lemma entradas_elemento_a_elemento f v x :
  In x (entradas (elemento_a_elemento f v)) <-> exists y, In y (entradas v) /\ x = f y.
Proof.
  destruct v as [y|ys]; simpl.
  - split.
    + intros [H|[]]. exists y. auto.
    + intros (y' & [H|[]] & ->). left. now subst.
  - rewrite in_map_iff. split; intros (y & H1 & H2); exists y; auto.
Qed.

Lemma tabla_factor_k_positivo t cat : 0 < tabla_factor_k t cat.
Proof. destruct t, cat; simpl; lra. Qed.

Lemma tabla_mu_positivo t d : 0 < tabla_mu t d.
Proof. destruct t, d; simpl; lra. Qed.

(** What [topografia_considerada] returning [True] says of the terrain. *)
Lemma topografia_considerada_true self :
  topografia_considerada self = Ok true ->
  considerar_topografia self = true /\
  distancia_cresta self <> 0 /\
  0.2 <= altura_terreno self / distancia_cresta self /\
  5 < altura_terreno self.
Proof.
  unfold topografia_considerada.
  destruct (considerar_topografia self); simpl; [|discriminate].
  unfold py_div. destruct (Reqb (distancia_cresta self) 0) eqn:E; simpl; [discriminate|].
  apply Reqb_false in E.
  destruct (Rleb 0.2 _) eqn:Hq; simpl; [|discriminate].
  apply Rleb_true in Hq.
  destruct (en_A_B _ && Rltb 20 _) eqn:HAB; simpl.
  - apply andb_true_iff in HAB as [_ H]. apply Rltb_true in H. intros _.
    repeat split; auto; lra.
  - destruct (en_C_D _ && Rltb 5 _) eqn:HCD; simpl; [|discriminate].
    apply andb_true_iff in HCD as [_ H]. apply Rltb_true in H. intros _.
    repeat split; auto.
Qed.

Lemma topografia_no_considerada_unos self kzt :
  topografia_considerada self = Ok false ->
  topo_factor self = Ok kzt ->
  forall x, In x (entradas kzt) -> x = 1.
Proof.
  intros Hc H x Hx. unfold topo_factor in H. rewrite Hc in H. simpl in H.
  injection H as <-. apply entradas_elemento_a_elemento in Hx as (y & _ & ->). reflexivity.
Qed.

(** The entries of a computed factor are squares. *)
Lemma topo_factor_entradas self kzt x :
  topografia_considerada self = Ok true ->
  topo_factor self = Ok kzt ->
  In x (entradas kzt) ->
  exists altura,
    In altura (entradas (alturas self)) /\
    let lh := Rmax (distancia_cresta self) (2 * altura_terreno self) in
    let k1 := tabla_factor_k (tipo_terreno self) (topo_categoria_exp self)
              * altura_terreno self / lh in
    let k2 := 1 - distancia_barlovento_sotavento self
                  / tabla_mu (tipo_terreno self) (direccion self) / lh in
    let k3 := exp (-1 * tabla_gamma (tipo_terreno self) * altura / lh) in
    x = (1 + k1 * k2 * k3) * (1 + k1 * k2 * k3).
Proof.
  intros Hc H Hx. unfold topo_factor in H. rewrite Hc in H. cbn [ligar negb] in H.
  apply ligar_ok in H as (p & Hp & H). injection H as <-.
  apply entradas_elemento_a_elemento in Hx as (k & Hk & ->).
  unfold topo_parametros in Hp.
  apply ligar_ok in Hp as (k1 & Hk1 & Hp).
  apply ligar_ok in Hp as (a & Ha & Hp).
  apply ligar_ok in Hp as (b & Hb & Hp).
  injection Hp as <-. cbn [Factores.k1 Factores.k2 Factores.k3] in *.
  apply entradas_elemento_a_elemento in Hk as (altura & Haltura & ->).
  exists altura. split; [assumption|]. cbv zeta.
  unfold py_div in Hk1, Ha, Hb.
  destruct (Reqb (Rmax _ _) 0); [discriminate|].
  destruct (Reqb (tabla_mu _ _) 0); [discriminate|].
  injection Hk1 as <-. injection Ha as <-. injection Hb as <-. reflexivity.
Qed.

(** C2 (amended): every entry of a computed [Kzt] is non-negative; it is
    exactly 1 when the topography is not considered; and it is at least 1
    when the topography is considered and the windward or leeward distance
    does not exceed [mu * Lh], so that [K2 >= 0]. *)
Theorem topo_factor_cota :
  forall self kzt,
    topo_factor self = Ok kzt ->
    (forall x, In x (entradas kzt) -> 0 <= x) /\
    (topografia_considerada self = Ok false ->
     forall x, In x (entradas kzt) -> x = 1) /\
    (topografia_considerada self = Ok true ->
     distancia_barlovento_sotavento self
       <= tabla_mu (tipo_terreno self) (direccion self)
          * Rmax (distancia_cresta self) (2 * altura_terreno self) ->
     forall x, In x (entradas kzt) -> 1 <= x).
Proof.
  intros self kzt H.
  assert (Hcasos : topografia_considerada self = Ok false \/
                   topografia_considerada self = Ok true).
  { unfold topo_factor in H. apply ligar_ok in H as ([|] & Hc & _); auto. }
  split; [|split].
  - intros x Hx. destruct Hcasos as [Hc|Hc].
    + rewrite (topografia_no_considerada_unos _ _ Hc H x Hx). lra.
    + destruct (topo_factor_entradas _ _ _ Hc H Hx) as (altura & _ & ->). cbv zeta.
      match goal with |- 0 <= ?t * ?t => apply (Rle_0_sqr t) end.
  - intros Hc. exact (topografia_no_considerada_unos self kzt Hc H).
  - intros Hc Hd x Hx.
    destruct (topo_factor_entradas _ _ _ Hc H Hx) as (altura & _ & ->). cbv zeta.
    destruct (topografia_considerada_true _ Hc) as (_ & _ & _ & Hh).
    pose proof (tabla_factor_k_positivo (tipo_terreno self) (topo_categoria_exp self)) as Hk.
    pose proof (tabla_mu_positivo (tipo_terreno self) (direccion self)) as Hmu.
    pose proof (Rmax_r (distancia_cresta self) (2 * altura_terreno self)) as Hlh.
    set (lh := Rmax (distancia_cresta self) (2 * altura_terreno self)) in *.
    set (mu := tabla_mu (tipo_terreno self) (direccion self)) in *.
    set (k := tabla_factor_k (tipo_terreno self) (topo_categoria_exp self)) in *.
    assert (Hlh0 : 0 < lh) by lra.
    assert (Hk1 : 0 <= k * altura_terreno self / lh).
    { apply Rlt_le, Rdiv_lt_0_compat; [nra | assumption]. }
    assert (Hk2 : 0 <= 1 - distancia_barlovento_sotavento self / mu / lh).
    { rewrite <- Rdiv_mult_distr.
      assert (distancia_barlovento_sotavento self / (mu * lh) <= 1); [|lra].
      apply (Rmult_le_reg_r (mu * lh)); [nra|].
      unfold Rdiv. rewrite Rmult_assoc, Rinv_l by nra. lra. }
    pose proof (exp_pos (-1 * tabla_gamma (tipo_terreno self) * altura / lh)) as Hk3.
    set (k1 := k * altura_terreno self / lh) in *.
    set (k2 := 1 - distancia_barlovento_sotavento self / mu / lh) in *.
    set (k3 := exp _) in *.
    assert (0 <= k1 * k2 * k3) by (apply Rmult_le_pos; [apply Rmult_le_pos|]; lra).
    nra.
Qed.

Lemma topo_factor_cota_testigo :
  let self := {| topo_categoria_exp := C; considerar_topografia := true;
                 tipo_terreno := LOMA_BIDIMENSIONAL; altura_terreno := 10;
                 distancia_cresta := 20; distancia_barlovento_sotavento := 15;
                 direccion := BARLOVENTO; alturas := Array [0; 5] |} in
  exists kzt, topo_factor self = Ok kzt /\ forall x, In x (entradas kzt) -> 1 <= x.
Proof.
  intros self.
  assert (Hc : topografia_considerada self = Ok true).
  { unfold topografia_considerada, self.
    cbn [considerar_topografia altura_terreno distancia_cresta topo_categoria_exp
         en_A_B en_C_D].
    evaluar_reales. reflexivity. }
  assert (Hlh : Rmax 20 (2 * 10) = 20) by (apply Rmax_left; lra).
  assert (Hf : exists kzt, topo_factor self = Ok kzt).
  { eexists. unfold topo_factor. rewrite Hc. cbn [ligar negb].
    unfold topo_parametros, self.
    cbn [distancia_cresta altura_terreno tipo_terreno topo_categoria_exp direccion
         distancia_barlovento_sotavento alturas tabla_factor_k tabla_gamma tabla_mu].
    rewrite Hlh. evaluar_reales. reflexivity. }
  destruct Hf as (kzt & Hf). exists kzt. split; [exact Hf|].
  apply (proj2 (proj2 (topo_factor_cota self kzt Hf))).
  - exact Hc.
  - unfold self.
    cbn [distancia_cresta altura_terreno tipo_terreno direccion
         distancia_barlovento_sotavento tabla_mu].
    rewrite Hlh. lra.
Defined.

(** C2 as stated fails far from the crest: a two-dimensional ridge of
    height 10 m with crest distance 20 m, in exposure C, seen from 60 m
    windward, has [K2 = -1] and, at ground level,
    [Kzt = (1 - 0.725)^2 < 1]. *)
Lemma topo_factor_menor_que_uno :
  let self := {| topo_categoria_exp := C; considerar_topografia := true;
                 tipo_terreno := LOMA_BIDIMENSIONAL; altura_terreno := 10;
                 distancia_cresta := 20; distancia_barlovento_sotavento := 60;
                 direccion := BARLOVENTO; alturas := Escalar 0 |} in
  exists kzt, topo_factor self = Ok (Escalar kzt) /\ kzt < 1.
Proof.
  intros self.
  assert (Hc : topografia_considerada self = Ok true).
  { unfold topografia_considerada, self.
    cbn [considerar_topografia altura_terreno distancia_cresta topo_categoria_exp
         en_A_B en_C_D].
    evaluar_reales. reflexivity. }
  assert (Hlh : Rmax 20 (2 * 10) = 20) by (apply Rmax_left; lra).
  eexists. split.
  - unfold topo_factor. rewrite Hc. cbn [ligar negb].
    unfold topo_parametros, self.
    cbn [distancia_cresta altura_terreno tipo_terreno topo_categoria_exp direccion
         distancia_barlovento_sotavento alturas tabla_factor_k tabla_gamma tabla_mu].
    rewrite Hlh. evaluar_reales.
    cbn [elemento_a_elemento k1 k2 k3]. reflexivity.
  - replace (-1 * 3.0 * 0 / 20) with 0 by lra. rewrite exp_0. lra.
Qed.

End PropiedadesFactores.

(** ** Component coefficient by tributary area *)

Section PropiedadesCpEdificio.
Import PyReal CpEdificio.
Local Open Scope R_scope.

Lemma ln_10_positivo : 0 < ln 10.
Proof. rewrite <- ln_1. apply ln_increasing; lra. Qed.

Lemma log10_positivo x : 1 < x -> 0 < log10 x.
Proof.
  intros H. unfold log10. apply Rdiv_lt_0_compat; [|apply ln_10_positivo].
  rewrite <- ln_1. apply ln_increasing; lra.
Qed.

Lemma log10_1 : log10 1 = 0.
Proof. unfold log10. rewrite ln_1. lra. Qed.

Lemma cociente_mayor_que_uno a b : 0 < a -> a < b -> 1 < b / a.
Proof.
  intros Ha Hab. apply (Rmult_lt_reg_r a); [assumption|].
  unfold Rdiv. rewrite Rmult_assoc, Rinv_l by lra. lra.
Qed.

(** C3: with break-points [0 < A1 < A2], the interpolation is [Cp1] up to
    [A1], [Cp2] from [A2] on, and the logarithmic chord in between. *)
Theorem calcular_cp_componente_tramos :
  forall Cp1 Cp2 A1 A2 A : R,
    0 < A1 < A2 ->
    (A <= A1 -> calcular_cp_componente (Cp1, Cp2) (A1, A2) A = Ok Cp1) /\
    (A2 <= A -> calcular_cp_componente (Cp1, Cp2) (A1, A2) A = Ok Cp2) /\
    (A1 < A < A2 ->
     calcular_cp_componente (Cp1, Cp2) (A1, A2) A =
       Ok (Cp1 + (Cp2 - Cp1) / log10 (A2 / A1) * log10 (A / A1))).
Proof.
  intros Cp1 Cp2 A1 A2 A [H1 H12]. unfold calcular_cp_componente.
  split; [|split].
  - intros H. apply Rleb_true in H. now rewrite H.
  - intros H.
    replace (Rleb A A1) with false by (symmetry; apply Rleb_false; lra).
    apply Rleb_true in H. now rewrite H.
  - intros [Ha1 Ha2].
    replace (Rleb A A1) with false by (symmetry; apply Rleb_false; lra).
    replace (Rleb A2 A) with false by (symmetry; apply Rleb_false; lra).
    pose proof (cociente_mayor_que_uno A1 A2 H1 H12) as Hq.
    pose proof (cociente_mayor_que_uno A1 A H1 Ha1) as Hq'.
    pose proof (log10_positivo _ Hq) as Hl.
    rewrite py_div_ok by lra. cbn [ligar].
    rewrite math_log10_ok by lra. cbn [ligar].
    rewrite py_div_ok by lra. cbn [ligar].
    rewrite py_div_ok by lra. cbn [ligar].
    rewrite math_log10_ok by lra. reflexivity.
Qed.

Lemma calcular_cp_componente_tramos_testigo :
  0 < 1 < 10 /\ 1 < 5 < 10 /\
  calcular_cp_componente (-1, -0.5) (1, 10) 5 =
    Ok (-1 + (-0.5 - -1) / log10 (10 / 1) * log10 (5 / 1)).
Proof.
  split; [lra|]. split; [lra|].
  apply (proj2 (proj2 (calcular_cp_componente_tramos (-1) (-0.5) 1 10 5 ltac:(lra)))).
  lra.
Defined.

(** The chord meets the two clamped values at the break-points. *)
Lemma calcular_cp_componente_continua Cp1 Cp2 A1 A2 :
  0 < A1 < A2 ->
  Cp1 + (Cp2 - Cp1) / log10 (A2 / A1) * log10 (A1 / A1) = Cp1 /\
  Cp1 + (Cp2 - Cp1) / log10 (A2 / A1) * log10 (A2 / A1) = Cp2.
Proof.
  intros [H1 H12].
  pose proof (log10_positivo _ (cociente_mayor_que_uno A1 A2 H1 H12)) as Hl.
  split.
  - rewrite Rdiv_diag by lra. rewrite log10_1. lra.
  - unfold Rdiv at 1. rewrite Rmult_assoc, Rinv_l by lra. lra.
Qed.

End PropiedadesCpEdificio.

(** ** Roof geometry *)

Section PropiedadesCubiertas.
Import Enums PyReal Cubiertas.
Local Open Scope R_scope.

Lemma coseno_dos_novenos : 79 / 81 <= cos (2 / 9).
Proof.
  pose proof PI2_1 as Hpi.
  assert (H : cos_approx (2 / 9) (2 * 0 + 1) <= cos (2 / 9) <= cos_approx (2 / 9) (2 * (0 + 1))).
  { apply cos_bound; lra. }
  destruct H as [H _]. unfold cos_approx, cos_term in H. simpl in H. lra.
Qed.

Lemma tangente_dos_novenos : tan (2 / 9) < 2 / 3.
Proof.
  pose proof coseno_dos_novenos as Hc.
  assert (Hs : sin (2 / 9) < 2 / 9) by (apply sin_lt_x; lra).
  unfold tan. apply (Rmult_lt_reg_r (cos (2 / 9))); [lra|].
  unfold Rdiv. rewrite Rmult_assoc, Rinv_l by lra. lra.
Qed.

(** The slope 2/3 is steeper than 10 degrees. *)
Lemma atan_dos_tercios : PI / 18 < atan (2 / 3).
Proof.
  pose proof PI2_1 as Hpi. pose proof PI_4 as Hpi4.
  assert (H : atan (tan (2 / 9)) < atan (2 / 3)).
  { apply atan_increasing, tangente_dos_novenos. }
  rewrite atan_tan in H by lra. lra.
Qed.

Lemma math_degrees_mayor x g : PI / 180 * g < x -> g < math_degrees x.
Proof.
  intros H. pose proof PI_RGT_0 as Hpi. unfold math_degrees.
  apply (Rmult_lt_reg_r (PI / 180)); [lra|].
  replace (x * (180 / PI) * (PI / 180)) with x by (field; lra). lra.
Qed.

(** C8: for a roof of non-zero width, the slope angle is the arc tangent,
    in degrees, of rise over run, doubled for a duo-pitch roof; the mean
    roof height is the eave height when that angle is at most 10 and the
    mean of eave and ridge heights otherwise; the duo-pitch roof of width
    30 m, eave 6 m and ridge 16 m has a mean roof height of 11 m. *)
Theorem altura_media_por_angulo :
  forall self : Cubierta,
    ancho self <> 0 ->
    let pendiente := (altura_cumbrera self - altura_alero self) / ancho self in
    let a := math_degrees (atan (match tipo_cubierta self with
                                 | DOS_AGUAS => pendiente * 2
                                 | _ => pendiente
                                 end)) in
    angulo self = Ok a /\
    (a <= 10 -> altura_media self = Ok (altura_alero self)) /\
    (10 < a -> altura_media self = Ok ((altura_alero self + altura_cumbrera self) / 2)) /\
    altura_media (Cubierta_init 30 60 6 16 DOS_AGUAS) = Ok 11.
Proof.
  intros self Hancho pendiente a.
  assert (Ha : angulo self = Ok a).
  { unfold angulo. rewrite py_div_ok by assumption. reflexivity. }
  split; [exact Ha|]. unfold altura_media.
  split; [|split].
  - intros H. rewrite Ha. cbn [ligar]. apply Rleb_true in H. now rewrite H.
  - intros H. rewrite Ha. cbn [ligar]. apply Rleb_false in H. now rewrite H.
  - unfold angulo, Cubierta_init.
    cbn [ancho altura_alero altura_cumbrera tipo_cubierta].
    rewrite py_div_ok by lra. cbn [ligar].
    assert (H : 10 < math_degrees (atan ((16 - 6) / 30 * 2))).
    { apply math_degrees_mayor. replace ((16 - 6) / 30 * 2) with (2 / 3) by lra.
      pose proof atan_dos_tercios. lra. }
    apply Rleb_false in H. rewrite H. f_equal. lra.
Qed.

Lemma altura_media_por_angulo_testigo :
  30 <> 0 /\
  angulo (Cubierta_init 30 60 6 16 DOS_AGUAS)
    = Ok (math_degrees (atan ((16 - 6) / 30 * 2))).
Proof.
  split; [lra|].
  apply (proj1 (altura_media_por_angulo (Cubierta_init 30 60 6 16 DOS_AGUAS)
                  ltac:(cbn [ancho Cubierta_init]; lra))).
Defined.

(** A flat roof keeps its eave height as mean height, whatever ridge
    height it is built with. *)
Lemma altura_media_plana b l he hc :
  b <> 0 -> altura_media (Cubierta_init b l he hc PLANA) = Ok he.
Proof.
  intros Hb. unfold altura_media, angulo, Cubierta_init.
  cbn [ancho altura_alero altura_cumbrera tipo_cubierta].
  rewrite py_div_ok by assumption. cbn [ligar].
  replace ((he - he) / b) with 0 by (field; assumption).
  rewrite atan_0. unfold math_degrees.
  replace (Rleb (0 * (180 / PI)) 10) with true; [reflexivity|].
  symmetry. apply Rleb_true. lra.
Qed.

End PropiedadesCubiertas.

(** ** Rational comparisons, decided *)

Section AritmeticaRacional.
Import PyRac.
Local Open Scope Q_scope.

Lemma Qleb_true x y : Qleb x y = true <-> x <= y.
Proof. apply Qle_bool_iff. Qed.

Lemma Qleb_false x y : Qleb x y = false <-> y < x.
Proof.
  unfold Qleb. rewrite <- not_true_iff_false, Qle_bool_iff. split.
  - apply Qnot_le_lt.
  - apply Qlt_not_le.
Qed.

Lemma Qltb_true x y : Qltb x y = true <-> x < y.
Proof. unfold Qltb. rewrite negb_true_iff. apply Qleb_false. Qed.

Lemma Qltb_false x y : Qltb x y = false <-> y <= x.
Proof. unfold Qltb. rewrite negb_false_iff. apply Qleb_true. Qed.

Lemma Qeqb_true x y : Qeqb x y = true <-> x == y.
Proof. apply Qeq_bool_iff. Qed.

End AritmeticaRacional.

(** ** Isolated roofs *)

Section PropiedadesCpAisladas.
Import Enums PyRac CpAisladas.
Local Open Scope Q_scope.

(** C4 (amended): a blockage ratio outside [0, 1] raises [ValueError],
    whatever the roof; with a blockage ratio in [0, 1], a duo-pitch roof
    with an angle strictly between -5 and 5 and a mono-pitch roof with an
    angle outside [0, 30] raise [ErrorLineamientos], a different error,
    and a duo-pitch roof at 6 degrees is built. *)
Theorem CubiertaAislada_init_errores :
  forall tipo angulo relacion_bloqueo posicion_bloqueo,
    (~ (0 <= relacion_bloqueo /\ relacion_bloqueo <= 1) ->
     CubiertaAislada_init tipo angulo relacion_bloqueo posicion_bloqueo = Falla ValueError) /\
    (0 <= relacion_bloqueo /\ relacion_bloqueo <= 1 ->
     (tipo = DOS_AGUAS -> -5 < angulo /\ angulo < 5 ->
      CubiertaAislada_init tipo angulo relacion_bloqueo posicion_bloqueo
        = Falla ErrorLineamientos) /\
     (tipo = UN_AGUA -> ~ (0 <= angulo /\ angulo <= 30) ->
      CubiertaAislada_init tipo angulo relacion_bloqueo posicion_bloqueo
        = Falla ErrorLineamientos) /\
     CubiertaAislada_init DOS_AGUAS 6 relacion_bloqueo posicion_bloqueo
       = Ok {| tipo_cubierta := DOS_AGUAS; angulo := 6;
               relacion_bloqueo := relacion_bloqueo;
               posicion_bloqueo := posicion_bloqueo |}) /\
    ErrorLineamientos <> ValueError.
Proof.
  intros tipo ang rb pos. unfold CubiertaAislada_init.
  split; [|split]; [| |discriminate].
  - intros H.
    destruct (Qleb 0 rb && Qleb rb 1) eqn:E; [|reflexivity].
    apply andb_true_iff in E as [E1 E2].
    apply Qleb_true in E1, E2. tauto.
  - intros [H0 H1].
    apply Qleb_true in H0, H1. rewrite H0, H1. cbn [andb negb].
    split; [|split].
    + intros -> [Ha Hb]. cbn [es_dos_aguas es_un_agua orb negb].
      apply Qltb_true in Ha, Hb. now rewrite Ha, Hb.
    + intros -> H. cbn [es_dos_aguas es_un_agua orb negb andb].
      rewrite andb_false_r.
      destruct (Qleb 0 ang && Qleb ang 30) eqn:E; [|reflexivity].
      apply andb_true_iff in E as [E1 E2].
      apply Qleb_true in E1, E2. tauto.
    + reflexivity.
Qed.

Lemma CubiertaAislada_init_errores_testigo :
  (0 <= 1 # 2 /\ 1 # 2 <= 1) /\ (-5 < 0 /\ 0 < 5) /\
  CubiertaAislada_init DOS_AGUAS 0 (1 # 2) ALERO_BAJO = Falla ErrorLineamientos.
Proof.
  assert (Hrb : 0 <= 1 # 2 /\ 1 # 2 <= 1) by (split; discriminate).
  assert (Hang : -5 < 0 /\ 0 < 5) by (split; reflexivity).
  split; [exact Hrb|]. split; [exact Hang|].
  exact (proj1 (proj1 (proj2 (CubiertaAislada_init_errores DOS_AGUAS 0 (1 # 2) ALERO_BAJO)) Hrb)
           eq_refl Hang).
Defined.

(** C4 as stated fails when the blockage ratio is out of range: that guard
    comes first, and a duo-pitch roof at 0 degrees with a blockage ratio of
    2 raises [ValueError]. *)
Lemma CubiertaAislada_init_bloqueo_primero :
  CubiertaAislada_init DOS_AGUAS 0 2 ALERO_BAJO = Falla ValueError /\
  CubiertaAislada_init DOS_AGUAS 0 2 ALERO_BAJO <> Falla ErrorLineamientos.
Proof. split; [reflexivity | discriminate]. Qed.

End PropiedadesCpAisladas.

(** ** Signs *)

Section PropiedadesCpCartel.
Import PyReal CpCartel.
Local Open Scope R_scope.

(** Splits the comparisons of a hypothesis that an interpolation returns a
    value, and closes each interval by linear arithmetic. *)
Ltac por_tramos H :=
  repeat match type of H with
  | context [Rleb ?x ?y] =>
      let E := fresh "E" in
      destruct (Rleb x y) eqn:E;
      [apply Rleb_true in E | apply Rleb_false in E]
  | context [Rltb ?x ?y] =>
      let E := fresh "E" in
      destruct (Rltb x y) eqn:E;
      [apply Rltb_true in E | apply Rltb_false in E]
  end;
  injection H as <-; lra.

Lemma np_interp_tabla_sobre_nivel_cotas x v :
  np_interp x tabla_sobre_nivel = Ok v -> 1.2 <= v <= 2.
Proof.
  unfold np_interp, tabla_sobre_nivel, cfs. cbn [combine interp_desde].
  intros H. por_tramos H.
Qed.

Lemma np_interp_tabla_a_nivel_cotas x v :
  np_interp x tabla_a_nivel = Ok v -> 1.2 <= v <= 2.
Proof.
  unfold np_interp, tabla_a_nivel, cfs. cbn [combine interp_desde].
  intros H. por_tramos H.
Qed.

Lemma sobre_nivel_terreno_true self :
  sobre_nivel_terreno self = true <->
  0.25 * altura_neta self <= altura_inferior self /\ es_parapeto self = false.
Proof.
  unfold sobre_nivel_terreno.
  destruct (Rltb _ _) eqn:E; destruct (es_parapeto self); cbn [orb];
    [apply Rltb_true in E | apply Rltb_true in E
     | apply Rltb_false in E | apply Rltb_false in E];
    split; try discriminate; try tauto; intros [H1 H2]; try discriminate; lra.
Qed.

Lemma cartel_10_5_a_nivel :
  cf {| altura_inferior := 0; altura_neta := 10; ancho := 5; es_parapeto := false |}
    = Ok 1.2.
Proof.
  unfold cf, sobre_nivel_terreno, _a_nivel_terreno.
  cbn [altura_inferior altura_neta ancho es_parapeto].
  evaluar_reales. unfold np_interp, tabla_a_nivel, cfs. cbn [combine].
  evaluar_reales. reflexivity.
Qed.

(** C7 (amended): the force coefficient is interpolated from the
    elevated-case table at [max(h, w) / min(h, w)] when [hi >= 0.25 * h] and
    the sign is not flagged as a parapet, and from the ground-level table
    at [h / w] otherwise; it lies within [1.2, 2.0]; the sign of net height
    10 m and width 5 m at ground level gets the first value, 1.2, of the
    ground-level table. *)
Theorem cartel_cf_tablas :
  forall self v,
    cf self = Ok v ->
    (0.25 * altura_neta self <= altura_inferior self /\ es_parapeto self = false ->
     exists q,
       py_div (Rmax (altura_neta self) (ancho self)) (Rmin (altura_neta self) (ancho self))
         = Ok q /\
       np_interp q tabla_sobre_nivel = Ok v) /\
    (altura_inferior self < 0.25 * altura_neta self \/ es_parapeto self = true ->
     exists q,
       py_div (altura_neta self) (ancho self) = Ok q /\
       np_interp q tabla_a_nivel = Ok v) /\
    1.2 <= v <= 2 /\
    cf {| altura_inferior := 0; altura_neta := 10; ancho := 5; es_parapeto := false |}
      = Ok 1.2.
Proof.
  intros self v H. unfold cf in H.
  destruct (sobre_nivel_terreno self) eqn:Hs.
  - apply sobre_nivel_terreno_true in Hs as Hs'.
    unfold _sobre_nivel_terreno in H. apply ligar_ok in H as (q & Hq & H).
    split; [intros _; now exists q|].
    split; [intros [Hlt | Hp]; [lra | destruct Hs' as [_ Hs']; congruence]|].
    split; [now apply np_interp_tabla_sobre_nivel_cotas in H|].
    apply cartel_10_5_a_nivel.
  - assert (Hs' : ~ (0.25 * altura_neta self <= altura_inferior self /\
                     es_parapeto self = false)).
    { intros Hc. apply sobre_nivel_terreno_true in Hc. congruence. }
    unfold _a_nivel_terreno in H. apply ligar_ok in H as (q & Hq & H).
    split; [intros Hc; contradiction|].
    split; [intros _; now exists q|].
    split; [now apply np_interp_tabla_a_nivel_cotas in H|].
    apply cartel_10_5_a_nivel.
Qed.

Lemma cartel_cf_tablas_testigo :
  let self := {| altura_inferior := 0; altura_neta := 10; ancho := 5;
                 es_parapeto := false |} in
  altura_inferior self < 0.25 * altura_neta self /\
  exists q, py_div (altura_neta self) (ancho self) = Ok q /\
            np_interp q tabla_a_nivel = Ok 1.2.
Proof.
  intros self.
  assert (Hi : altura_inferior self < 0.25 * altura_neta self).
  { unfold self. cbn [altura_inferior altura_neta]. lra. }
  split; [exact Hi|].
  exact (proj1 (proj2 (cartel_cf_tablas self 1.2 cartel_10_5_a_nivel)) (or_introl Hi)).
Defined.

(** C7 as stated fails twice.  At ground level the ratio looked up is
    [h / w], not [max(h, w) / min(h, w)]: a sign 1 m high and 10 m wide gets
    1.2, where the ground-level table at the ratio 10 holds 1.5.  And the
    parapet flag, an input, selects the ground-level table whatever the
    geometry: a parapet 1 m high, 8 m wide and 10 m above ground gets 1.2,
    where the elevated table at the ratio 8 gives 1.25. *)
Lemma cartel_cf_no_es_max_min :
  (cf {| altura_inferior := 0; altura_neta := 1; ancho := 10; es_parapeto := false |}
     = Ok 1.2 /\
   exists b, np_interp (Rmax 1 10 / Rmin 1 10) tabla_a_nivel = Ok b /\ b = 1.5 /\ 1.2 <> b) /\
  (0.25 * 1 <= 10 /\
   cf {| altura_inferior := 10; altura_neta := 1; ancho := 8; es_parapeto := true |}
     = Ok 1.2 /\
   exists b, np_interp (Rmax 1 8 / Rmin 1 8) tabla_sobre_nivel = Ok b /\ b = 1.25 /\ 1.2 <> b).
Proof.
  split.
  - split.
    + unfold cf, sobre_nivel_terreno, _a_nivel_terreno.
      cbn [altura_inferior altura_neta ancho es_parapeto].
      evaluar_reales. unfold np_interp, tabla_a_nivel, cfs. cbn [combine].
      evaluar_reales. reflexivity.
    + rewrite Rmax_right, Rmin_left by lra.
      unfold np_interp, tabla_a_nivel, cfs. cbn [combine interp_desde].
      evaluar_reales. eexists. split; [reflexivity|]. split; lra.
  - split; [lra|]. split.
    + unfold cf, sobre_nivel_terreno, _a_nivel_terreno.
      cbn [altura_inferior altura_neta ancho es_parapeto].
      evaluar_reales. unfold np_interp, tabla_a_nivel, cfs. cbn [combine].
      evaluar_reales. reflexivity.
    + rewrite Rmax_right, Rmin_left by lra.
      unfold np_interp, tabla_sobre_nivel, cfs. cbn [combine interp_desde].
      evaluar_reales. eexists. split; [reflexivity|]. split; lra.
Qed.

End PropiedadesCpCartel.

(** ** Height arrays *)

Section PropiedadesUtilsAlturas.
Import PyRac UtilsAlturas.
Local Open Scope Q_scope.

Lemma contiene_InA x l : contiene x l = true <-> InA Qeq x l.
Proof.
  unfold contiene. induction l as [|a l IH]; simpl.
  - split; [discriminate | intros H; inversion H].
  - rewrite orb_true_iff, IH, InA_cons. unfold Qeqb. rewrite Qeq_bool_iff. tauto.
Qed.

Lemma In_insertar y x l : In y (insertar x l) <-> y = x \/ In y l.
Proof.
  induction l as [|a l IH]; simpl.
  - intuition auto.
  - destruct (Qleb x a); simpl; rewrite ?IH; intuition auto.
Qed.

Lemma InA_insertar y x l : InA Qeq y (insertar x l) <-> y == x \/ InA Qeq y l.
Proof.
  induction l as [|a l IH]; simpl.
  - rewrite InA_cons. tauto.
  - destruct (Qleb x a); rewrite !InA_cons; rewrite ?IH; tauto.
Qed.

Lemma Forall_insertar (P : Q -> Prop) x l :
  Forall P (insertar x l) <-> P x /\ Forall P l.
Proof.
  rewrite !Forall_forall. split.
  - intros H. split; [apply H, In_insertar; auto|].
    intros y Hy. apply H, In_insertar. auto.
  - intros [Hx Hl] y Hy. apply In_insertar in Hy as [->|Hy]; auto.
Qed.

Lemma insertar_ordenada x l :
  StronglySorted Qle l -> StronglySorted Qle (insertar x l).
Proof.
  induction 1 as [|a l Hl IH Ha]; simpl.
  - repeat constructor.
  - destruct (Qleb x a) eqn:E.
    + apply Qleb_true in E. constructor; [constructor; assumption|].
      constructor; [assumption|].
      apply (Forall_impl _ (fun y Hy => Qle_trans _ _ _ E Hy) Ha).
    + apply Qleb_false in E. constructor; [assumption|].
      apply Forall_insertar. split; [now apply Qlt_le_weak | assumption].
Qed.

Lemma NoDupA_insertar x l :
  NoDupA Qeq l -> ~ InA Qeq x l -> NoDupA Qeq (insertar x l).
Proof.
  induction l as [|a l IH]; simpl; intros Hnd Hx.
  - constructor; [assumption | constructor].
  - inversion Hnd as [|a' l' Ha Hl]; subst.
    destruct (Qleb x a); [constructor; assumption|].
    constructor.
    + rewrite InA_insertar. intros [H|H]; [|contradiction].
      apply Hx. left. now symmetry.
    + apply IH; [assumption|]. intros H. apply Hx. now right.
Qed.

Lemma In_ordenar y l : In y (ordenar l) <-> In y l.
Proof.
  induction l as [|a l IH]; simpl; [tauto|].
  rewrite In_insertar, IH. intuition auto.
Qed.

Lemma InA_ordenar y l : InA Qeq y (ordenar l) <-> InA Qeq y l.
Proof.
  induction l as [|a l IH]; simpl; [tauto|].
  rewrite InA_insertar, IH, InA_cons. tauto.
Qed.

Lemma ordenar_ordenada l : StronglySorted Qle (ordenar l).
Proof.
  induction l as [|a l IH]; simpl; [constructor | now apply insertar_ordenada].
Qed.

Lemma NoDupA_ordenar l : NoDupA Qeq l -> NoDupA Qeq (ordenar l).
Proof.
  induction 1 as [|a l Ha Hl IH]; simpl; [constructor|].
  apply NoDupA_insertar; [assumption|]. now rewrite InA_ordenar.
Qed.

(** A sorted list without repeated numbers is strictly increasing. *)
Lemma ordenada_sin_repetidos l :
  StronglySorted Qle l -> NoDupA Qeq l -> StronglySorted Qlt l.
Proof.
  induction 1 as [|a l Hl IH Ha]; intros Hnd; [constructor|].
  inversion Hnd as [|a' l' Hna Hndl]; subst.
  constructor; [now apply IH|].
  rewrite Forall_forall in *. intros y Hy.
  destruct (Qle_lt_or_eq _ _ (Ha y Hy)) as [H|H]; [assumption|].
  exfalso. apply Hna. apply InA_alt. exists y. auto.
Qed.

(** A strictly increasing list has no repeated numbers. *)
Lemma estricta_sin_repetidos l : StronglySorted Qlt l -> NoDupA Qeq l.
Proof.
  induction 1 as [|a l Hl IH Ha]; constructor; [|assumption].
  intros H. apply InA_alt in H as (y & Heq & Hy).
  rewrite Forall_forall in Ha. specialize (Ha y Hy).
  rewrite Heq in Ha. now apply Qlt_irrefl in Ha.
Qed.

Lemma InA_agregar_faltantes x cs l :
  InA Qeq x (agregar_faltantes l cs) <-> InA Qeq x l \/ InA Qeq x cs.
Proof.
  unfold agregar_faltantes. revert l.
  induction cs as [|a cs IH]; intros l; simpl.
  - split; [auto | intros [H|H]; [assumption | inversion H]].
  - rewrite IH, InA_cons. destruct (contiene a l) eqn:E.
    + apply contiene_InA in E. split; [tauto|].
      intros [H|[H|H]]; auto. left. now rewrite H.
    + rewrite InA_app_iff, InA_cons, InA_nil. tauto.
Qed.

Lemma In_agregar_faltantes x cs l :
  In x (agregar_faltantes l cs) -> In x l \/ In x cs.
Proof.
  unfold agregar_faltantes. revert l.
  induction cs as [|a cs IH]; intros l; simpl; [auto|].
  intros H. apply IH in H as [H|H]; [|auto].
  destruct (contiene a l); [auto|].
  apply in_app_iff in H as [H|[H|[]]]; auto.
Qed.

Lemma NoDupA_agregar_faltantes cs l :
  NoDupA Qeq l -> NoDupA Qeq (agregar_faltantes l cs).
Proof.
  unfold agregar_faltantes. revert l.
  induction cs as [|a cs IH]; intros l Hl; simpl; [assumption|].
  apply IH. destruct (contiene a l) eqn:E; [assumption|].
  apply NoDupA_app; [apply Q_Setoid | assumption | |].
  - constructor; [intros H; inversion H | constructor].
  - intros y Hy Ha. apply InA_cons in Ha as [Ha|Ha]; [|inversion Ha].
    rewrite Ha in Hy. apply contiene_InA in Hy. congruence.
Qed.

Lemma NoDupA_inject_Z l : NoDup l -> NoDupA Qeq (map inject_Z l).
Proof.
  induction 1 as [|a l Ha Hl IH]; simpl; constructor; [|assumption].
  intros H. apply InA_alt in H as (y & Heq & Hy).
  apply in_map_iff in Hy as (b & <- & Hb).
  apply (proj1 (inject_Z_injective a b)) in Heq. now subst.
Qed.

Lemma NoDup_rango a b : NoDup (rango a b).
Proof.
  unfold rango. apply Finite.Injective_map_NoDup; [|apply seq_NoDup].
  intros i j H. lia.
Qed.

Lemma alturas_iniciales_rango_sin_repetidos lo hi :
  NoDupA Qeq (alturas_iniciales lo hi None).
Proof. unfold alturas_iniciales. apply NoDupA_inject_Z, NoDup_rango. Qed.

Lemma alturas_iniciales_personalizadas lo hi l x :
  In x (alturas_iniciales lo hi (Some l)) <-> In x l /\ lo <= x /\ x <= hi.
Proof.
  unfold alturas_iniciales. rewrite filter_In, andb_true_iff, !Qleb_true. tauto.
Qed.

(** C9 (amended): the returned array is sorted; it is strictly increasing
    when the heights the loop starts from hold no number twice, as they do
    when no custom list is given; it contains the lower bound, the upper
    bound and every extra height; and each of its elements is one of those
    characteristic heights or a starting height, which for a custom list is
    a custom height within the bounds. *)
Theorem array_alturas_ordenada :
  forall lo hi custom otras,
    let r := array_alturas lo hi custom otras in
    StronglySorted Qle r /\
    (NoDupA Qeq (alturas_iniciales lo hi custom) -> StronglySorted Qlt r) /\
    (custom = None -> StronglySorted Qlt r) /\
    InA Qeq lo r /\
    InA Qeq hi r /\
    (forall x, In x otras -> InA Qeq x r) /\
    (forall x, In x r ->
               In x (alturas_iniciales lo hi custom) \/ In x (lo :: hi :: otras)) /\
    (forall l x, custom = Some l ->
                 In x (alturas_iniciales lo hi custom) ->
                 In x l /\ lo <= x /\ x <= hi).
Proof.
  intros lo hi custom otras r.
  assert (Hord : StronglySorted Qle r) by apply ordenar_ordenada.
  assert (Hest : NoDupA Qeq (alturas_iniciales lo hi custom) -> StronglySorted Qlt r).
  { intros Hnd. apply ordenada_sin_repetidos; [assumption|].
    apply NoDupA_ordenar, NoDupA_agregar_faltantes, Hnd. }
  assert (Hcar : forall x, InA Qeq x (lo :: hi :: otras) -> InA Qeq x r).
  { intros x Hx. apply InA_ordenar, InA_agregar_faltantes. now right. }
  split; [assumption|]. split; [assumption|].
  split; [intros ->; apply Hest, alturas_iniciales_rango_sin_repetidos|].
  split; [apply Hcar; now left|].
  split; [apply Hcar; right; now left|].
  split; [intros x Hx; apply Hcar; do 2 right; apply In_InA; [apply Q_Setoid | assumption]|].
  split.
  - intros x Hx. unfold r, array_alturas in Hx.
    apply (proj1 (In_ordenar _ _)) in Hx. now apply In_agregar_faltantes in Hx.
  - intros l x -> Hx. now apply alturas_iniciales_personalizadas in Hx.
Qed.

Lemma array_alturas_ordenada_testigo :
  array_alturas 0 5 (Some [1; 7; 3]) [2.5] = [0; 1; 2.5; 3; 5] /\
  NoDupA Qeq (alturas_iniciales 0 5 (Some [1; 7; 3])) /\
  StronglySorted Qlt (array_alturas 0 5 (Some [1; 7; 3]) [2.5]).
Proof.
  assert (Hnd : NoDupA Qeq (alturas_iniciales 0 5 (Some [1; 7; 3]))).
  { apply estricta_sin_repetidos. vm_compute. repeat constructor. }
  split; [reflexivity|]. split; [exact Hnd|].
  exact (proj1 (proj2 (array_alturas_ordenada 0 5 (Some [1; 7; 3]) [2.5])) Hnd).
Defined.

(** C9 as stated fails on a custom list that names a height twice: both
    copies are kept, and the array is not strictly increasing. *)
Lemma array_alturas_repetidas :
  array_alturas 0 5 (Some [3; 3]) [] = [0; 3; 3; 5] /\
  ~ StronglySorted Qlt (array_alturas 0 5 (Some [3; 3]) []).
Proof.
  split; [reflexivity|].
  replace (array_alturas 0 5 (Some [3; 3]) []) with [0; 3; 3; 5] by reflexivity.
  intros H.
  inversion H as [|a l Hl Ha]; subst.
  inversion Hl as [|a' l' Hl' Ha']; subst.
  inversion Ha' as [|b m Hb Hm]; subst.
  now apply Qlt_irrefl in Hb.
Qed.

(** A custom height outside the bounds still appears when it is also one
    of the extra characteristic heights. *)
Lemma array_alturas_fuera_de_rango :
  array_alturas 0 5 (Some [7; 2]) [7] = [0; 2; 5; 7].
Proof. reflexivity. Qed.

(** Without a custom list the integer heights between the bounds are
    used. *)
Lemma array_alturas_por_defecto :
  array_alturas 0.5 3 None [] = [0.5; 1; 2; 3].
Proof. reflexivity. Qed.

End PropiedadesUtilsAlturas.

(** ** Exposure coefficient and velocity pressure *)

Section PropiedadesPresionesBase.
Import Enums MasEnums PyReal Factores PresionesBase.
Local Open Scope R_scope.

Lemma constantes_positivas cat :
  0 < alfa (_constantes_exposicion cat) /\ 0 < zg (_constantes_exposicion cat) /\
  0 < zmin (_constantes_exposicion cat) /\ 0 < c (_constantes_exposicion cat) /\
  0 < le (_constantes_exposicion cat) /\ 0 < ep_bar (_constantes_exposicion cat).
Proof. destruct cat; cbn; repeat split; lra. Qed.

Lemma altura_limite_positiva self : 5 <= _altura_limite self.
Proof.
  unfold _altura_limite, _calcular_altura_limite.
  destruct (caso_altura_limite self =? 1)%Z; [destruct (categoria_exp self)|]; lra.
Qed.

Lemma py_pow_no_negativa x y p : py_pow x y = Ok p -> 0 <= p.
Proof.
  unfold py_pow.
  destruct (Rltb 0 x).
  - intros H. injection H as <-. unfold Rpower. apply Rlt_le, exp_pos.
  - destruct (Reqb x 0).
    + destruct (Rltb 0 y); [intros H; injection H as <-; lra|].
      destruct (Reqb y 0); [intros H; injection H as <-; lra | discriminate].
    + destruct (Reqb y 0); [intros H; injection H as <-; lra | discriminate].
Qed.

Lemma _kz_valor h lim a z :
  0 < lim -> 0 < a -> 0 < z ->
  _kz h lim a z = Ok (2.01 * Rpower (Rmax h lim / z) (2 / a)).
Proof.
  intros Hlim Ha Hz. unfold _kz.
  pose proof (Rmax_r h lim) as Hmax.
  rewrite py_div_ok by lra. cbn [ligar].
  rewrite py_div_ok by lra. cbn [ligar].
  rewrite py_pow_pos; [reflexivity|].
  apply Rdiv_lt_0_compat; lra.
Qed.

(** X1: with the terrain constants of the gust object and the height
    limit of the class, [Kz] is defined at every height, is positive, does
    not decrease with height, and is constant up to the height limit. *)
Theorem kz_creciente :
  forall (self : PresionesBase) (h1 h2 : R),
    h1 <= h2 ->
    let k := constantes_exp_terreno (rafaga self) in
    exists k1 k2,
      _kz h1 (_altura_limite self) (alfa k) (zg k) = Ok k1 /\
      _kz h2 (_altura_limite self) (alfa k) (zg k) = Ok k2 /\
      0 < k1 /\ k1 <= k2 /\
      (h2 <= _altura_limite self -> k1 = k2).
Proof.
  intros self h1 h2 Hh k.
  pose proof (altura_limite_positiva self) as Hlim.
  destruct (constantes_positivas (Factores.categoria_exp (rafaga self)))
    as (Ha & Hz & _).
  fold (constantes_exp_terreno (rafaga self)) in Ha, Hz. fold k in Ha, Hz.
  set (lim := _altura_limite self) in *.
  assert (Hq1 : 0 < Rmax h1 lim / zg k).
  { apply Rdiv_lt_0_compat; [|assumption]. pose proof (Rmax_r h1 lim). lra. }
  assert (He : 0 < 2 / alfa k) by (apply Rdiv_lt_0_compat; lra).
  exists (2.01 * Rpower (Rmax h1 lim / zg k) (2 / alfa k)),
         (2.01 * Rpower (Rmax h2 lim / zg k) (2 / alfa k)).
  split; [apply _kz_valor; lra|]. split; [apply _kz_valor; lra|].
  split; [|split].
  - assert (0 < Rpower (Rmax h1 lim / zg k) (2 / alfa k)) by (unfold Rpower; apply exp_pos).
    lra.
  - apply Rmult_le_compat_l; [lra|].
    apply Rle_Rpower_l; [lra|]. split; [assumption|].
    apply Rmult_le_compat_r; [apply Rlt_le, Rinv_0_lt_compat; assumption|].
    now apply Rle_max_compat_r.
  - intros H2. rewrite !Rmax_right by lra. reflexivity.
Qed.

Lemma kz_creciente_testigo :
  let self := {| alturas := Array [3; 11]; categoria := II; velocidad := 45;
                 rafaga := {| ancho := 30; longitud := 60; altura := 11;
                              altura_rafaga := 6.6; Factores.velocidad := 45;
                              frecuencia := 1; beta := 0.02; flexibilidad := RIGIDA;
                              factor_g_simplificado := true;
                              Factores.categoria_exp := C |};
                 factor_topografico := Array [1; 1]; factor_direccionalidad := 0.85;
                 categoria_exp := C; caso_altura_limite := 2 |} in
  3 <= 11 /\
  exists k1 k2, _kz 3 5 9.5 274 = Ok k1 /\ _kz 11 5 9.5 274 = Ok k2 /\ 0 < k1 /\ k1 <= k2.
Proof.
  intros self. split; [lra|].
  destruct (kz_creciente self 3 11 ltac:(lra)) as (k1 & k2 & H1 & H2 & Hp & Hle & _).
  exists k1, k2. repeat split; assumption.
Defined.

Lemma mapear_entrada {X Y : Type} (f : X -> resultado Y) l ys y :
  mapear f l = Ok ys -> In y ys -> exists x, In x l /\ f x = Ok y.
Proof.
  revert ys. induction l as [|x l IH]; simpl; intros ys H Hy.
  - injection H as <-. contradiction.
  - apply ligar_ok in H as (y0 & Hy0 & H).
    apply ligar_ok in H as (ys' & Hys' & H). injection H as <-.
    destruct Hy as [<-|Hy]; [exists x; auto|].
    destruct (IH _ Hys' Hy) as (x' & Hx' & Hf). exists x'. auto.
Qed.

Lemma _kz_no_negativo h lim a z v : _kz h lim a z = Ok v -> 0 <= v.
Proof.
  unfold _kz. intros H.
  apply ligar_ok in H as (q & _ & H).
  apply ligar_ok in H as (e & _ & H).
  apply ligar_ok in H as (p & Hp & H). injection H as <-.
  apply py_pow_no_negativa in Hp. lra.
Qed.

Lemma coeficientes_exposicion_no_negativos self kz x :
  coeficientes_exposicion self = Ok kz -> In x (entradas kz) -> 0 <= x.
Proof.
  unfold coeficientes_exposicion. destruct (alturas self) as [h|hs]; intros H Hx.
  - apply ligar_ok in H as (v & Hv & H). injection H as <-.
    destruct Hx as [<-|[]]. now apply _kz_no_negativo in Hv.
  - apply ligar_ok in H as (vs & Hvs & H). injection H as <-.
    destruct (mapear_entrada _ _ _ _ Hvs Hx) as (h & _ & Hv).
    now apply _kz_no_negativo in Hv.
Qed.

Lemma multiplicar_entradas a b p z :
  multiplicar a b = Ok p -> In z (entradas p) ->
  exists x y, In x (entradas a) /\ In y (entradas b) /\ z = x * y.
Proof.
  unfold multiplicar. destruct a as [x|xs].
  - intros H Hz. injection H as <-. unfold escalar_por in Hz.
    apply entradas_elemento_a_elemento in Hz as (y & Hy & ->).
    exists x, y. simpl. auto.
  - destruct b as [y|ys].
    + intros H Hz. injection H as <-. simpl in Hz.
      apply in_map_iff in Hz as (x & <- & Hx).
      exists x, y. simpl. auto.
    + destruct (length xs =? length ys)%nat.
      * intros H Hz. injection H as <-. simpl in Hz.
        apply in_map_iff in Hz as ([x y] & <- & Hxy).
        exists x, y. simpl. split; [eapply in_combine_l | split; [eapply in_combine_r|]]; eauto.
      * destruct xs as [|x [|x' xs]]; destruct ys as [|y [|y' ys]];
          try discriminate; intros H Hz; injection H as <-; simpl in Hz;
          repeat match goal with
          | H : _ \/ _ |- _ => destruct H
          | H : False |- _ => contradiction
          | H : In _ (map _ _) |- _ => apply in_map_iff in H as (? & <- & ?)
          end; subst; simpl; eauto 10.
Qed.

(** X2: a velocity pressure is never negative, as long as the
    directionality factor and the topographic factors are not. *)
Theorem presiones_velocidad_no_negativas :
  forall (self : PresionesBase) qz,
    presiones_velocidad self = Ok qz ->
    0 <= factor_direccionalidad self ->
    (forall k, In k (entradas (factor_topografico self)) -> 0 <= k) ->
    forall q, In q (entradas qz) -> 0 <= q.
Proof.
  intros self qz H Hkd Hkzt q Hq. unfold presiones_velocidad in H.
  apply ligar_ok in H as (kz & Hkz & H).
  apply ligar_ok in H as (p & Hp & H). injection H as <-.
  apply entradas_elemento_a_elemento in Hq as (z & Hz & ->).
  destruct (multiplicar_entradas _ _ _ _ Hp Hz) as (x & y & Hx & Hy & ->).
  unfold escalar_por in Hx.
  apply entradas_elemento_a_elemento in Hx as (k & Hk & ->).
  pose proof (coeficientes_exposicion_no_negativos _ _ _ Hkz Hk) as Hk0.
  pose proof (Hkzt _ Hy) as Hy0.
  assert (0 < factor_importancia self) by (unfold factor_importancia; destruct (categoria self); lra).
  assert (0 <= velocidad self * velocidad self) by nra.
  apply Rmult_le_pos; [|assumption].
  apply Rmult_le_pos; [|lra].
  apply Rmult_le_pos; [|assumption].
  apply Rmult_le_pos; [|assumption].
  apply Rmult_le_pos; lra.
Qed.

Lemma presiones_velocidad_no_negativas_testigo :
  let self := {| alturas := Escalar 11; categoria := II; velocidad := 45;
                 rafaga := {| ancho := 30; longitud := 60; altura := 11;
                              altura_rafaga := 6.6; Factores.velocidad := 45;
                              frecuencia := 1; beta := 0.02; flexibilidad := RIGIDA;
                              factor_g_simplificado := true;
                              Factores.categoria_exp := C |};
                 factor_topografico := Escalar 1; factor_direccionalidad := 0.85;
                 categoria_exp := C; caso_altura_limite := 2 |} in
  exists qz, presiones_velocidad self = Ok qz /\ forall q, In q (entradas qz) -> 0 <= q.
Proof.
  intros self.
  assert (H : exists qz, presiones_velocidad self = Ok qz).
  { unfold presiones_velocidad, coeficientes_exposicion, _altura_limite,
      _calcular_altura_limite, constantes_exp_terreno, self.
    cbn [alturas rafaga Factores.categoria_exp _constantes_exposicion alfa zg
         caso_altura_limite Z.eqb Pos.eqb].
    rewrite _kz_valor by lra. cbn [ligar multiplicar escalar_por].
    eexists. reflexivity. }
  destruct H as (qz & H). exists qz. split; [exact H|].
  apply (presiones_velocidad_no_negativas self qz H).
  - cbn [factor_direccionalidad self]. lra.
  - cbn [factor_topografico self entradas]. intros k [<-|[]]. lra.
Defined.

End PropiedadesPresionesBase.

(** ** More on the gust-effect and topographic factors *)

Section MasPropiedadesFactores.
Import Enums PyReal Factores.
Local Open Scope R_scope.

Lemma py_div_inversa x y q : py_div x y = Ok q -> y <> 0 /\ q = x / y.
Proof.
  unfold py_div. destruct (Reqb y 0) eqn:E; [discriminate|].
  apply Reqb_false in E. intros H. injection H as <-. auto.
Qed.

Lemma py_pow_raiz_cero : py_pow 0 0.5 = Ok 0.
Proof. unfold py_pow. decidir_reales. reflexivity. Qed.

(** A non-negative base and a positive exponent always have a power. *)
Lemma py_pow_base_no_negativa x y :
  0 <= x -> 0 < y -> exists p, py_pow x y = Ok p /\ 0 <= p.
Proof.
  intros Hx Hy. destruct (Rle_lt_or_eq_dec 0 x Hx) as [Hpos | <-].
  - exists (Rpower x y). split; [now apply py_pow_pos|].
    unfold Rpower. apply Rlt_le, exp_pos.
  - exists 0. split; [|lra]. unfold py_pow.
    replace (Rltb 0 0) with false by (symmetry; apply Rltb_false; lra).
    replace (Reqb 0 0) with true by (symmetry; now apply Reqb_true).
    apply Rltb_true in Hy. now rewrite Hy.
Qed.

Lemma parametros_rigida self :
  flexibilidad self = RIGIDA ->
  exists p, parametros self = Ok p /\ 0 < iz p /\ 0 < lz p.
Proof.
  intros Hr. unfold parametros. rewrite Hr. cbn [es_flexible].
  destruct (constantes_positivas (categoria_exp self)) as (_ & _ & Hzmin & Hc & Hle & _).
  fold (constantes_exp_terreno self) in *.
  set (k := constantes_exp_terreno self) in *.
  pose proof (Rmax_r (altura_rafaga self) (zmin k)) as Hz.
  set (z := Rmax (altura_rafaga self) (zmin k)) in *.
  rewrite py_div_ok by lra. cbn [ligar].
  rewrite py_pow_pos by (apply Rdiv_lt_0_compat; lra). cbn [ligar].
  rewrite py_div_ok by lra. cbn [ligar].
  rewrite py_pow_pos by (apply Rdiv_lt_0_compat; lra). cbn [ligar].
  eexists. split; [reflexivity|]. cbn [iz lz].
  split; apply Rmult_lt_0_compat; try assumption; unfold Rpower; apply exp_pos.
Qed.

Lemma factor_q_rigida self :
  flexibilidad self = RIGIDA -> 0 <= longitud self + altura self ->
  exists q, factor_q self = Ok q /\ 0 < q <= 1.
Proof.
  intros Hr Hd. unfold factor_q.
  destruct (parametros_rigida self Hr) as (p & Hp & _ & Hlz). rewrite Hp. cbn [ligar].
  rewrite py_div_ok by lra. cbn [ligar].
  assert (Hq : 0 <= (longitud self + altura self) / lz p).
  { apply Rmult_le_pos; [assumption|]. apply Rlt_le, Rinv_0_lt_compat, Hlz. }
  destruct (py_pow_base_no_negativa _ 0.63 Hq ltac:(lra)) as (e & He & He0).
  rewrite He. cbn [ligar].
  rewrite py_div_ok by lra. cbn [ligar].
  assert (Hi : 0 < 1 / (1 + 0.63 * e) <= 1).
  { split; [apply Rdiv_lt_0_compat; lra|].
    apply (Rmult_le_reg_r (1 + 0.63 * e)); [lra|].
    unfold Rdiv. rewrite Rmult_assoc, Rinv_l by lra. lra. }
  rewrite py_pow_raiz by lra.
  eexists. split; [reflexivity|]. split.
  - apply sqrt_lt_R0. lra.
  - apply Rle_trans with (sqrt 1); [apply sqrt_le_1_alt; lra | rewrite sqrt_1; lra].
Qed.

(** X3: the gust-effect factor of a rigid structure whose length and
    height do not add up to a negative number is always defined, and lies
    in (0, 0.925]. *)
Theorem rafaga_rigida_cota :
  forall self : Rafaga,
    factor_g_simplificado self = false ->
    flexibilidad self = RIGIDA ->
    0 <= longitud self + altura self ->
    exists g, factor self = Ok g /\ 0 < g <= 0.925.
Proof.
  intros self Hs Hr Hd. unfold factor. rewrite Hs, Hr. cbn [es_flexible].
  unfold _rigida.
  destruct (parametros_rigida self Hr) as (p & Hp & Hiz & _). rewrite Hp. cbn [ligar].
  destruct (factor_q_rigida self Hr Hd) as (q & Hq & Hq0 & Hq1). rewrite Hq. cbn [ligar].
  set (a := 1.7 * 3.4 * iz p).
  assert (Ha : 0 < a) by (unfold a; lra).
  rewrite py_div_ok by lra. cbn [ligar].
  eexists. split; [reflexivity|].
  assert (Hc : 0 < (1 + a * q) / (1 + a) <= 1).
  { split; [apply Rdiv_lt_0_compat; nra|].
    apply (Rmult_le_reg_r (1 + a)); [lra|].
    unfold Rdiv. rewrite Rmult_assoc, Rinv_l by lra. nra. }
  lra.
Qed.

Lemma rafaga_rigida_cota_testigo :
  exists g,
    factor {| ancho := 30; longitud := 60; altura := 11; altura_rafaga := 6.6;
              velocidad := 45; frecuencia := 1; beta := 0.02;
              flexibilidad := RIGIDA; factor_g_simplificado := false;
              categoria_exp := C |} = Ok g /\ 0 < g <= 0.925.
Proof.
  apply rafaga_rigida_cota; [reflexivity | reflexivity |].
  cbn [longitud altura]. lra.
Defined.

(** X4: with the topography switched off the factor is 1 at every height,
    in the shape of the heights, whatever the terrain attributes are, a
    zero crest distance included; switched on, a zero crest distance raises
    [ZeroDivisionError]. *)
Theorem topografia_desactivada :
  forall self : Topografia,
    (considerar_topografia self = false ->
     topo_factor self = Ok (elemento_a_elemento (fun _ => 1) (alturas self))) /\
    (considerar_topografia self = true -> distancia_cresta self = 0 ->
     topo_factor self = Falla ZeroDivisionError).
Proof.
  intros self. unfold topo_factor, topografia_considerada. split.
  - intros ->. reflexivity.
  - intros -> ->. cbn [negb]. rewrite py_div_cero. reflexivity.
Qed.

Lemma topografia_desactivada_testigo :
  topo_factor {| topo_categoria_exp := C; considerar_topografia := false;
                 tipo_terreno := LOMA_BIDIMENSIONAL; altura_terreno := 50;
                 distancia_cresta := 0; distancia_barlovento_sotavento := 50;
                 direccion := BARLOVENTO; alturas := Array [0; 3; 6] |}
    = Ok (Array [1; 1; 1]).
Proof.
  exact (proj1 (topografia_desactivada
                  {| topo_categoria_exp := C; considerar_topografia := false;
                     tipo_terreno := LOMA_BIDIMENSIONAL; altura_terreno := 50;
                     distancia_cresta := 0; distancia_barlovento_sotavento := 50;
                     direccion := BARLOVENTO; alturas := Array [0; 3; 6] |}) eq_refl).
Defined.

(** X5: where the topography is considered and the distance does not
    exceed [mu * Lh], the factor does not grow with height: of two heights,
    the upper one gets the smaller factor, still at least 1. *)
Theorem kzt_decrece_con_altura :
  forall (self : Topografia) z1 z2 a b,
    alturas self = Array [z1; z2] ->
    z1 <= z2 ->
    topografia_considerada self = Ok true ->
    distancia_barlovento_sotavento self
      <= tabla_mu (tipo_terreno self) (direccion self)
         * Rmax (distancia_cresta self) (2 * altura_terreno self) ->
    topo_factor self = Ok (Array [a; b]) ->
    1 <= b /\ b <= a.
Proof.
  intros self z1 z2 a b Hal Hz Hc Hd H.
  destruct (topografia_considerada_true _ Hc) as (_ & _ & _ & Hh).
  unfold topo_factor in H. rewrite Hc in H. cbn [ligar negb] in H.
  apply ligar_ok in H as (p & Hp & H).
  unfold topo_parametros in Hp. rewrite Hal in Hp.
  apply ligar_ok in Hp as (k1 & Hk1 & Hp).
  apply ligar_ok in Hp as (x & Hx & Hp).
  apply ligar_ok in Hp as (y & Hy & Hp).
  injection Hp as <-. cbn in H. injection H as <- <-.
  apply py_div_inversa in Hk1 as (_ & ->).
  apply py_div_inversa in Hx as (_ & ->).
  apply py_div_inversa in Hy as (_ & ->).
  pose proof (tabla_factor_k_positivo (tipo_terreno self) (topo_categoria_exp self)) as Hk.
  pose proof (tabla_mu_positivo (tipo_terreno self) (direccion self)) as Hmu.
  pose proof (Rmax_r (distancia_cresta self) (2 * altura_terreno self)) as Hlh.
  set (lh := Rmax (distancia_cresta self) (2 * altura_terreno self)) in *.
  set (mu := tabla_mu (tipo_terreno self) (direccion self)) in *.
  set (k := tabla_factor_k (tipo_terreno self) (topo_categoria_exp self)) in *.
  assert (Hg : 0 < tabla_gamma (tipo_terreno self)) by (destruct (tipo_terreno self); simpl; lra).
  set (g := tabla_gamma (tipo_terreno self)) in *.
  assert (Hlh0 : 0 < lh) by lra.
  assert (Hk1 : 0 <= k * altura_terreno self / lh).
  { apply Rlt_le, Rdiv_lt_0_compat; [nra | assumption]. }
  assert (Hk2 : 0 <= 1 - distancia_barlovento_sotavento self / mu / lh).
  { rewrite <- Rdiv_mult_distr.
    assert (distancia_barlovento_sotavento self / (mu * lh) <= 1); [|lra].
    apply (Rmult_le_reg_r (mu * lh)); [nra|].
    unfold Rdiv. rewrite Rmult_assoc, Rinv_l by nra. lra. }
  assert (He : exp (-1 * g * z2 / lh) <= exp (-1 * g * z1 / lh)).
  { assert (Hle : -1 * g * z2 / lh <= -1 * g * z1 / lh).
    { apply Rmult_le_compat_r; [apply Rlt_le, Rinv_0_lt_compat; assumption | nra]. }
    destruct Hle as [Hlt | Heq]; [apply Rlt_le, exp_increasing, Hlt | rewrite Heq; lra]. }
  pose proof (exp_pos (-1 * g * z2 / lh)) as He2.
  set (e1 := exp (-1 * g * z1 / lh)) in *.
  set (e2 := exp (-1 * g * z2 / lh)) in *.
  set (c := k * altura_terreno self / lh * (1 - distancia_barlovento_sotavento self / mu / lh)).
  assert (Hc0 : 0 <= c) by (apply Rmult_le_pos; assumption).
  assert (H2 : 0 <= c * e2) by (apply Rmult_le_pos; lra).
  assert (H12 : c * e2 <= c * e1) by (apply Rmult_le_compat_l; assumption).
  fold c. nra.
Qed.

Lemma kzt_decrece_con_altura_testigo :
  let self := {| topo_categoria_exp := C; considerar_topografia := true;
                 tipo_terreno := LOMA_BIDIMENSIONAL; altura_terreno := 10;
                 distancia_cresta := 20; distancia_barlovento_sotavento := 15;
                 direccion := BARLOVENTO; alturas := Array [0; 5] |} in
  exists a b, topo_factor self = Ok (Array [a; b]) /\ 1 <= b /\ b <= a.
Proof.
  intros self.
  assert (Hc : topografia_considerada self = Ok true).
  { unfold topografia_considerada, self.
    cbn [considerar_topografia altura_terreno distancia_cresta topo_categoria_exp
         en_A_B en_C_D].
    evaluar_reales. reflexivity. }
  assert (Hlh : Rmax 20 (2 * 10) = 20) by (apply Rmax_left; lra).
  assert (Hf : exists a b, topo_factor self = Ok (Array [a; b])).
  { do 2 eexists. unfold topo_factor. rewrite Hc. cbn [ligar negb].
    unfold topo_parametros, self.
    cbn [distancia_cresta altura_terreno tipo_terreno topo_categoria_exp direccion
         distancia_barlovento_sotavento alturas tabla_factor_k tabla_gamma tabla_mu].
    rewrite Hlh. evaluar_reales.
    cbn [elemento_a_elemento k1 k2 k3 map]. reflexivity. }
  destruct Hf as (a & b & Hf). exists a, b. split; [exact Hf|].
  apply (kzt_decrece_con_altura self 0 5 a b eq_refl); [lra | exact Hc | | exact Hf].
  unfold self.
  cbn [distancia_cresta altura_terreno tipo_terreno direccion
       distancia_barlovento_sotavento tabla_mu].
  rewrite Hlh. lra.
Defined.

End MasPropiedadesFactores.

(** ** More on the pressure assembly *)

Section MasPropiedadesPresiones.
Import Enums PyReal Presiones.
Local Open Scope R_scope.

Lemma reduccion_gcpi_rango v a f : reduccion_gcpi v a = Ok f -> 0.5 < f <= 1.
Proof.
  unfold reduccion_gcpi. intros H.
  apply ligar_ok in H as (x1 & _ & H).
  apply ligar_ok in H as (x2 & _ & H).
  destruct (py_pow (1 + x2) 0.5) as [raiz|[]] eqn:Hp; try discriminate.
  apply ligar_ok in H as (x3 & Hx3 & H). injection H as <-.
  apply py_pow_no_negativa in Hp.
  apply py_div_inversa in Hx3 as (Hne & ->).
  assert (0 < 1 / raiz) by (apply Rdiv_lt_0_compat; lra).
  unfold Rmin. destruct (Rle_dec _ _); lra.
Qed.

Lemma factor_reduccion_gcpi_rango self f :
  factor_reduccion_gcpi self = Ok f -> 0.5 < f <= 1.
Proof.
  intros Hf.
  destruct (factor_reduccion_gcpi_casos self) as [H1 | (v & a & _ & _ & _ & _ & _ & Heq)].
  - rewrite H1 in Hf. injection Hf as <-. lra.
  - rewrite Heq in Hf. now apply reduccion_gcpi_rango in Hf.
Qed.

(** X6: an internal-pressure coefficient, when it is computed, lies in
    [0, 0.55], and above 0.275 for a partially enclosed building; so with a
    non-negative velocity pressure at the mean roof height the pressure for
    positive internal pressure never exceeds the one for negative internal
    pressure, and the two differ by [2 * qh * GCpi]. *)
Theorem gcpi_rango :
  forall self g,
    gcpi self = Ok g ->
    0 <= g <= 0.55 /\
    (cerramiento self = PARCIALMENTE_CERRADO -> 0.275 < g) /\
    (cerramiento self = ABIERTO -> g = 0) /\
    forall qz G Cp,
      let p := _presiones qz Cp G (presion_velocidad_media self) g false in
      neg p - pos p = 2 * presion_velocidad_media self * g /\
      (0 <= presion_velocidad_media self -> pos p <= neg p).
Proof.
  intros self g Hg.
  destruct (gcpi_factor _ _ Hg) as (f & Hf & ->).
  apply factor_reduccion_gcpi_rango in Hf.
  assert (Hr : 0 <= cerramiento_gcpi (cerramiento self) * f <= 0.55).
  { destruct (cerramiento self); cbn [cerramiento_gcpi]; nra. }
  split; [exact Hr|].
  split; [intros ->; cbn [cerramiento_gcpi]; nra|].
  split; [intros ->; cbn [cerramiento_gcpi]; lra|].
  intros qz G Cp p. unfold p, _presiones. cbn [pos neg].
  split; [lra|]. intros Hq. nra.
Qed.

Lemma gcpi_rango_testigo :
  let self := {| cerramiento := PARCIALMENTE_CERRADO; reducir_gcpi := true;
                 aberturas_totales := Some 10; volumen_interno := Some 69540;
                 presion_velocidad_media := 1000 |} in
  exists g, gcpi self = Ok g /\ 0 <= g <= 0.55.
Proof.
  intros self.
  assert (H : exists g, gcpi self = Ok g).
  { unfold gcpi, factor_reduccion_gcpi, self.
    cbn [reducir_gcpi cerramiento volumen_interno aberturas_totales verdadero].
    evaluar_reales. rewrite reduccion_gcpi_valor by lra. cbn [ligar].
    eexists. reflexivity. }
  destruct H as (g & H). exists g. split; [exact H|].
  exact (proj1 (gcpi_rango self g H)).
Defined.

End MasPropiedadesPresiones.

(** ** More on the component coefficient *)

Section MasPropiedadesCpEdificio.
Import PyReal CpEdificio.
Local Open Scope R_scope.

Lemma fraccion_log10 A1 A2 A :
  0 < A1 -> A1 < A -> A < A2 -> 0 < log10 (A / A1) / log10 (A2 / A1) < 1.
Proof.
  intros H1 Ha Hb.
  pose proof (log10_positivo _ (cociente_mayor_que_uno A1 A H1 Ha)) as Hn.
  pose proof (log10_positivo _ (cociente_mayor_que_uno A1 A2 H1 ltac:(lra))) as Hd.
  split; [now apply Rdiv_lt_0_compat|].
  apply (Rmult_lt_reg_r (log10 (A2 / A1))); [assumption|].
  unfold Rdiv at 1. rewrite Rmult_assoc, Rinv_l by lra.
  unfold log10. pose proof ln_10_positivo as H10.
  assert (ln (A / A1) < ln (A2 / A1)); [|apply Rmult_lt_compat_r with (r := / ln 10) in H;
    [unfold Rdiv; lra | now apply Rinv_0_lt_compat]].
  apply ln_increasing; [apply Rdiv_lt_0_compat; lra|].
  apply Rmult_lt_compat_r; [now apply Rinv_0_lt_compat | assumption].
Qed.

Lemma calcular_cp_componente_medio Cp1 Cp2 A1 A2 A :
  0 < A1 -> A1 < A -> A < A2 ->
  calcular_cp_componente (Cp1, Cp2) (A1, A2) A =
    Ok (Cp1 + (Cp2 - Cp1) / log10 (A2 / A1) * log10 (A / A1)).
Proof.
  intros H1 Ha Hb. unfold calcular_cp_componente.
  replace (Rleb A A1) with false by (symmetry; apply Rleb_false; lra).
  replace (Rleb A2 A) with false by (symmetry; apply Rleb_false; lra).
  pose proof (cociente_mayor_que_uno A1 A2 H1 ltac:(lra)) as Hq.
  pose proof (cociente_mayor_que_uno A1 A H1 Ha) as Hq'.
  pose proof (log10_positivo _ Hq) as Hl.
  rewrite py_div_ok by lra. cbn [ligar].
  rewrite math_log10_ok by lra. cbn [ligar].
  rewrite py_div_ok by lra. cbn [ligar].
  rewrite py_div_ok by lra. cbn [ligar].
  rewrite math_log10_ok by lra. reflexivity.
Qed.

Lemma calcular_cp_componente_bajo Cp1 Cp2 A1 A2 A :
  A <= A1 -> calcular_cp_componente (Cp1, Cp2) (A1, A2) A = Ok Cp1.
Proof. intros H. unfold calcular_cp_componente. apply Rleb_true in H. now rewrite H. Qed.

Lemma calcular_cp_componente_alto Cp1 Cp2 A1 A2 A :
  A1 < A -> A2 <= A -> calcular_cp_componente (Cp1, Cp2) (A1, A2) A = Ok Cp2.
Proof.
  intros Ha H. unfold calcular_cp_componente.
  replace (Rleb A A1) with false by (symmetry; apply Rleb_false; lra).
  apply Rleb_true in H. now rewrite H.
Qed.

Lemma calcular_cp_componente_intervalo Cp1 Cp2 A1 A2 A lo hi :
  0 < A1 < A2 -> lo <= Cp1 <= hi -> lo <= Cp2 <= hi ->
  exists v, calcular_cp_componente (Cp1, Cp2) (A1, A2) A = Ok v /\ lo <= v <= hi.
Proof.
  intros H H1 H2.
  destruct (Rle_dec A A1) as [Ha|Ha];
    [exists Cp1; split; [now apply calcular_cp_componente_bajo | lra]|].
  destruct (Rle_dec A2 A) as [Hb|Hb];
    [exists Cp2; split; [apply calcular_cp_componente_alto; lra | lra]|].
  eexists. split; [apply calcular_cp_componente_medio; lra|].
  destruct (fraccion_log10 A1 A2 A) as [Ht0 Ht1]; try lra.
  replace ((Cp2 - Cp1) / log10 (A2 / A1) * log10 (A / A1))
    with ((Cp2 - Cp1) * (log10 (A / A1) / log10 (A2 / A1))) by (unfold Rdiv; ring).
  set (t := log10 (A / A1) / log10 (A2 / A1)) in *.
  nra.
Qed.

(** X7: with break-points [0 < A1 < A2] the interpolated coefficient is
    always defined and never leaves the interval between the two tabulated
    coefficients. *)
Theorem calcular_cp_componente_entre_extremos :
  forall Cp1 Cp2 A1 A2 A : R,
    0 < A1 < A2 ->
    exists v,
      calcular_cp_componente (Cp1, Cp2) (A1, A2) A = Ok v /\
      Rmin Cp1 Cp2 <= v <= Rmax Cp1 Cp2.
Proof.
  intros Cp1 Cp2 A1 A2 A H.
  apply calcular_cp_componente_intervalo; [assumption | |].
  - split; [apply Rmin_l | apply Rmax_l].
  - split; [apply Rmin_r | apply Rmax_r].
Qed.

Lemma calcular_cp_componente_entre_extremos_testigo :
  0 < 1 < 10 /\
  exists v, calcular_cp_componente (-1.8, -1.1) (1, 10) 4 = Ok v /\
            Rmin (-1.8) (-1.1) <= v <= Rmax (-1.8) (-1.1).
Proof.
  split; [lra|].
  apply (calcular_cp_componente_entre_extremos (-1.8) (-1.1) 1 10 4). lra.
Defined.

End MasPropiedadesCpEdificio.

(** ** Linear interpolation over a table *)

Section PropiedadesInterpolacion.
Import PyReal.
Local Open Scope R_scope.

Lemma cuerda_cotas lo hi x x0 x1 f0 f1 :
  x0 <= x -> x < x1 -> lo <= f0 <= hi -> lo <= f1 <= hi ->
  lo <= (f1 - f0) / (x1 - x0) * (x - x0) + f0 <= hi.
Proof.
  intros Hx0 Hx1 H0 H1.
  assert (Hd : 0 < x1 - x0) by lra.
  assert (Ht : 0 <= (x - x0) / (x1 - x0) <= 1).
  { split; [apply Rmult_le_pos; [lra | apply Rlt_le, Rinv_0_lt_compat, Hd]|].
    apply (Rmult_le_reg_r (x1 - x0)); [assumption|].
    unfold Rdiv. rewrite Rmult_assoc, Rinv_l by lra. lra. }
  replace ((f1 - f0) / (x1 - x0) * (x - x0))
    with ((f1 - f0) * ((x - x0) / (x1 - x0))) by (unfold Rdiv; ring).
  set (t := (x - x0) / (x1 - x0)) in *. nra.
Qed.

Lemma interp_desde_cotas lo hi x resto :
  forall x0 f0,
    x0 <= x -> lo <= f0 <= hi ->
    Forall (fun p => lo <= snd p <= hi) resto ->
    interp_desde x x0 f0 resto = f0 \/ lo <= interp_desde x x0 f0 resto <= hi.
Proof.
  induction resto as [|[x1 f1] resto IH]; intros x0 f0 Hx Hf Hr; simpl; [now left|].
  inversion Hr as [|p r Hp Hr']; subst. cbn [snd] in Hp.
  destruct (Rltb x x1) eqn:E.
  - apply Rltb_true in E. right. now apply cuerda_cotas.
  - apply Rltb_false in E. right.
    destruct (IH x1 f1 E Hp Hr') as [-> | H]; assumption.
Qed.

(** A table interpolation never leaves the range of the ordinates. *)
Lemma np_interp_cotas lo hi x tabla v :
  Forall (fun p => lo <= snd p <= hi) tabla ->
  np_interp x tabla = Ok v -> lo <= v <= hi.
Proof.
  destruct tabla as [|[x0 f0] resto]; simpl; [discriminate|].
  intros Ht H. inversion Ht as [|p r Hp Hr]; subst. cbn [snd] in Hp.
  destruct (Rleb x x0) eqn:E; injection H as <-; [assumption|].
  apply Rleb_false in E.
  destruct (interp_desde_cotas lo hi x resto x0 f0 ltac:(lra) Hp Hr) as [-> | H]; assumption.
Qed.

Lemma np_interp_definida x p tabla : exists v, np_interp x (p :: tabla) = Ok v.
Proof. destruct p as [x0 f0]. simpl. destruct (Rleb x x0); eexists; reflexivity. Qed.

End PropiedadesInterpolacion.

(** Splits the comparisons of a hypothesis that an interpolation returns a
    value, and closes each interval by linear arithmetic. *)
Ltac interpolar_por_tramos H :=
  repeat match type of H with
  | context [PyReal.Rleb ?x ?y] =>
      let E := fresh "E" in
      destruct (PyReal.Rleb x y) eqn:E;
      [apply Rleb_true in E | apply Rleb_false in E]
  | context [PyReal.Rltb ?x ?y] =>
      let E := fresh "E" in
      destruct (PyReal.Rltb x y) eqn:E;
      [apply Rltb_true in E | apply Rltb_false in E]
  end;
  injection H as <-; repeat split; try lra.

(** ** Wall coefficients *)

Section PropiedadesCpParedes.
Import Enums MasEnums PyReal CpEdificio CpParedes.
Local Open Scope R_scope.

(** X8: from a tuple of segments [seleccionar_cp_area] returns the first
    one whose last area is not below the component's area, the last segment
    when there is none such, and [None] only when there is no segment. *)
Theorem seleccionar_cp_area_primer_tramo :
  forall cps areas A,
    match seleccionar_cp_area (Tramos cps areas) A with
    | None => combine cps areas = []
    | Some (cp, area) =>
        exists antes despues,
          combine cps areas = antes ++ (cp, area) :: despues /\
          Forall (fun s => snd (snd s) < A) antes /\
          (A <= snd area \/ despues = [])
    end.
Proof.
  intros cps areas A. cbn [seleccionar_cp_area].
  induction (combine cps areas) as [|[cp area] resto IH]; [reflexivity|].
  cbn [seleccionar_tramo].
  destruct (Rltb (snd area) A) eqn:E.
  - apply Rltb_true in E. destruct resto as [|s resto'].
    + exists [], []. repeat split; auto.
    + destruct (seleccionar_tramo (s :: resto') A) as [[cp' area']|].
      * destruct IH as (antes & despues & Heq & Hantes & Hfin).
        exists ((cp, area) :: antes), despues. rewrite Heq.
        repeat split; auto.
      * discriminate.
  - apply Rltb_false in E. exists [], resto. repeat split; auto.
Qed.

(** X9: the distance "a" is at least 1 and at least 4% of the least
    horizontal dimension, and exceeds neither the larger of 1 and 10% of
    that dimension, when it is not negative, nor the larger of 1, 4% of it
    and 40% of the mean roof height. *)
Theorem distancia_a_cotas :
  forall ancho longitud altura_media : R,
    let menor := Rmin ancho longitud in
    let a := distancia_a ancho longitud altura_media in
    1 <= a /\
    0.04 * menor <= a /\
    (0 <= menor -> a <= Rmax (0.1 * menor) 1) /\
    a <= Rmax (0.4 * altura_media) (Rmax (0.04 * menor) 1).
Proof.
  intros b l h menor a. unfold a, distancia_a. fold menor. clearbody menor. clear a.
  pose proof (Rmin_l (0.1 * menor) (0.4 * h)) as Hp1.
  pose proof (Rmin_r (0.1 * menor) (0.4 * h)) as Hp2.
  pose proof (Rmax_l (0.04 * menor) 1) as Hq1.
  pose proof (Rmax_r (0.04 * menor) 1) as Hq2.
  pose proof (Rmax_l (0.1 * menor) 1) as Hr1.
  pose proof (Rmax_r (0.1 * menor) 1) as Hr2.
  pose proof (Rmax_l (0.4 * h) (Rmax (0.04 * menor) 1)) as Hs1.
  pose proof (Rmax_r (0.4 * h) (Rmax (0.04 * menor) 1)) as Hs2.
  assert (Hq : Rmax (0.04 * menor) 1 = 0.04 * menor \/ Rmax (0.04 * menor) 1 = 1).
  { apply Rmax_case_strong; auto. }
  set (p := Rmin (0.1 * menor) (0.4 * h)) in *.
  set (q := Rmax (0.04 * menor) 1) in *.
  pose proof (Rmax_l p q) as Ha1. pose proof (Rmax_r p q) as Ha2.
  assert (Ha : Rmax p q = p \/ Rmax p q = q) by (apply Rmax_case_strong; auto).
  repeat split; try lra; intros; destruct Ha as [-> | ->]; destruct Hq as [Hq | Hq]; lra.
Qed.

Lemma distancia_a_cotas_testigo :
  0 <= Rmin 30 60 /\ distancia_a 30 60 11 <= Rmax (0.1 * Rmin 30 60) 1.
Proof.
  assert (H : 0 <= Rmin 30 60) by (rewrite Rmin_left; lra).
  split; [exact H|].
  exact (proj1 (proj2 (proj2 (distancia_a_cotas 30 60 11))) H).
Defined.

Lemma _cp_pared_sotavento_valor dp dn v :
  _cp_pared_sotavento dp dn = Ok v ->
  dn <> 0 /\ -0.5 <= v <= -0.2 /\ (dp / dn <= 1 -> v = -0.5) /\ (4 <= dp / dn -> v = -0.2).
Proof.
  unfold _cp_pared_sotavento. intros H.
  apply ligar_ok in H as (q & Hq & H). apply py_div_inversa in Hq as (Hne & ->).
  split; [assumption|].
  unfold np_interp in H. cbn [combine interp_desde] in H.
  interpolar_por_tramos H.
Qed.

(** X10: for a building of non-zero width and length the wall
    coefficients are defined in both directions: 0.8 windward and -0.7 on
    the side walls, and a leeward coefficient within [-0.5, -0.2] that is
    -0.5 while the dimension along the wind does not exceed the one across
    it and -0.2 from four times that dimension on. *)
Theorem paredes_sprfv_valores_cotas :
  forall ancho longitud : R,
    ancho <> 0 -> longitud <> 0 ->
    exists paralelo normal,
      paredes_sprfv_valores ancho longitud = Ok (paralelo, normal) /\
      cp_barlovento paralelo = 0.8 /\ cp_barlovento normal = 0.8 /\
      cp_lateral paralelo = -0.7 /\ cp_lateral normal = -0.7 /\
      -0.5 <= cp_sotavento paralelo <= -0.2 /\
      -0.5 <= cp_sotavento normal <= -0.2 /\
      (longitud / ancho <= 1 -> cp_sotavento paralelo = -0.5) /\
      (4 <= longitud / ancho -> cp_sotavento paralelo = -0.2) /\
      (ancho / longitud <= 1 -> cp_sotavento normal = -0.5) /\
      (4 <= ancho / longitud -> cp_sotavento normal = -0.2).
Proof.
  intros b l Hb Hl. unfold paredes_sprfv_valores.
  assert (Hp : exists v, _cp_pared_sotavento l b = Ok v).
  { unfold _cp_pared_sotavento. rewrite py_div_ok by assumption. apply np_interp_definida. }
  assert (Hn : exists v, _cp_pared_sotavento b l = Ok v).
  { unfold _cp_pared_sotavento. rewrite py_div_ok by assumption. apply np_interp_definida. }
  destruct Hp as (p & Hp). destruct Hn as (n & Hn).
  rewrite Hp, Hn. cbn [ligar].
  apply _cp_pared_sotavento_valor in Hp as (_ & Hp1 & Hp2 & Hp3).
  apply _cp_pared_sotavento_valor in Hn as (_ & Hn1 & Hn2 & Hn3).
  eexists _, _. split; [reflexivity|]. cbn [cp_barlovento cp_lateral cp_sotavento].
  repeat split; try lra; assumption.
Qed.

Lemma paredes_sprfv_valores_cotas_testigo :
  30 <> 0 /\ 60 <> 0 /\
  exists paralelo normal,
    paredes_sprfv_valores 30 60 = Ok (paralelo, normal) /\
    -0.5 <= cp_sotavento paralelo <= -0.2 /\ -0.5 <= cp_sotavento normal <= -0.2.
Proof.
  assert (H30 : 30 <> 0) by lra. assert (H60 : 60 <> 0) by lra.
  split; [exact H30|]. split; [exact H60|].
  destruct (paredes_sprfv_valores_cotas 30 60 H30 H60)
    as (p & n & H & _ & _ & _ & _ & Hp & Hn & _).
  exists p, n. repeat split; try exact H; lra.
Defined.

(** The leeward wall has no coefficient when the dimension across the wind
    is zero. *)
Lemma _cp_pared_sotavento_cero dp : _cp_pared_sotavento dp 0 = Falla ZeroDivisionError.
Proof. unfold _cp_pared_sotavento. now rewrite py_div_cero. Qed.

End PropiedadesCpParedes.

Section PropiedadesParedesComponentes.
Import Enums MasEnums PyReal CpEdificio CpParedes.
Local Open Scope R_scope.

Lemma recorrer_total {K X Y : Type} (f : X -> resultado Y) (d : list (K * X)) :
  (forall k x, In (k, x) d -> exists y, f x = Ok y) ->
  exists r, Presiones.recorrer f d = Ok r.
Proof.
  induction d as [|[k x] d IH]; intros H; simpl; [now exists []|].
  destruct (H k x (or_introl eq_refl)) as (y & Hy). rewrite Hy. cbn [ligar].
  destruct IH as (r & Hr); [intros k' x' Hin; apply (H k' x'); now right|].
  rewrite Hr. cbn [ligar]. eexists. reflexivity.
Qed.

Lemma recorrer_claves {K X Y : Type} (f : X -> resultado Y) (d : list (K * X)) r :
  Presiones.recorrer f d = Ok r -> map fst r = map fst d.
Proof.
  revert r. induction d as [|[k x] d IH]; simpl; intros r H.
  - now injection H as <-.
  - apply ligar_ok in H as (y & _ & H). apply ligar_ok in H as (r' & Hr' & H).
    injection H as <-. simpl. f_equal. now apply IH.
Qed.

Lemma zona_pared_valor self A z cp :
  In (z, cp) (valores_zonas_cp (referencia self)) ->
  exists v,
    ligar (calcular_cp_componente cp (area_paredes self) A)
          (fun v => Ok (v * factor_reduccion self)) = Ok v /\
    match z with
    | TODAS_PARED => 0.6 <= v <= 1
    | _ => -1.8 <= v <= -0.7
    end.
Proof.
  unfold factor_reduccion, area_paredes.
  destruct (referencia self); cbn [valores_zonas_cp In];
    intros [H|[H|[H|[]]]]; injection H as <- <-.
  - destruct (calcular_cp_componente_intervalo (-1.1) (-0.8) 1 50 A (-1.1) (-0.8))
      as (v & Hv & Hr); try lra.
    rewrite Hv. cbn [ligar]. eexists. split; [reflexivity|].
    destruct (Rleb (angulo_cubierta self) 10); lra.
  - destruct (calcular_cp_componente_intervalo (-1.4) (-0.8) 1 50 A (-1.4) (-0.8))
      as (v & Hv & Hr); try lra.
    rewrite Hv. cbn [ligar]. eexists. split; [reflexivity|].
    destruct (Rleb (angulo_cubierta self) 10); lra.
  - destruct (calcular_cp_componente_intervalo 1 0.7 1 50 A 0.7 1)
      as (v & Hv & Hr); try lra.
    rewrite Hv. cbn [ligar]. eexists. split; [reflexivity|].
    destruct (Rleb (angulo_cubierta self) 10); lra.
  - destruct (calcular_cp_componente_intervalo (-0.9) (-0.7) 2 50 A (-0.9) (-0.7))
      as (v & Hv & Hr); try lra.
    rewrite Hv. cbn [ligar]. eexists. split; [reflexivity|]. lra.
  - destruct (calcular_cp_componente_intervalo (-1.8) (-1) 2 50 A (-1.8) (-1))
      as (v & Hv & Hr); try lra.
    rewrite Hv. cbn [ligar]. eexists. split; [reflexivity|]. lra.
  - destruct (calcular_cp_componente_intervalo 0.9 0.6 2 50 A 0.6 0.9)
      as (v & Hv & Hr); try lra.
    rewrite Hv. cbn [ligar]. eexists. split; [reflexivity|]. lra.
Qed.

(** X11: the wall coefficients for components and cladding are defined
    for every dictionary of components, whatever the areas; the result has
    the components' names in their order; and every coefficient of zones 4
    and 5 lies in [-1.8, -0.7], every coefficient of the all-zones case in
    [0.6, 1]. *)
Theorem paredes_componentes_valores_signos :
  forall (nombre : Type) (self : ParedesComponentes) (componentes : list (nombre * R)),
    exists r,
      valores self (Some componentes) = Ok (Some r) /\
      map fst r = map fst componentes /\
      forall n zonas z v,
        In (n, zonas) r -> In (z, v) zonas ->
        match z with
        | TODAS_PARED => 0.6 <= v <= 1
        | _ => -1.8 <= v <= -0.7
        end.
Proof.
  intros nombre self componentes. unfold valores.
  set (f := fun area_componente : R =>
              Presiones.recorrer
                (fun cp => ligar (calcular_cp_componente cp (area_paredes self) area_componente)
                                 (fun v => Ok (v * factor_reduccion self)))
                (valores_zonas_cp (referencia self))).
  destruct (recorrer_total f componentes) as (r & Hr).
  { intros n A _. unfold f. apply recorrer_total.
    intros z cp Hz. destruct (zona_pared_valor self A z cp Hz) as (v & Hv & _).
    now exists v. }
  exists r. rewrite Hr. cbn [ligar]. split; [reflexivity|].
  split; [now apply recorrer_claves in Hr|].
  intros n zonas z v Hn Hz.
  destruct (recorrer_entrada _ _ _ _ _ Hr Hn) as (A & _ & HA). unfold f in HA.
  destruct (recorrer_entrada _ _ _ _ _ HA Hz) as (cp & Hcp & Hv).
  destruct (zona_pared_valor self A z cp Hcp) as (v' & Hv' & Hrango).
  rewrite Hv in Hv'. injection Hv' as <-. exact Hrango.
Qed.

End PropiedadesParedesComponentes.

(** ** Roof coefficients *)

(** Close the side conditions on the rows of a table: every ordinate within
    the bounds, no row empty. *)
Ltac en_rango :=
  repeat first [apply Forall_nil | apply Forall_cons]; cbn [snd]; try (split; lra).

Ltac no_vacias :=
  repeat first [apply Forall_nil | apply Forall_cons]; discriminate.

Section PropiedadesCpCubierta.
Import Enums MasEnums PyReal PresionesBase CpCubierta.
Local Open Scope R_scope.

Lemma Forall_combine_snd {X : Type} (P : R -> Prop) (xs : list X) (fs : list R) :
  Forall P fs -> Forall (fun p => P (snd p)) (combine xs fs).
Proof.
  revert xs. induction fs as [|f fs IH]; intros [|x xs] H; simpl; try constructor.
  - inversion H; assumption.
  - inversion H; subst. now apply IH.
Qed.

Lemma interpolar_filas_cotas lo hi x xp filas vs :
  Forall (Forall (fun f => lo <= f <= hi)) filas ->
  interpolar_filas x xp filas = Ok vs ->
  Forall (fun v => lo <= v <= hi) vs /\ length vs = length filas.
Proof.
  unfold interpolar_filas. revert vs.
  induction filas as [|fila filas IH]; simpl; intros vs Hf H.
  - injection H as <-. split; [constructor | reflexivity].
  - inversion Hf as [|f fs Hfila Hfilas]; subst.
    apply ligar_ok in H as (v & Hv & H). apply ligar_ok in H as (vs' & Hvs' & H).
    injection H as <-. destruct (IH vs' Hfilas Hvs') as (Hc & Hl).
    split; [constructor; [|assumption] | simpl; now rewrite Hl].
    apply (np_interp_cotas lo hi x _ v (Forall_combine_snd _ xp fila Hfila) Hv).
Qed.

Lemma interpolar_filas_definida x x0 xp filas :
  Forall (fun fila => fila <> []) filas ->
  exists vs, interpolar_filas x (x0 :: xp) filas = Ok vs.
Proof.
  unfold interpolar_filas. induction filas as [|fila filas IH]; cbn [mapear]; intros H.
  - now exists [].
  - inversion H as [|f fs Hfila Hfilas]; subst.
    destruct fila as [|f0 fila]; [contradiction|].
    change (combine (x0 :: xp) (f0 :: fila)) with ((x0, f0) :: combine xp fila).
    destruct (np_interp_definida x (x0, f0) (combine xp fila)) as (v & Hv).
    rewrite Hv. cbn [ligar]. destruct (IH Hfilas) as (vs & Hvs). rewrite Hvs. cbn [ligar].
    eexists. reflexivity.
Qed.

Lemma reduccion_cotas area : exists r, np_interp area tabla_reduccion = Ok r /\ 0.8 <= r <= 1.
Proof.
  destruct (np_interp_definida area (10, 1.0) [(25, 0.9); (100, 0.8)]) as (r & Hr).
  exists r. split; [exact Hr|].
  apply (np_interp_cotas 0.8 1 area [(10, 1.0); (25, 0.9); (100, 0.8)] r); [|exact Hr].
  en_rango.
Qed.

Lemma cp_cubierta_angulo_menor_diez_definida self dp dn n :
  (1 <= n <= 4)%Z -> dp <> 0 ->
  exists cps,
    _cp_cubierta_angulo_menor_diez self dp dn n = Ok cps /\
    length cps = Z.to_nat n /\
    Forall (fun cp => -1.3 <= cp <= -0.3) cps.
Proof.
  intros Hn Hdp. unfold _cp_cubierta_angulo_menor_diez.
  replace ((1 <=? n)%Z && (n <=? 4)%Z) with true
    by (symmetry; apply andb_true_iff; split; lia).
  cbn [negb].
  destruct (reduccion_cotas (_area_cp_cubierta (altura_media self) dp dn)) as (r & Hr & Hr01).
  rewrite Hr. cbn [ligar]. rewrite py_div_ok by assumption. cbn [ligar].
  set (filas := [[-0.9; -1.3 * r]; [-0.9; -0.7]; [-0.5; -0.7]; [-0.3; -0.7]]).
  destruct (interpolar_filas_definida (altura_media self / dp) 0.5 [1.0] filas)
    as (vs & Hvs); [no_vacias|].
  rewrite Hvs. cbn [ligar].
  destruct (interpolar_filas_cotas (-1.3) (-0.3) (altura_media self / dp) [0.5; 1.0] filas vs)
    as (Hc & Hl);
    [en_rango | exact Hvs |].
  eexists. split; [reflexivity|]. split.
  + rewrite length_firstn, Hl. cbn [filas length]. lia.
  + rewrite <- (firstn_skipn (Z.to_nat n) vs) in Hc. now apply Forall_app in Hc.
Qed.

(** X12: for wind along the ridge, or across a roof of less than 10
    degrees, a number of zones outside 1..4 raises [ValueError]; with a
    number of zones in 1..4 and a non-zero dimension along the wind there
    are as many coefficients as zones, all of them within [-1.3, -0.3];
    with a zero dimension along the wind the division raises. *)
Theorem cp_cubierta_angulo_menor_diez_zonas :
  forall (self : CubiertaSprfv) (dp dn : R) (n : Z),
    (~ (1 <= n <= 4)%Z ->
     _cp_cubierta_angulo_menor_diez self dp dn n = Falla ValueError) /\
    ((1 <= n <= 4)%Z -> dp <> 0 ->
     exists cps,
       _cp_cubierta_angulo_menor_diez self dp dn n = Ok cps /\
       length cps = Z.to_nat n /\
       Forall (fun cp => -1.3 <= cp <= -0.3) cps) /\
    ((1 <= n <= 4)%Z -> dp = 0 ->
     _cp_cubierta_angulo_menor_diez self dp dn n = Falla ZeroDivisionError).
Proof.
  intros self dp dn n. unfold _cp_cubierta_angulo_menor_diez.
  split; [|split].
  - intros Hn. destruct ((1 <=? n)%Z && (n <=? 4)%Z) eqn:E; [|reflexivity].
    apply andb_true_iff in E as [E1 E2]. lia.
  - fold (_cp_cubierta_angulo_menor_diez self dp dn n).
    apply cp_cubierta_angulo_menor_diez_definida.
  - intros Hn ->.
    replace ((1 <=? n)%Z && (n <=? 4)%Z) with true
      by (symmetry; apply andb_true_iff; split; lia).
    cbn [negb].
    destruct (reduccion_cotas (_area_cp_cubierta (altura_media self) 0 dn)) as (r & Hr & _).
    rewrite Hr. cbn [ligar]. now rewrite py_div_cero.
Qed.

Lemma cp_cubierta_angulo_menor_diez_zonas_testigo :
  let self := {| ancho := 30; longitud := 60; altura_media := 6; angulo := 5;
                 tipo_cubierta := DOS_AGUAS |} in
  (1 <= 3 <= 4)%Z /\ 60 <> 0 /\
  exists cps, _cp_cubierta_angulo_menor_diez self 60 30 3 = Ok cps /\
              length cps = 3%nat /\ Forall (fun cp => -1.3 <= cp <= -0.3) cps.
Proof.
  intros self.
  assert (Hn : (1 <= 3 <= 4)%Z) by lia. assert (Hd : 60 <> 0) by lra.
  split; [exact Hn|]. split; [exact Hd|].
  exact (proj1 (proj2 (cp_cubierta_angulo_menor_diez_zonas self 60 30 3)) Hn Hd).
Defined.

Lemma cp_cubierta_sotavento_definida self :
  10 <= angulo self -> ancho self <> 0 ->
  exists cp,
    _cp_cubierta_sotavento self = Ok cp /\
    -0.7 <= cp <= -0.3 /\
    (20 <= angulo self -> cp = -0.6).
Proof.
  unfold _cp_cubierta_sotavento.
  intros Ha Hb. apply Rltb_false in Ha as Ha'. rewrite Ha'.
  rewrite py_div_ok by assumption. cbn [ligar].
  set (q := altura_media self / ancho self).
  unfold interpolar_filas. cbn [mapear combine].
  destruct (np_interp_definida q (0.25, -0.3) [(0.5, -0.5); (1, -0.7)]) as (v1 & H1).
  destruct (np_interp_definida q (0.25, -0.5) [(0.5, -0.5); (1, -0.6)]) as (v2 & H2).
  destruct (np_interp_definida q (0.25, -0.6) [(0.5, -0.6); (1, -0.6)]) as (v3 & H3).
  rewrite H1, H2, H3. cbn [ligar combine].
  apply (np_interp_cotas (-0.7) (-0.3)) in H1; [|en_rango].
  apply (np_interp_cotas (-0.7) (-0.3)) in H2 as H2'; [|en_rango].
  apply (np_interp_cotas (-0.6) (-0.6)) in H3; [|en_rango].
  destruct (np_interp_definida (angulo self) (10, v1) [(15, v2); (20, v3)]) as (cp & Hcp).
  exists cp. split; [exact Hcp|]. split.
  - apply (np_interp_cotas (-0.7) (-0.3)) in Hcp; [exact Hcp|].
    en_rango.
  - intros H20. unfold np_interp in Hcp. cbn [interp_desde] in Hcp.
    replace (Rleb (angulo self) 10) with false in Hcp by (symmetry; apply Rleb_false; lra).
    replace (Rltb (angulo self) 15) with false in Hcp by (symmetry; apply Rltb_false; lra).
    replace (Rltb (angulo self) 20) with false in Hcp by (symmetry; apply Rltb_false; lra).
    injection Hcp as <-. lra.
Qed.

(** X13: the leeward roof coefficient needs an angle of at least 10
    degrees ([ValueError] below); then, for a non-zero width, it is defined,
    lies within [-0.7, -0.3], and is exactly -0.6 from 20 degrees on. *)
Theorem cp_cubierta_sotavento_cotas :
  forall self : CubiertaSprfv,
    (angulo self < 10 -> _cp_cubierta_sotavento self = Falla ValueError) /\
    (10 <= angulo self -> ancho self <> 0 ->
     exists cp,
       _cp_cubierta_sotavento self = Ok cp /\
       -0.7 <= cp <= -0.3 /\
       (20 <= angulo self -> cp = -0.6)).
Proof.
  intros self. unfold _cp_cubierta_sotavento. split.
  - intros H. apply Rltb_true in H. now rewrite H.
  - fold (_cp_cubierta_sotavento self). apply cp_cubierta_sotavento_definida.
Qed.

Lemma cp_cubierta_sotavento_cotas_testigo :
  let self := {| ancho := 30; longitud := 60; altura_media := 11; angulo := 33;
                 tipo_cubierta := DOS_AGUAS |} in
  10 <= angulo self /\ 20 <= angulo self /\ ancho self <> 0 /\
  exists cp, _cp_cubierta_sotavento self = Ok cp /\ cp = -0.6.
Proof.
  intros self.
  assert (H10 : 10 <= angulo self) by (cbn [angulo self]; lra).
  assert (H20 : 20 <= angulo self) by (cbn [angulo self]; lra).
  assert (Hb : ancho self <> 0) by (cbn [ancho self]; lra).
  split; [exact H10|]. split; [exact H20|]. split; [exact Hb|].
  destruct (proj2 (cp_cubierta_sotavento_cotas self) H10 Hb) as (cp & Hcp & _ & H).
  exists cp. split; [exact Hcp | exact (H H20)].
Defined.

Lemma cp_cubierta_barlovento_definida self :
  10 <= angulo self -> ancho self <> 0 ->
  exists negativa positiva,
    _cp_cubierta_barlovento self = Ok (negativa, positiva) /\
    -1.3 <= negativa <= 0 /\ 0 <= positiva <= 0.8.
Proof.
  unfold _cp_cubierta_barlovento.
  intros Ha Hb. apply Rltb_false in Ha as Ha'. rewrite Ha'.
  destruct (reduccion_cotas (_area_cp_cubierta (altura_media self) (longitud self) (ancho self)))
    as (r & Hr & Hr01).
  rewrite Hr. cbn [ligar]. rewrite py_div_ok by assumption. cbn [ligar].
  set (q := altura_media self / ancho self).
  match goal with |- context [interpolar_filas q ?xp ?filas] =>
    destruct (interpolar_filas_definida q 0.25 [0.5; 1] filas) as (ns & Hns);
      [no_vacias|];
    destruct (interpolar_filas_cotas (-1.3) 0 q xp filas ns) as (Hnc & Hnl);
      [en_rango | exact Hns |]
  end.
  rewrite Hns. cbn [ligar].
  match goal with |- context [interpolar_filas q ?xp ?filas] =>
    destruct (interpolar_filas_definida q 0.25 [0.5; 1] filas) as (ps & Hps);
      [no_vacias|];
    destruct (interpolar_filas_cotas 0 0.8 q xp filas ps) as (Hpc & Hpl);
      [en_rango | exact Hps |]
  end.
  rewrite Hps. cbn [ligar].
  destruct ns as [|n0 ns]; [discriminate|]. destruct ps as [|p0 ps]; [discriminate|].
  unfold angulos_barlovento.
  set (xs := [15; 20; 25; 30; 35; 45; 60; 80]).
  change (combine (10 :: xs) (n0 :: ns)) with ((10, n0) :: combine xs ns).
  change (combine (10 :: xs) (p0 :: ps)) with ((10, p0) :: combine xs ps).
  destruct (np_interp_definida (angulo self) (10, n0) (combine xs ns)) as (cn & Hcn).
  destruct (np_interp_definida (angulo self) (10, p0) (combine xs ps)) as (cpos & Hcp).
  rewrite Hcn, Hcp. cbn [ligar]. exists cn, cpos. split; [reflexivity|]. split.
  - apply (np_interp_cotas (-1.3) 0 _ _ _
             (Forall_combine_snd _ (10 :: xs) (n0 :: ns) Hnc) Hcn).
  - apply (np_interp_cotas 0 0.8 _ _ _
             (Forall_combine_snd _ (10 :: xs) (p0 :: ps) Hpc) Hcp).
Qed.

(** X14: the windward roof coefficients need an angle of at least 10
    degrees ([ValueError] below); then, for a non-zero width, both are
    defined, the one for negative pressure within [-1.3, 0] and the one for
    positive pressure within [0, 0.8]. *)
Theorem cp_cubierta_barlovento_cotas :
  forall self : CubiertaSprfv,
    (angulo self < 10 -> _cp_cubierta_barlovento self = Falla ValueError) /\
    (10 <= angulo self -> ancho self <> 0 ->
     exists negativa positiva,
       _cp_cubierta_barlovento self = Ok (negativa, positiva) /\
       -1.3 <= negativa <= 0 /\ 0 <= positiva <= 0.8).
Proof.
  intros self. unfold _cp_cubierta_barlovento. split.
  - intros H. apply Rltb_true in H. now rewrite H.
  - fold (_cp_cubierta_barlovento self). apply cp_cubierta_barlovento_definida.
Qed.

Lemma cp_cubierta_barlovento_cotas_testigo :
  let self := {| ancho := 30; longitud := 60; altura_media := 11; angulo := 33;
                 tipo_cubierta := DOS_AGUAS |} in
  10 <= angulo self /\ ancho self <> 0 /\
  exists negativa positiva,
    _cp_cubierta_barlovento self = Ok (negativa, positiva) /\
    -1.3 <= negativa <= 0 /\ 0 <= positiva <= 0.8.
Proof.
  intros self.
  assert (H10 : 10 <= angulo self) by (cbn [angulo self]; lra).
  assert (Hb : ancho self <> 0) by (cbn [ancho self]; lra).
  split; [exact H10|]. split; [exact Hb|].
  exact (proj2 (cp_cubierta_barlovento_cotas self) H10 Hb).
Defined.

End PropiedadesCpCubierta.

(** Splits on every comparison of the goal. *)
Ltac comparar_todo :=
  repeat match goal with
  | |- context [PyReal.Rleb ?x ?y] =>
      let E := fresh "E" in
      destruct (PyReal.Rleb x y) eqn:E;
      [apply Rleb_true in E | apply Rleb_false in E]; cbn [andb orb negb]
  | |- context [PyReal.Rltb ?x ?y] =>
      let E := fresh "E" in
      destruct (PyReal.Rltb x y) eqn:E;
      [apply Rltb_true in E | apply Rltb_false in E]; cbn [andb orb negb]
  end.

Section PropiedadesReferenciaCubierta.
Import Enums MasEnums PyReal CpCubierta.
Local Open Scope R_scope.

(** X15: the figure of the roof coefficients for components and cladding
    is refused, with [ErrorLineamientos] and no other exception, exactly
    above an angle limit: 45 degrees for duo-pitch and flat roofs, for
    eaves, and for mono-pitch roofs with a mean height above 20, and 30
    degrees for the other mono-pitch roofs; an eave only ever gets one of
    the three figures 5B; and ["Figura 8"] is only given at an angle of at
    most 10 degrees to a roof, not an eave, of mean height above 20. *)
Theorem cc_referencia_limites :
  forall self : CubiertaComponentes,
    (cc_referencia self = Falla ErrorLineamientos <->
     ((cc_tipo_cubierta self <> UN_AGUA \/ es_alero self = true) /\ 45 < cc_angulo self) \/
     (cc_tipo_cubierta self = UN_AGUA /\ es_alero self = false /\
      ((20 < cc_altura_media self /\ 45 < cc_angulo self) \/
       (cc_altura_media self <= 20 /\ 30 < cc_angulo self)))) /\
    (forall e, cc_referencia self = Falla e -> e = ErrorLineamientos) /\
    (es_alero self = true ->
     forall r, cc_referencia self = Ok r ->
               r = Figura_5B \/ r = Figura_5B_cont_1 \/ r = Figura_5B_cont_2) /\
    (cc_referencia self = Ok Figura_8 ->
     cc_angulo self <= 10 /\ 20 < cc_altura_media self /\ es_alero self = false).
Proof.
  intros self.
  unfold cc_referencia, _referencia_dos_aguas, _referencia_un_agua.
  split; [|split; [|split]].
  - destruct (cc_tipo_cubierta self) eqn:Ht; destruct (es_alero self) eqn:Hal;
      cbn [es_un_agua negb orb andb]; comparar_todo;
      (split;
       [intros H; try discriminate;
        first [left; split; [first [left; discriminate | right; reflexivity] | lra]
              | right; split; [reflexivity|]; split; [reflexivity|];
                first [left; split; lra | right; split; lra]]
       |intros [[[Hn | Hn] Hlim] | (Htipo & Hale & [[H1 H2] | [H1 H2]])];
        try reflexivity; try discriminate; try lra; try congruence]).
  - intros e.
    destruct (cc_tipo_cubierta self); destruct (es_alero self);
      cbn [es_un_agua negb orb andb]; comparar_todo;
      intros H; try discriminate; now injection H as <-.
  - intros -> r.
    destruct (cc_tipo_cubierta self); cbn [es_un_agua negb orb andb]; comparar_todo;
      intros H; try discriminate; injection H as <-; auto.
  - destruct (cc_tipo_cubierta self); destruct (es_alero self);
      cbn [es_un_agua negb orb andb]; comparar_todo;
      intros H; try discriminate; repeat split; auto; lra.
Qed.

End PropiedadesReferenciaCubierta.

Section TestigosReferenciaCubierta.
Import Enums MasEnums PyReal CpCubierta.
Local Open Scope R_scope.

Lemma cc_referencia_limites_testigo :
  cc_referencia
    {| cc_ancho := 10; cc_longitud := 20; cc_altura_media := 6; cc_angulo := 35;
       cc_tipo_cubierta := UN_AGUA; parapeto := 0; es_alero := false |}
  = Falla ErrorLineamientos.
Proof.
  apply (proj2 (proj1 (cc_referencia_limites _))).
  right. cbn [cc_tipo_cubierta es_alero cc_altura_media cc_angulo].
  split; [reflexivity|]. split; [reflexivity|]. right. split; lra.
Defined.

End TestigosReferenciaCubierta.

Section PropiedadesCubiertaComponentes.
Import Enums MasEnums PyReal CpEdificio CpParedes CpCubierta CpCubiertaValores.
Local Open Scope R_scope.

Lemma seleccionar_tramo_en (cp_areas : list ((R * R) * (R * R))) A :
  cp_areas <> [] ->
  exists s, seleccionar_tramo cp_areas A = Some s /\ In s cp_areas.
Proof.
  induction cp_areas as [|[cp area] resto IH]; intros Hne; [congruence|].
  cbn [seleccionar_tramo].
  destruct (Rltb (snd area) A).
  - destruct resto as [|s resto].
    + exists (cp, area). split; [reflexivity | now left].
    + destruct IH as (t & Ht & Hin); [discriminate|].
      exists t. split; [exact Ht | now right].
  - exists (cp, area). split; [reflexivity | now left].
Qed.

(** An entry whose areas are positive and increasing gives a coefficient
    for every component area, between the bounds of its coefficients. *)
Lemma cp_de_zona_cotas e area A lo hi :
  match e with
  | SoloCp (c1, c2) =>
      0 < fst area < snd area /\ lo <= c1 <= hi /\ lo <= c2 <= hi
  | CpArea cps areas =>
      combine cps areas <> [] /\
      Forall (fun s => 0 < fst (snd s) < snd (snd s) /\
                       lo <= fst (fst s) <= hi /\ lo <= snd (fst s) <= hi)
             (combine cps areas)
  end ->
  exists v, cp_de_zona e area A = Ok v /\ lo <= v <= hi.
Proof.
  unfold cp_de_zona. destruct e as [[c1 c2] | cps areas]; cbn [tabla_de seleccionar_cp_area].
  - destruct area as [a1 a2]. cbn [fst snd]. intros (Ha & H1 & H2).
    now apply calcular_cp_componente_intervalo.
  - intros [Hne Hall].
    destruct (seleccionar_tramo_en (combine cps areas) A Hne) as (s & -> & Hin).
    rewrite Forall_forall in Hall. specialize (Hall s Hin).
    destruct s as [[c1 c2] [a1 a2]]. cbn [fst snd] in Hall.
    destruct Hall as (Ha & H1 & H2).
    now apply calcular_cp_componente_intervalo.
Qed.

Lemma cp_de_zona_cotas_con (P : Prop) e area A lo hi :
  P ->
  match e with
  | SoloCp (c1, c2) =>
      0 < fst area < snd area /\ lo <= c1 <= hi /\ lo <= c2 <= hi
  | CpArea cps areas =>
      combine cps areas <> [] /\
      Forall (fun s => 0 < fst (snd s) < snd (snd s) /\
                       lo <= fst (fst s) <= hi /\ lo <= snd (fst s) <= hi)
             (combine cps areas)
  end ->
  exists v, cp_de_zona e area A = Ok v /\ P /\ lo <= v <= hi.
Proof.
  intros HP H. destruct (cp_de_zona_cotas e area A lo hi H) as (v & Hv & Hr).
  exists v. auto.
Qed.

(** Settles the side conditions of [cp_de_zona_cotas] on a given entry. *)
Ltac entrada_valida :=
  cbn [area_cubierta fst snd combine];
  first [ lra
        | split; [discriminate|];
          repeat (apply Forall_cons; [cbn [fst snd]; lra|]); apply Forall_nil ].

Lemma caso_cp_zona self ref A z e :
  In (z, e) (caso_cp self ref) ->
  exists v,
    cp_de_zona e (area_cubierta ref) A = Ok v /\
    match z with
    | TODAS => es_alero self = false /\ 0.2 <= v <= 0.9
    | _ => -3.7 <= v <= -0.8
    end.
Proof.
  unfold caso_cp.
  destruct ref; destruct (es_alero self); destruct (Rltb 1 (parapeto self));
    cbn [casos casos_alero actualizar fold_left asignar quitar buscar zona_eqb
         es_5B_u_8 andb fst snd In];
    intros H;
    repeat (destruct H as [H | H]; [injection H as <- <-|]); try contradiction;
    first [ apply cp_de_zona_cotas; entrada_valida
          | apply cp_de_zona_cotas_con; [reflexivity | entrada_valida] ].
Qed.

Lemma caso_cp_parapeto self ref x2 x3 :
  es_5B_u_8 ref = true -> 1 < parapeto self ->
  In (DOS, x2) (caso_cp self ref) -> In (TRES, x3) (caso_cp self ref) -> x2 = x3.
Proof.
  intros Href Hp. unfold caso_cp. rewrite Href.
  destruct (Rltb 1 (parapeto self)) eqn:E; [|apply Rltb_false in E; lra].
  destruct ref; try discriminate; destruct (es_alero self);
    cbn [casos casos_alero actualizar fold_left asignar quitar buscar zona_eqb
         andb fst snd In];
    intros H2 H3;
    repeat (destruct H2 as [H2 | H2]; [try discriminate H2|]); try contradiction;
    repeat (destruct H3 as [H3 | H3]; [try discriminate H3|]); try contradiction;
    congruence.
Qed.

(** X16: the roof coefficients for components and cladding.  Without
    components the result is [None], even where no figure applies; with
    components, the exception of the figure is the only one, and under a
    figure every component gets a coefficient in every zone of the figure:
    within [-3.7, -0.8] in the numbered zones and within [0.2, 0.9] in the
    all-zones case, which an eave does not have; behind a parapet above 1
    under the figures 5B and 8, zone 3 gets the coefficient of zone 2. *)
Theorem cc_valores_zonas :
  forall (nombre : Type) (self : CubiertaComponentes) (d : list (nombre * R)),
    cc_valores self (@None (list (nombre * R))) = Ok None /\
    (forall e, cc_referencia self = Falla e -> cc_valores self (Some d) = Falla e) /\
    (forall ref, cc_referencia self = Ok ref ->
       exists r,
         cc_valores self (Some d) = Ok (Some r) /\
         map fst r = map fst d /\
         forall n zonas, In (n, zonas) r ->
           map fst zonas = map fst (caso_cp self ref) /\
           (forall z v, In (z, v) zonas ->
              match z with
              | TODAS => es_alero self = false /\ 0.2 <= v <= 0.9
              | _ => -3.7 <= v <= -0.8
              end) /\
           (es_5B_u_8 ref = true -> 1 < parapeto self ->
            forall v2 v3, In (DOS, v2) zonas -> In (TRES, v3) zonas -> v2 = v3)).
Proof.
  intros nombre self d. split; [reflexivity|]. split.
  - intros e He. unfold cc_valores. now rewrite He.
  - intros ref Href. unfold cc_valores. rewrite Href. cbn [ligar].
    destruct (recorrer_total
                (fun area_componente =>
                   Presiones.recorrer
                     (fun e => cp_de_zona e (area_cubierta ref) area_componente)
                     (caso_cp self ref)) d) as (r & Hr).
    { intros n A _. apply recorrer_total. intros z e Hin.
      destruct (caso_cp_zona self ref A z e Hin) as (v & Hv & _). now exists v. }
    exists r. rewrite Hr. cbn [ligar]. split; [reflexivity|].
    split; [exact (recorrer_claves _ _ _ Hr)|].
    intros n zonas Hin.
    destruct (recorrer_entrada _ _ _ _ _ Hr Hin) as (A & _ & Hz).
    split; [exact (recorrer_claves _ _ _ Hz)|]. split.
    + intros z v Hv.
      destruct (recorrer_entrada _ _ _ _ _ Hz Hv) as (e & He & Hcp).
      destruct (caso_cp_zona self ref A z e He) as (v' & Hv' & Hcota).
      rewrite Hcp in Hv'. now injection Hv' as <-.
    + intros H58 Hp v2 v3 H2 H3.
      destruct (recorrer_entrada _ _ _ _ _ Hz H2) as (e2 & He2 & Hcp2).
      destruct (recorrer_entrada _ _ _ _ _ Hz H3) as (e3 & He3 & Hcp3).
      assert (e2 = e3) by exact (caso_cp_parapeto self ref e2 e3 H58 Hp He2 He3).
      subst e3. rewrite Hcp2 in Hcp3. now injection Hcp3.
Qed.

Lemma cc_valores_zonas_testigo :
  let self := {| cc_ancho := 10; cc_longitud := 20; cc_altura_media := 6; cc_angulo := 5;
                 cc_tipo_cubierta := DOS_AGUAS; parapeto := 1.5; es_alero := false |} in
  cc_referencia self = Ok Figura_5B /\
  exists r,
    cc_valores self (Some [(tt, 4)]) = Ok (Some r) /\
    map fst r = [tt] /\
    forall n zonas, In (n, zonas) r ->
      map fst zonas = map fst (caso_cp self Figura_5B) /\
      (forall z v, In (z, v) zonas ->
         match z with
         | TODAS => es_alero self = false /\ 0.2 <= v <= 0.9
         | _ => -3.7 <= v <= -0.8
         end) /\
      (es_5B_u_8 Figura_5B = true -> 1 < parapeto self ->
       forall v2 v3, In (DOS, v2) zonas -> In (TRES, v3) zonas -> v2 = v3).
Proof.
  intros self.
  assert (Href : cc_referencia self = Ok Figura_5B).
  { unfold cc_referencia, _referencia_dos_aguas, self.
    cbn [cc_tipo_cubierta es_alero cc_angulo cc_altura_media es_un_agua negb orb andb].
    destruct (Rleb 5 10) eqn:E1; [|apply Rleb_false in E1; lra].
    destruct (Rltb 20 6) eqn:E2; [apply Rltb_true in E2; lra|].
    reflexivity. }
  split; [exact Href|].
  exact (proj2 (proj2 (cc_valores_zonas unit self [(tt, 4)])) Figura_5B Href).
Defined.

End PropiedadesCubiertaComponentes.

Section PropiedadesZonas.
Import Enums PyReal CpCubierta ZonasCubierta.
Local Open Scope R_scope.

Lemma contiene_In x l : contiene x l = true <-> In x l.
Proof.
  unfold contiene. rewrite existsb_exists. split.
  - intros (y & Hy & E). apply Reqb_true in E. now subst.
  - intros H. exists x. split; [assumption | now apply Reqb_true].
Qed.

Lemma In_agregar_unicas x l acc :
  In x (fold_left (fun acc x => if contiene x acc then acc else acc ++ [x]) l acc)
  <-> In x acc \/ In x l.
Proof.
  revert acc. induction l as [|a l IH]; intros acc; cbn [fold_left].
  - cbn [In]. tauto.
  - rewrite IH. destruct (contiene a acc) eqn:E.
    + apply contiene_In in E. cbn [In]. split; [tauto|].
      intros [H | [<- | H]]; auto.
    + rewrite in_app_iff. cbn [In]. tauto.
Qed.

Lemma NoDup_agregar_unicas l acc :
  NoDup acc ->
  NoDup (fold_left (fun acc x => if contiene x acc then acc else acc ++ [x]) l acc).
Proof.
  revert acc. induction l as [|a l IH]; intros acc H; cbn [fold_left]; [assumption|].
  apply IH. destruct (contiene a acc) eqn:E; [assumption|].
  apply NoDup_app; [assumption | repeat constructor; intros [] |].
  intros x Hx [<- | []]. apply contiene_In in Hx. congruence.
Qed.

Lemma In_unicas x l : In x (unicas l) <-> In x l.
Proof. unfold unicas. rewrite In_agregar_unicas. cbn [In]. tauto. Qed.

Lemma NoDup_unicas l : NoDup (unicas l).
Proof. apply NoDup_agregar_unicas. constructor. Qed.

Lemma insertar_permutacion x l : Permutation (insertar x l) (x :: l).
Proof.
  induction l as [|a l IH]; cbn [insertar]; [reflexivity|].
  destruct (Rleb x a); [reflexivity|].
  rewrite IH. apply perm_swap.
Qed.

Lemma ordenar_permutacion l : Permutation (ordenar l) l.
Proof.
  induction l as [|a l IH]; cbn [ordenar fold_right]; [reflexivity|].
  fold (ordenar l). rewrite insertar_permutacion. now constructor.
Qed.

Lemma insertar_creciente x l :
  StronglySorted Rle l -> StronglySorted Rle (insertar x l).
Proof.
  induction 1 as [|a l Hl IH Ha]; cbn [insertar].
  - repeat constructor.
  - destruct (Rleb x a) eqn:E.
    + apply Rleb_true in E. constructor; [now constructor|].
      constructor; [assumption|].
      eapply Forall_impl; [|exact Ha]. intros y Hy. cbv beta in Hy. lra.
    + apply Rleb_false in E. constructor; [assumption|].
      rewrite Forall_forall in *. intros y Hy.
      apply (Permutation_in _ (insertar_permutacion x l)) in Hy.
      destruct Hy as [<- | Hy]; [lra | now apply Ha].
Qed.

Lemma ordenar_creciente l : StronglySorted Rle (ordenar l).
Proof.
  induction l as [|a l IH]; cbn [ordenar fold_right]; [constructor|].
  now apply insertar_creciente.
Qed.

Lemma creciente_estricta l :
  StronglySorted Rle l -> NoDup l -> StronglySorted Rlt l.
Proof.
  induction 1 as [|a l Hl IH Ha]; intros Hnd; [constructor|].
  inversion Hnd as [|a' l' Hna Hndl]; subst.
  constructor; [now apply IH|].
  rewrite Forall_forall in *. intros y Hy.
  specialize (Ha y Hy). destruct Ha as [Ha | ->]; [assumption | contradiction].
Qed.

Lemma filtrar_estricta (f : R -> bool) l :
  StronglySorted Rlt l -> StronglySorted Rlt (filter f l).
Proof.
  induction 1 as [|a l Hl IH Ha]; cbn [filter]; [constructor|].
  destruct (f a); [|assumption].
  constructor; [assumption|].
  rewrite Forall_forall in *. intros y Hy. apply filter_In in Hy. now apply Ha.
Qed.

(** A strictly increasing list and its consecutive pairs. *)
Lemma pares_consecutivos l a b :
  StronglySorted Rlt l -> In (a, b) (combine l (tl l)) -> a < b /\ In a l /\ In b (tl l).
Proof.
  induction 1 as [|x l Hl IH Hx]; cbn [tl combine]; [intros []|].
  destruct l as [|y l']; [intros []|].
  cbn [combine]. intros [H | H].
  - injection H as <- <-. inversion Hx; subst. split; [assumption|].
    cbn [tl]. split; now left.
  - destruct (IH H) as (Hab & Ha & Hb). split; [assumption|].
    cbn [tl] in *. split; right; assumption.
Qed.

Lemma pares_consecutivos_fin (l : list R) (b : R) :
  In b (tl l) -> exists a, In (a, b) (combine l (tl l)).
Proof.
  induction l as [|x l IH]; cbn [tl]; [intros []|].
  destruct l as [|y l']; [intros []|].
  cbn [combine]. intros [<- | H].
  - exists x. now left.
  - destruct (IH H) as (a & Ha). exists a. now right.
Qed.

Lemma pares_consecutivos_longitud {X : Type} (l : list X) :
  length (combine l (tl l)) = (length l - 1)%nat.
Proof. rewrite length_combine. destruct l; cbn [tl length]; lia. Qed.

Lemma pares_consecutivos_ultimo l :
  combine l (tl l) <> [] ->
  exists z a, combine l (tl l) = z ++ [(a, last l 0)].
Proof.
  induction l as [|x l IH]; [cbn [tl combine]; congruence|]. cbn [tl].
  destruct l as [|y l']; [cbn [combine]; congruence|].
  intros _. change (combine (x :: y :: l') (y :: l')) with ((x, y) :: combine (y :: l') (tl (y :: l'))).
  destruct l' as [|w l''].
  - exists [], x. reflexivity.
  - destruct IH as (z & a & Hz); [cbn [tl combine]; discriminate|].
    exists ((x, y) :: z), a. rewrite Hz.
    change (last (x :: y :: w :: l'') 0) with (last (y :: w :: l'') 0). reflexivity.
Qed.

Lemma estricta_primero l x :
  StronglySorted Rlt l -> In x l -> hd 0 l <= x.
Proof.
  intros Hs Hx. destruct l as [|a l]; [contradiction|]. cbn [hd].
  inversion Hs; subst. destruct Hx as [<- | Hx]; [lra|].
  rewrite Forall_forall in *. specialize (H2 x Hx). lra.
Qed.

Lemma estricta_ultimo l :
  StronglySorted Rlt l -> forall x, In x l -> x <= last l 0.
Proof.
  induction 1 as [|a l Hl IH Ha]; [intros x []|].
  intros x Hx. destruct l as [|b l'].
  - destruct Hx as [<- | []]. cbn [last]. lra.
  - change (last (a :: b :: l') 0) with (last (b :: l') 0).
    destruct Hx as [<- | Hx]; [|now apply IH].
    rewrite Forall_forall in Ha. specialize (Ha b (or_introl eq_refl)).
    specialize (IH b (or_introl eq_refl)). lra.
Qed.

(** The distances that bound the zones: each distance of the code or of
    the arguments at most once, up to the dimension along the wind, in
    increasing order. *)
Lemma distancias_filtradas_zonas self dp extras :
  exists l,
    _zonas_cubierta self dp extras = combine l (tl l) /\
    StronglySorted Rlt l /\ NoDup l /\
    (forall x, In x l <-> In x (distancias_codigo self ++ dp :: extras) /\ x <= dp).
Proof.
  unfold _zonas_cubierta.
  set (d := distancias_codigo self ++ [dp] ++ extras).
  exists (filter (fun dist => Rleb dist dp) (ordenar (unicas d))).
  split; [reflexivity|].
  assert (Hs : StronglySorted Rlt (ordenar (unicas d))).
  { apply creciente_estricta; [apply ordenar_creciente|].
    apply (Permutation_NoDup (Permutation_sym (ordenar_permutacion _))), NoDup_unicas. }
  split; [now apply filtrar_estricta|].
  split.
  { apply NoDup_filter.
    apply (Permutation_NoDup (Permutation_sym (ordenar_permutacion _))), NoDup_unicas. }
  intros x. rewrite filter_In, Rleb_true.
  assert (In x (ordenar (unicas d)) <-> In x d) as ->; [|reflexivity].
  split; intros H.
  - apply In_unicas. exact (Permutation_in _ (ordenar_permutacion _) H).
  - apply (Permutation_in _ (Permutation_sym (ordenar_permutacion _))).
    now apply In_unicas.
Qed.

Lemma ultimo_en_lista (l : list R) : l <> [] -> In (last l 0) l.
Proof.
  induction l as [|a l IH]; [congruence|]. intros _.
  destruct l as [|b l']; [now left|].
  right. apply IH. discriminate.
Qed.

Lemma primero_en_lista (l : list R) : l <> [] -> In (hd 0 l) l.
Proof. destruct l; [congruence | intros _; now left]. Qed.

Lemma distancias_filtradas_ultimo (l : list R) (d : list R) dp :
  StronglySorted Rlt l -> In dp d ->
  (forall x, In x l <-> In x d /\ x <= dp) -> l <> [] /\ last l 0 = dp.
Proof.
  intros Hs Hd Hin.
  assert (Hdp : In dp l) by (apply Hin; split; [assumption | lra]).
  assert (Hne : l <> []) by (intros ->; contradiction).
  split; [assumption|].
  apply Rle_antisym; [apply Hin, ultimo_en_lista, Hne | now apply estricta_ultimo].
Qed.

(** The number of zones, between the distances that are surely kept and
    the ones that may be. *)
Lemma zonas_cubierta_cantidad self dp extras (presentes candidatas : list R) :
  NoDup presentes ->
  (forall x, In x presentes -> In x (distancias_codigo self ++ dp :: extras) /\ x <= dp) ->
  (forall x, In x (distancias_codigo self ++ dp :: extras) -> x <= dp -> In x candidatas) ->
  (length presentes - 1 <= length (_zonas_cubierta self dp extras) <= length candidatas - 1)%nat.
Proof.
  intros Hnd Hpre Hcan.
  destruct (distancias_filtradas_zonas self dp extras) as (l & Hz & Hs & Hndl & Hin).
  rewrite Hz, pares_consecutivos_longitud.
  assert (length presentes <= length l)%nat.
  { apply (NoDup_incl_length Hnd). intros x Hx. now apply Hin, Hpre. }
  assert (length l <= length candidatas)%nat.
  { apply (NoDup_incl_length Hndl). intros x Hx. apply Hin in Hx as [Hx Hle].
    now apply Hcan. }
  lia.
Qed.

Lemma zonas_paralelo_cantidad self :
  0 < longitud self -> (1 <= length (zonas_paralelo self) <= 4)%nat.
Proof.
  intros Hl. unfold zonas_paralelo.
  destruct (zonas_cubierta_cantidad self (longitud self) []
              [0; longitud self] (distancias_codigo self ++ [longitud self]))
    as [H1 H2].
  - constructor; [intros [H | []]; lra|]. constructor; [intros [] | constructor].
  - intros x [<- | [<- | []]]; (split; [|lra]); apply in_app_iff;
      [left | right]; now left.
  - auto.
  - rewrite length_app in H2. cbn [length distancias_codigo] in *. lia.
Qed.

(** X17: the roof zones are the consecutive pairs of a strictly increasing
    list of distances that ends at the dimension along the wind: each zone
    has a positive length, a zone starts where the one before it ends, and
    the last one ends at that dimension.  With no negative distance the
    first zone starts at 0.  There are at most four zones, plus one for
    each extra distance, and at least one when the dimension is positive. *)
Theorem zonas_cubierta_contiguas :
  forall (self : CubiertaSprfv) (dp : R) (extras : list R),
    exists l,
      _zonas_cubierta self dp extras = combine l (tl l) /\
      StronglySorted Rlt l /\
      last l 0 = dp /\
      (forall a b, In (a, b) (_zonas_cubierta self dp extras) -> a < b <= dp) /\
      (0 <= dp -> 0 <= altura_media self -> (forall x, In x extras -> 0 <= x) ->
       hd 0 l = 0) /\
      (length (_zonas_cubierta self dp extras) <= 4 + length extras)%nat /\
      (0 < dp -> (1 <= length (_zonas_cubierta self dp extras))%nat).
Proof.
  intros self dp extras.
  destruct (distancias_filtradas_zonas self dp extras) as (l & Hz & Hs & Hnd & Hin).
  exists l. split; [exact Hz|]. split; [exact Hs|].
  assert (Hdp : In dp l).
  { apply Hin. split; [|lra]. apply in_app_iff. right. now left. }
  assert (Hne : l <> []) by (intros ->; contradiction).
  split.
  { apply Rle_antisym; [apply Hin, ultimo_en_lista, Hne | now apply estricta_ultimo]. }
  split.
  { intros a b Hab. rewrite Hz in Hab.
    destruct (pares_consecutivos l a b Hs Hab) as (Hlt & _ & Hb).
    split; [assumption|]. apply Hin. destruct l; [contradiction | now right]. }
  split.
  { intros H0 Hh Hex.
    assert (Hcero : In 0 l).
    { apply Hin. split; [|assumption]. apply in_app_iff. left. now left. }
    apply Rle_antisym; [now apply estricta_primero|].
    apply primero_en_lista in Hne. apply Hin in Hne as [Hne _].
    apply in_app_iff in Hne as [Hc | [<- | He]]; [| assumption | now apply Hex].
    unfold distancias_codigo in Hc. cbn [In] in Hc.
    destruct Hc as [<- | [<- | [<- | [<- | []]]]]; lra. }
  rewrite Hz, pares_consecutivos_longitud. split.
  - assert (length l <= 5 + length extras)%nat; [|lia].
    apply (NoDup_incl_length Hnd (l' := distancias_codigo self ++ dp :: extras)).
    intros x Hx. now apply Hin.
  - intros Hpos.
    assert (2 <= length l)%nat; [|lia].
    apply (NoDup_incl_length (l := [0; dp])).
    + constructor; [intros [H | []]; lra|]. constructor; [intros []|constructor].
    + intros x [<- | [<- | []]]; [|assumption].
      apply Hin. split; [|lra]. apply in_app_iff. left. now left.
Qed.

Lemma zonas_cubierta_contiguas_testigo :
  let self := {| ancho := 20; longitud := 30; altura_media := 6; angulo := 5;
                 tipo_cubierta := PLANA |} in
  exists l,
    _zonas_cubierta self 30 [] = combine l (tl l) /\
    StronglySorted Rlt l /\ last l 0 = 30 /\ hd 0 l = 0 /\
    (1 <= length (_zonas_cubierta self 30 []) <= 4)%nat.
Proof.
  intros self.
  destruct (zonas_cubierta_contiguas self 30 []) as (l & Hz & Hs & Hl & _ & Hh & Hmax & Hmin).
  exists l. split; [exact Hz|]. split; [exact Hs|]. split; [exact Hl|]. split.
  - apply Hh; [lra | cbn [altura_media self]; lra | intros x []].
  - split; [apply Hmin; lra | exact Hmax].
Defined.

Lemma cp_paralelo_definido self :
  0 < longitud self ->
  exists cp_paralelo,
    _cp_cubierta_angulo_menor_diez self (longitud self) (ancho self)
      (Z.of_nat (length (zonas_paralelo self))) = Ok cp_paralelo /\
    length cp_paralelo = length (zonas_paralelo self) /\
    Forall (fun cp => -1.3 <= cp <= -0.3) cp_paralelo.
Proof.
  intros Hl. destruct (zonas_paralelo_cantidad self Hl) as [H1 H4].
  destruct (cp_cubierta_angulo_menor_diez_definida self (longitud self) (ancho self)
              (Z.of_nat (length (zonas_paralelo self)))) as (cps & Hc & Hlen & Hr);
    [lia | lra |].
  exists cps. rewrite Nat2Z.id in Hlen. auto.
Qed.

(** X18: for a roof of at least 10 degrees, a positive length and a
    non-zero width, the SPRFV roof coefficients are always defined: along
    the ridge one coefficient for each zone, within [-1.3, -0.3]; across it
    the windward pair, within [-1.3, 0] and [0, 0.8], and the leeward
    coefficient, within [-0.7, -0.3]. *)
Theorem cubierta_sprfv_valores_sobre_diez :
  forall self : CubiertaSprfv,
    10 <= angulo self -> 0 < longitud self -> ancho self <> 0 ->
    exists cp_paralelo negativa positiva sotavento,
      valores self = Valores (cp_paralelo, PorPosicion (negativa, positiva) sotavento) /\
      length cp_paralelo = length (zonas_paralelo self) /\
      Forall (fun cp => -1.3 <= cp <= -0.3) cp_paralelo /\
      -1.3 <= negativa <= 0 /\ 0 <= positiva <= 0.8 /\ -0.7 <= sotavento <= -0.3.
Proof.
  intros self Ha Hl Hb. unfold valores.
  destruct (cp_paralelo_definido self Hl) as (cp_paralelo & -> & Hlen & Hr).
  unfold normal_como_paralelo.
  replace (Rltb (angulo self) 10) with false by (symmetry; apply Rltb_false; lra).
  destruct (cp_cubierta_barlovento_definida self Ha Hb) as (negativa & positiva & -> & Hn & Hp).
  destruct (cp_cubierta_sotavento_definida self Ha Hb) as (sotavento & -> & Hs & _).
  exists cp_paralelo, negativa, positiva, sotavento. auto 10.
Qed.

Lemma cubierta_sprfv_valores_sobre_diez_testigo :
  let self := {| ancho := 30; longitud := 60; altura_media := 11; angulo := 33;
                 tipo_cubierta := DOS_AGUAS |} in
  exists cp_paralelo negativa positiva sotavento,
    valores self = Valores (cp_paralelo, PorPosicion (negativa, positiva) sotavento) /\
    length cp_paralelo = length (zonas_paralelo self) /\
    Forall (fun cp => -1.3 <= cp <= -0.3) cp_paralelo /\
    -1.3 <= negativa <= 0 /\ 0 <= positiva <= 0.8 /\ -0.7 <= sotavento <= -0.3.
Proof.
  intros self.
  apply (cubierta_sprfv_valores_sobre_diez self); cbn [angulo longitud ancho self]; lra.
Defined.

Lemma indices_con_fin_app z1 z2 m k :
  indices_con_fin (z1 ++ z2) m k =
  indices_con_fin z1 m k ++ indices_con_fin z2 m (k + length z1).
Proof.
  revert k. induction z1 as [|[a b] z1 IH]; intros k; cbn [app indices_con_fin length].
  - now rewrite Nat.add_0_r.
  - rewrite IH. replace (S k + length z1)%nat with (k + S (length z1))%nat by lia.
    now destruct (Reqb b m).
Qed.

Lemma indices_con_fin_cota z m k :
  Forall (fun i => (k <= i < k + length z)%nat) (indices_con_fin z m k).
Proof.
  revert k. induction z as [|[a b] z IH]; intros k; cbn [indices_con_fin length];
    [constructor|].
  assert (H : Forall (fun i => (k <= i < k + S (length z))%nat)
                     (indices_con_fin z m (S k))).
  { eapply Forall_impl; [|apply IH]. intros i Hi. cbv beta in Hi. lia. }
  destruct (Reqb b m); [|assumption].
  constructor; [lia | assumption].
Qed.

Lemma indices_con_fin_no_vacia z m k a :
  In (a, m) z -> indices_con_fin z m k <> [].
Proof.
  revert k. induction z as [|[a' b] z IH]; intros k; [intros []|].
  cbn [indices_con_fin]. intros [H | H].
  - injection H as -> ->.
    replace (Reqb m m) with true by (symmetry; now apply Reqb_true). discriminate.
  - destruct (Reqb b m); [discriminate | now apply IH].
Qed.

Lemma repetir_en_definida (cps : list R) (indice : nat) (P : R -> Prop) :
  (indice < length cps)%nat -> Forall P cps ->
  exists cps',
    repetir_en cps indice = Valores cps' /\
    length cps' = S (length cps) /\ Forall P cps'.
Proof.
  intros Hi HP. unfold repetir_en.
  destruct (nth_error cps indice) as [v|] eqn:E;
    [|apply nth_error_None in E; lia].
  eexists. split; [reflexivity|]. split.
  - rewrite length_app. cbn [length]. rewrite length_firstn, length_skipn. lia.
  - rewrite <- (firstn_skipn (S indice) cps) in HP. apply Forall_app in HP as [H1 H2].
    apply Forall_app. split; [assumption|]. constructor; [|assumption].
    rewrite Forall_forall in H1. apply H1.
    apply nth_error_In with indice.
    rewrite nth_error_firstn.
    replace (indice <? S indice)%nat with true by (symmetry; apply Nat.ltb_lt; lia).
    assumption.
Qed.

(** The zones across the ridge of a roof below 10 degrees that is not
    wider than long: their number, and the zone that ends at half the
    width when that distance is not one of the code's. *)
Lemma zonas_normal_cantidad self :
  angulo self < 10 -> 0 < ancho self <= longitud self ->
  exists zn,
    zonas_normal self = Some zn /\
    ((match tipo_cubierta self with
      | DOS_AGUAS => negb (contiene (ancho self / 2) (distancias_codigo self))
      | _ => false
      end = false /\ (1 <= length zn <= 4)%nat) \/
     (match tipo_cubierta self with
      | DOS_AGUAS => negb (contiene (ancho self / 2) (distancias_codigo self))
      | _ => false
      end = true /\ (2 <= length zn <= 5)%nat /\
      exists indice resto,
        indices_con_fin zn (ancho self / 2) 0 = indice :: resto /\
        (indice < length zn - 1)%nat)).
Proof.
  intros Ha [Hb Hbl]. unfold zonas_normal, normal_como_paralelo.
  replace (Rltb (angulo self) 10) with true by (symmetry; now apply Rltb_true).
  eexists. split; [reflexivity|].
  assert (Hcero : forall extras,
            In 0 (distancias_codigo self ++ ancho self :: extras) /\ 0 <= ancho self).
  { intros extras. split; [|lra]. apply in_app_iff. left. now left. }
  assert (Hancho : forall extras,
            In (ancho self) (distancias_codigo self ++ ancho self :: extras) /\
            ancho self <= ancho self).
  { intros extras. split; [|lra]. apply in_app_iff. right. now left. }
  assert (Hdos : NoDup [0; ancho self]).
  { constructor; [intros [H | []]; lra|]. constructor; [intros [] | constructor]. }
  assert (Hsimple : forall extras,
            (forall x, In x extras -> x <= ancho self ->
                       In x (distancias_codigo self ++ [ancho self])) ->
            (1 <= length (_zonas_cubierta self (ancho self) extras) <= 4)%nat).
  { intros extras Hex.
    destruct (zonas_cubierta_cantidad self (ancho self) extras
                [0; ancho self] (distancias_codigo self ++ [ancho self]))
      as [H1 H2]; [exact Hdos | | |].
    - intros x [<- | [<- | []]]; [apply Hcero | apply Hancho].
    - intros x Hx Hle. apply in_app_iff in Hx as [Hx | [<- | Hx]].
      + apply in_app_iff. now left.
      + apply in_app_iff. right. now left.
      + now apply Hex.
    - rewrite length_app in H2. cbn [length distancias_codigo] in *. lia. }
  assert (Hlong : forall x, x = longitud self -> x <= ancho self ->
                            In x (distancias_codigo self ++ [ancho self])).
  { intros x -> Hle. apply in_app_iff. right. left. lra. }
  destruct (tipo_cubierta self).
  - left. split; [reflexivity|]. apply Hsimple.
    intros x [<- | []] Hle. now apply Hlong.
  - left. split; [reflexivity|]. apply Hsimple.
    intros x [<- | []] Hle. now apply Hlong.
  - destruct (contiene (ancho self / 2) (distancias_codigo self)) eqn:E; cbn [negb].
    + left. split; [reflexivity|]. apply Hsimple.
      intros x [<- | [<- | []]] Hle; [now apply Hlong|].
      apply in_app_iff. left. now apply contiene_In.
    + right. split; [reflexivity|].
      assert (Hno : ~ In (ancho self / 2) (distancias_codigo self)).
      { intros H. apply contiene_In in H. congruence. }
      set (extras := [longitud self; ancho self / 2]).
      assert (Hmitad : In (ancho self / 2) (distancias_codigo self ++ ancho self :: extras) /\
                       ancho self / 2 <= ancho self).
      { split; [|lra]. apply in_app_iff. right. right. right. now left. }
      destruct (zonas_cubierta_cantidad self (ancho self) extras
                  [0; ancho self / 2; ancho self]
                  (distancias_codigo self ++ [ancho self; ancho self / 2]))
        as [H1 H2].
      { constructor; [intros [H | [H | []]]; lra|].
        constructor; [intros [H | []]; lra|].
        constructor; [intros [] | constructor]. }
      { intros x [<- | [<- | [<- | []]]];
          [apply Hcero | exact Hmitad | apply Hancho]. }
      { intros x Hx Hle. apply in_app_iff in Hx as [Hx | [<- | [<- | [<- | []]]]].
        - apply in_app_iff. now left.
        - apply in_app_iff. right. now left.
        - apply in_app_iff. right. left. lra.
        - apply in_app_iff. right. right. now left. }
      rewrite length_app in H2. cbn [length distancias_codigo] in H1, H2.
      split; [lia|].
      destruct (distancias_filtradas_zonas self (ancho self) extras)
        as (l & Hz & Hs & Hnd & Hin).
      destruct (distancias_filtradas_ultimo l _ (ancho self) Hs (proj1 (Hancho extras)) Hin)
        as [Hne Hlast].
      assert (Hm : In (ancho self / 2) (tl l)).
      { assert (H0 : hd 0 l <= 0) by (apply estricta_primero; [assumption | apply Hin, Hcero]).
        assert (Hml : In (ancho self / 2) l) by (apply Hin, Hmitad).
        destruct l as [|x l']; [contradiction|]. cbn [hd tl] in *.
        destruct Hml as [-> | Hml]; [lra | assumption]. }
      destruct (pares_consecutivos_fin l _ Hm) as (a & Hzona).
      rewrite <- Hz in Hzona.
      destruct (pares_consecutivos_ultimo l) as (z' & a' & Hult);
        [rewrite <- Hz; intros Hnil; rewrite Hnil in Hzona; contradiction|].
      rewrite <- Hz, Hlast in Hult.
      pose proof (indices_con_fin_no_vacia _ _ 0%nat _ Hzona) as Hind.
      pose proof (indices_con_fin_cota z' (ancho self / 2) 0) as Hcota.
      rewrite Hult in Hind |- *. rewrite indices_con_fin_app in Hind |- *.
      cbn [indices_con_fin] in Hind |- *.
      replace (Reqb (ancho self) (ancho self / 2)) with false in Hind |- *
        by (symmetry; apply Reqb_false; lra).
      rewrite app_nil_r in Hind |- *.
      destruct (indices_con_fin z' (ancho self / 2) 0) as [|indice resto]; [congruence|].
      exists indice, resto. split; [reflexivity|].
      inversion Hcota; subst. rewrite length_app. cbn [length]. lia.
Qed.

(** X19: for a roof below 10 degrees that is not wider than long, of a
    positive width, the SPRFV roof coefficients are always defined, and in
    both wind directions there is one coefficient for each zone, within
    [-1.3, -0.3]. *)
Theorem cubierta_sprfv_valores_bajo_diez :
  forall self : CubiertaSprfv,
    angulo self < 10 -> 0 < ancho self <= longitud self ->
    exists cp_paralelo cp_normal zonas,
      zonas_normal self = Some zonas /\
      valores self = Valores (cp_paralelo, ComoParalelo cp_normal) /\
      length cp_paralelo = length (zonas_paralelo self) /\
      length cp_normal = length zonas /\
      Forall (fun cp => -1.3 <= cp <= -0.3) cp_paralelo /\
      Forall (fun cp => -1.3 <= cp <= -0.3) cp_normal.
Proof.
  intros self Ha Hb. unfold valores.
  destruct (cp_paralelo_definido self) as (cp_paralelo & -> & Hlen & Hr); [lra|].
  destruct (zonas_normal_cantidad self Ha Hb) as (zn & -> & Hcasos).
  unfold normal_como_paralelo.
  replace (Rltb (angulo self) 10) with true by (symmetry; now apply Rltb_true).
  cbv zeta.
  destruct Hcasos as [[-> Hn] | (-> & Hn & indice & resto & -> & Hi)].
  - destruct (cp_cubierta_angulo_menor_diez_definida self (ancho self) (longitud self)
                (Z.of_nat (length zn))) as (cps & -> & Hl & Hc); [lia | lra |].
    exists cp_paralelo, cps, zn. rewrite Nat2Z.id in Hl. auto 10.
  - destruct (cp_cubierta_angulo_menor_diez_definida self (ancho self) (longitud self)
                (Z.of_nat (length zn) - 1)) as (cps & -> & Hl & Hc); [lia | lra |].
    assert (Hl' : length cps = (length zn - 1)%nat) by lia.
    destruct (repetir_en_definida cps indice (fun cp => -1.3 <= cp <= -0.3))
      as (cps' & -> & Hl2 & Hc2); [lia | assumption |].
    exists cp_paralelo, cps', zn.
    split; [reflexivity|]. split; [reflexivity|]. split; [assumption|].
    split; [lia|]. split; assumption.
Qed.

Lemma cubierta_sprfv_valores_bajo_diez_testigo :
  let self := {| ancho := 20; longitud := 30; altura_media := 6; angulo := 5;
                 tipo_cubierta := DOS_AGUAS |} in
  exists cp_paralelo cp_normal zonas,
    zonas_normal self = Some zonas /\
    valores self = Valores (cp_paralelo, ComoParalelo cp_normal) /\
    length cp_paralelo = length (zonas_paralelo self) /\
    length cp_normal = length zonas /\
    Forall (fun cp => -1.3 <= cp <= -0.3) cp_paralelo /\
    Forall (fun cp => -1.3 <= cp <= -0.3) cp_normal.
Proof.
  intros self.
  apply (cubierta_sprfv_valores_bajo_diez self); cbn [angulo longitud ancho self]; lra.
Defined.

Lemma cp_cubierta_angulo_menor_diez_fuera self dp dn n :
  ~ (1 <= n <= 4)%Z -> _cp_cubierta_angulo_menor_diez self dp dn n = Falla ValueError.
Proof.
  intros Hn. unfold _cp_cubierta_angulo_menor_diez.
  destruct ((1 <=? n)%Z && (n <=? 4)%Z) eqn:E; [|reflexivity].
  apply andb_true_iff in E as [E1 E2]. lia.
Qed.

(** X20: in a roof below 10 degrees that is wider than long, and longer
    than twice its mean height, the length is passed as an extra distance
    of the zones across the ridge, where a zone ends at it; there are more
    than four zones across the ridge, the coefficients along the ridge are
    computed, the number of zones handed on for the coefficients across it
    is above four and refused with [ValueError], and [valores] raises
    [ValueError] (for a duo-pitch roof, unless the length is exactly half
    the width). *)
Theorem cubierta_sprfv_valores_mas_ancha_que_larga :
  forall self : CubiertaSprfv,
    angulo self < 10 -> 0 < altura_media self ->
    2 * altura_media self < longitud self < ancho self ->
    (tipo_cubierta self = DOS_AGUAS -> longitud self <> ancho self / 2) ->
    exists zonas cp_paralelo,
      zonas_normal self = Some zonas /\
      zonas = _zonas_cubierta self (ancho self)
                (longitud self ::
                 match tipo_cubierta self with
                 | DOS_AGUAS => [ancho self / 2]
                 | _ => []
                 end) /\
      (exists inicio, In (inicio, longitud self) zonas) /\
      (4 < length zonas)%nat /\
      _cp_cubierta_angulo_menor_diez self (longitud self) (ancho self)
        (Z.of_nat (length (zonas_paralelo self))) = Ok cp_paralelo /\
      (let restar_zona_y_sumar_cp :=
         match tipo_cubierta self with
         | DOS_AGUAS => negb (contiene (ancho self / 2) (distancias_codigo self))
         | _ => false
         end in
       let numero_zonas :=
         if restar_zona_y_sumar_cp then (Z.of_nat (length zonas) - 1)%Z
         else Z.of_nat (length zonas) in
       (4 < numero_zonas)%Z /\
       _cp_cubierta_angulo_menor_diez self (ancho self) (longitud self) numero_zonas
         = Falla ValueError) /\
      valores self = Excepcion ValueError.
Proof.
  intros self Ha Hh [Hl Hb] Hmitad.
  destruct (cp_paralelo_definido self) as (cp_paralelo & Hpar & _); [lra|].
  set (h := altura_media self) in *.
  assert (Hseis : NoDup [0; h / 2; h; 2 * h; longitud self; ancho self]).
  { repeat (constructor; [cbn [In]; intros H; decompose [or] H; lra |]). constructor. }
  assert (Hen : forall extras x,
            In x [0; h / 2; h; 2 * h; longitud self; ancho self] ->
            In x (distancias_codigo self ++ ancho self :: longitud self :: extras) /\
            x <= ancho self).
  { intros extras x Hx. split; [|cbn [In] in Hx; decompose [or] Hx; lra].
    apply in_app_iff. unfold distancias_codigo. fold h. cbn [In] in *. tauto. }
  assert (Hcinco : forall extras,
            (5 <= length (_zonas_cubierta self (ancho self) (longitud self :: extras)))%nat).
  { intros extras.
    destruct (zonas_cubierta_cantidad self (ancho self) (longitud self :: extras)
                [0; h / 2; h; 2 * h; longitud self; ancho self]
                (distancias_codigo self ++ ancho self :: longitud self :: extras))
      as [H1 _]; [exact Hseis | apply Hen | auto |].
    cbn [length] in H1. lia. }
  assert (Hsiete : ~ In (ancho self / 2) (distancias_codigo self) ->
                   longitud self <> ancho self / 2 ->
                   (6 <= length (_zonas_cubierta self (ancho self)
                                   [longitud self; (ancho self / 2)%R]))%nat).
  { intros Hno Hne.
    unfold distancias_codigo in Hno. fold h in Hno. cbn [In] in Hno.
    destruct (zonas_cubierta_cantidad self (ancho self) [longitud self; ancho self / 2]
                [ancho self / 2; 0; h / 2; h; 2 * h; longitud self; ancho self]
                (distancias_codigo self ++ [ancho self; longitud self; ancho self / 2]))
      as [H1 _].
    - constructor; [|exact Hseis].
      cbn [In]. intros H. decompose [or] H; try lra; tauto.
    - intros x [<- | Hx]; [|now apply Hen].
      split; [|lra]. apply in_app_iff. right. right. right. now left.
    - auto.
    - cbn [length] in H1. lia. }
  assert (Hfin : forall extras,
            exists inicio,
              In (inicio, longitud self)
                 (_zonas_cubierta self (ancho self) (longitud self :: extras))).
  { intros extras.
    destruct (distancias_filtradas_zonas self (ancho self) (longitud self :: extras))
      as (l & Hz & Hs & _ & Hin).
    assert (Hlong : In (longitud self) l) by (apply Hin, Hen; cbn [In]; tauto).
    assert (Hcero : In 0 l) by (apply Hin, Hen; cbn [In]; tauto).
    assert (H0 : hd 0 l <= 0) by now apply estricta_primero.
    assert (Hm : In (longitud self) (tl l)).
    { destruct l as [|x l']; [contradiction|]. cbn [hd tl] in *.
      destruct Hlong as [-> | Hlong]; [lra | assumption]. }
    destruct (pares_consecutivos_fin l _ Hm) as (inicio & Hzona).
    exists inicio. now rewrite Hz. }
  assert (Hnormal : zonas_normal self
                    = Some (_zonas_cubierta self (ancho self)
                              (longitud self ::
                               match tipo_cubierta self with
                               | DOS_AGUAS => [ancho self / 2]
                               | _ => []
                               end))).
  { unfold zonas_normal, normal_como_paralelo.
    replace (Rltb (angulo self) 10) with true by (symmetry; now apply Rltb_true).
    destruct (tipo_cubierta self); reflexivity. }
  assert (Hnumero :
            let restar_zona_y_sumar_cp :=
              match tipo_cubierta self with
              | DOS_AGUAS => negb (contiene (ancho self / 2) (distancias_codigo self))
              | _ => false
              end in
            let zonas := _zonas_cubierta self (ancho self)
                           (longitud self ::
                            match tipo_cubierta self with
                            | DOS_AGUAS => [ancho self / 2]
                            | _ => []
                            end) in
            (4 < (if restar_zona_y_sumar_cp then Z.of_nat (length zonas) - 1
                  else Z.of_nat (length zonas)))%Z).
  { cbv zeta. destruct (tipo_cubierta self) eqn:Ht.
    - specialize (Hcinco []). lia.
    - specialize (Hcinco []). lia.
    - specialize (Hmitad eq_refl).
      destruct (contiene (ancho self / 2) (distancias_codigo self)) eqn:E; cbn [negb].
      + specialize (Hcinco [ancho self / 2]). lia.
      + assert (Hno : ~ In (ancho self / 2) (distancias_codigo self)).
        { intros H. apply contiene_In in H. congruence. }
        specialize (Hsiete Hno Hmitad). lia. }
  cbv zeta in Hnumero.
  eexists. exists cp_paralelo.
  split; [exact Hnormal|]. split; [reflexivity|].
  split; [apply Hfin|].
  split; [specialize (Hcinco (match tipo_cubierta self with
                              | DOS_AGUAS => [ancho self / 2]
                              | _ => []
                              end)); lia|].
  split; [exact Hpar|].
  split.
  - cbv zeta. split; [exact Hnumero|].
    apply cp_cubierta_angulo_menor_diez_fuera. lia.
  - unfold valores. rewrite Hpar, Hnormal. unfold normal_como_paralelo.
    replace (Rltb (angulo self) 10) with true by (symmetry; now apply Rltb_true).
    cbv zeta. rewrite cp_cubierta_angulo_menor_diez_fuera; [reflexivity | lia].
Qed.

Lemma cubierta_sprfv_valores_mas_ancha_que_larga_testigo :
  let self := {| ancho := 20; longitud := 15; altura_media := 4; angulo := 5;
                 tipo_cubierta := PLANA |} in
  exists zonas,
    zonas_normal self = Some zonas /\
    (exists inicio, In (inicio, 15) zonas) /\
    (4 < length zonas)%nat /\
    valores self = Excepcion ValueError.
Proof.
  intros self.
  destruct (cubierta_sprfv_valores_mas_ancha_que_larga self)
    as (zonas & cp_paralelo & Hn & _ & Hfin & Hl & _ & _ & Hv);
    try (cbn [angulo longitud ancho altura_media tipo_cubierta self];
         first [lra | discriminate]).
  exists zonas. split; [exact Hn|]. split; [exact Hfin|]. split; [exact Hl | exact Hv].
Defined.

End PropiedadesZonas.

(** ** Geometry of a sign *)

Section PropiedadesGeometriaCartel.
Import PyRac UtilsAlturas GeometriaCartel.
Local Open Scope Q_scope.

Lemma In_rango i a b : In i (rango a b) -> (a <= i < b)%Z.
Proof.
  unfold rango. intros H. apply in_map_iff in H as (k & <- & Hk).
  apply in_seq in Hk. lia.
Qed.

Lemma alturas_iniciales_cotas lo hi custom x :
  In x (alturas_iniciales lo hi custom) -> lo <= x /\ x <= hi.
Proof.
  destruct custom as [l|].
  - intros H. now apply alturas_iniciales_personalizadas in H.
  - unfold alturas_iniciales. intros H. apply in_map_iff in H as (i & <- & Hi).
    apply In_rango in Hi. split.
    + apply Qle_trans with (inject_Z (Qceiling lo)); [apply Qle_ceiling|].
      rewrite <- Zle_Qle. lia.
    + apply Qle_trans with (inject_Z (Qceiling hi - 1)).
      * rewrite <- Zle_Qle. lia.
      * apply Qlt_le_weak, Qceiling_lt.
Qed.

Lemma alturas_cotas self x :
  altura_inferior self <= altura_superior self ->
  In x (alturas self) -> altura_inferior self <= x /\ x <= altura_superior self.
Proof.
  intros Hle Hx. unfold alturas, array_alturas in Hx.
  apply (proj1 (In_ordenar _ _)) in Hx. apply In_agregar_faltantes in Hx.
  destruct Hx as [Hx | [<- | [<- | []]]].
  - now apply alturas_iniciales_cotas in Hx.
  - split; [apply Qle_refl | assumption].
  - split; [assumption | apply Qle_refl].
Qed.

Lemma creciente_primero l x : StronglySorted Qle l -> In x l -> hd 0 l <= x.
Proof.
  intros Hs Hx. destruct l as [|a l]; [contradiction|]. cbn [hd].
  inversion Hs as [|a' l' Hl Ha]; subst. destruct Hx as [<- | Hx]; [apply Qle_refl|].
  rewrite Forall_forall in Ha. now apply Ha.
Qed.

Lemma creciente_ultimo l :
  StronglySorted Qle l -> forall x, In x l -> x <= last l 0.
Proof.
  induction 1 as [|a l Hl IH Ha]; [intros x []|].
  intros x Hx. destruct l as [|b l'].
  - destruct Hx as [<- | []]. apply Qle_refl.
  - change (last (a :: b :: l') 0) with (last (b :: l') 0).
    destruct Hx as [<- | Hx]; [|now apply IH].
    rewrite Forall_forall in Ha.
    apply Qle_trans with b; [apply Ha; now left | apply IH; now left].
Qed.

Lemma pares_crecientes l a b :
  StronglySorted Qle l -> In (a, b) (combine l (tl l)) -> a <= b.
Proof.
  induction 1 as [|x l Hl IH Hx]; [intros []|]. cbn [tl].
  destruct l as [|y l']; [intros []|].
  cbn [combine]. intros [H | H].
  - injection H as <- <-. inversion Hx; assumption.
  - now apply IH.
Qed.

Lemma suma_telescopica w (l : list Q) :
  l <> [] ->
  fold_right Qplus 0 (map (fun par => w * (snd par - fst par)) (combine l (tl l)))
  == w * (last l 0 - hd 0 l).
Proof.
  induction l as [|x l IH]; [congruence|]. intros _. cbn [tl hd].
  destruct l as [|y l'].
  - cbn [combine map fold_right last]. ring.
  - change (combine (x :: y :: l') (y :: l'))
      with ((x, y) :: combine (y :: l') (tl (y :: l'))).
    change (last (x :: y :: l') 0) with (last (y :: l') 0).
    cbn [map fold_right fst snd]. rewrite IH by discriminate. cbn [hd]. ring.
Qed.

Lemma ultimo_en_alturas (l : list Q) : l <> [] -> In (last l 0) l.
Proof.
  induction l as [|a l IH]; [congruence|]. intros _.
  destruct l as [|b l']; [now left|].
  right. apply IH. discriminate.
Qed.

(** X21: for a sign whose lower height does not exceed the upper one,
    every height of the array lies between the two, no partial area is
    negative when the width is not, and the partial areas add up to the
    area of the sign.  With the heights the other way round there is one
    partial area, the area with its sign changed. *)
Theorem cartel_areas_parciales_suma :
  forall self : Cartel,
    (altura_inferior self <= altura_superior self ->
     Forall (fun z => altura_inferior self <= z /\ z <= altura_superior self)
            (alturas self) /\
     (0 <= ancho self -> Forall (fun a => 0 <= a) (areas_parciales self)) /\
     fold_right Qplus 0 (areas_parciales self) == area self) /\
    (altura_superior self < altura_inferior self ->
     areas_parciales self = [ancho self * (altura_inferior self - altura_superior self)]).
Proof.
  intros self. split.
  - intros Hle.
    assert (Hs : StronglySorted Qle (alturas self)) by apply ordenar_ordenada.
    assert (Hlo : InA Qeq (altura_inferior self) (alturas self)).
    { apply InA_ordenar, InA_agregar_faltantes. right. now left. }
    assert (Hhi : InA Qeq (altura_superior self) (alturas self)).
    { apply InA_ordenar, InA_agregar_faltantes. right. right. now left. }
    assert (Hne : alturas self <> []).
    { intros E. rewrite E in Hlo. inversion Hlo. }
    split; [|split].
    + apply Forall_forall. intros x Hx. now apply alturas_cotas.
    + intros Hw. unfold areas_parciales. apply Forall_forall. intros a Ha.
      apply in_map_iff in Ha as ([z1 z2] & <- & Hz). cbn [fst snd].
      apply pares_crecientes in Hz; [|assumption].
      apply Qmult_le_0_compat; [assumption|].
      unfold Qminus. rewrite <- (Qplus_opp_r z1). apply Qplus_le_l. assumption.
    + unfold areas_parciales. rewrite suma_telescopica by assumption.
      unfold area, altura_neta.
      assert (Hultimo : last (alturas self) 0 == altura_superior self).
      { apply Qle_antisym.
        - apply alturas_cotas; [assumption | now apply ultimo_en_alturas].
        - apply InA_alt in Hhi as (y & Hy & Hin). rewrite Hy.
          now apply creciente_ultimo. }
      assert (Hprimero : hd 0 (alturas self) == altura_inferior self).
      { apply Qle_antisym.
        - apply InA_alt in Hlo as (y & Hy & Hin). rewrite Hy.
          now apply creciente_primero.
        - apply alturas_cotas; [assumption|].
          destruct (alturas self); [congruence | now left]. }
      now rewrite Hultimo, Hprimero.
  - intros Hlt. unfold areas_parciales, alturas, array_alturas.
    assert (Hini : alturas_iniciales (altura_inferior self) (altura_superior self)
                     (alturas_personalizadas self) = []).
    { destruct (alturas_iniciales (altura_inferior self) (altura_superior self)
                  (alturas_personalizadas self)) as [|x l] eqn:E; [reflexivity|].
      assert (Hx : In x (x :: l)) by now left.
      rewrite <- E in Hx. apply alturas_iniciales_cotas in Hx as [H1 H2].
      exfalso. apply (Qlt_irrefl (altura_inferior self)).
      apply Qle_lt_trans with (altura_superior self); [|assumption].
      now apply Qle_trans with x. }
    rewrite Hini. unfold agregar_faltantes. cbn [fold_left contiene existsb app].
    replace (Qeqb (altura_superior self) (altura_inferior self)) with false.
    2:{ symmetry. apply not_true_iff_false. intros H. apply Qeqb_true in H.
        rewrite H in Hlt. now apply Qlt_irrefl in Hlt. }
    cbn [orb app ordenar fold_right insertar].
    replace (Qleb (altura_inferior self) (altura_superior self)) with false
      by (symmetry; now apply Qleb_false).
    reflexivity.
Qed.

Lemma cartel_areas_parciales_suma_testigo :
  let self := {| profundidad := 1; ancho := 4; altura_inferior := 2; altura_superior := 6;
                 alturas_personalizadas := None |} in
  Forall (fun a => 0 <= a) (areas_parciales self) /\
  fold_right Qplus 0 (areas_parciales self) == area self.
Proof.
  intros self.
  assert (Hle : altura_inferior self <= altura_superior self) by (cbn; discriminate).
  destruct (proj1 (cartel_areas_parciales_suma self) Hle) as (_ & Hpos & Hsuma).
  split; [apply Hpos; cbn; discriminate | exact Hsuma].
Defined.

End PropiedadesGeometriaCartel.

(** ** Roof areas and blockage *)

Section PropiedadesCubiertasAreas.
Import Enums PyReal Cubiertas CubiertasAreas.
Local Open Scope R_scope.

Lemma hipotenusa_por_pendiente h w :
  0 < w -> math_hypot h w = w * sqrt (1 + (h / w)²).
Proof.
  intros Hw. unfold math_hypot.
  replace (h * h + w * w) with (w * w * (1 + (h / w)²)) by (unfold Rsqr; field; lra).
  rewrite sqrt_mult_alt by nra. rewrite sqrt_square by lra. reflexivity.
Qed.

Lemma coseno_de_pendiente p : 0 < cos (atan p) <= 1 /\ cos (atan p) * sqrt (1 + p²) = 1.
Proof.
  assert (H1 : 1 <= 1 + p²) by (pose proof (Rle_0_sqr p); lra).
  assert (Hs : 1 <= sqrt (1 + p²)).
  { rewrite <- sqrt_1 at 1. apply sqrt_le_1_alt. exact H1. }
  rewrite cos_atan. split.
  - split.
    + apply Rdiv_lt_0_compat; lra.
    + replace (1 / sqrt (1 + p²)) with (/ sqrt (1 + p²)) by (field; lra).
      apply Rle_trans with (/ 1); [apply Rinv_le_contravar; lra | rewrite Rinv_1; lra].
  - field. lra.
Qed.

(** X22: for a roof of positive width, the area of the roof times the
    cosine of its angle is the area of its plan, so that a roof of
    non-negative length is never smaller than its plan. *)
Theorem cubierta_area_proyectada :
  forall (w l alero cumbrera : R) (tipo : TipoCubierta) (a : R),
    0 < w ->
    angulo (Cubierta_init w l alero cumbrera tipo) = Ok a ->
    area (Cubierta_init w l alero cumbrera tipo) * cos (a * (PI / 180)) = w * l /\
    (0 <= l -> w * l <= area (Cubierta_init w l alero cumbrera tipo)).
Proof.
  intros w l alero cumbrera tipo a Hw Ha.
  unfold angulo in Ha. rewrite py_div_ok in Ha by (cbn [ancho Cubierta_init]; lra).
  cbn [ligar] in Ha. injection Ha as <-.
  unfold math_degrees.
  assert (Hpi : PI <> 0) by (pose proof PI_RGT_0; lra).
  match goal with |- context [cos (?x * (180 / PI) * (PI / 180))] =>
    replace (x * (180 / PI) * (PI / 180)) with x by (field; assumption)
  end.
  assert (Hgen : forall p A, A = w * l * sqrt (1 + p²) ->
            A * cos (atan p) = w * l /\ (0 <= l -> w * l <= A)).
  { intros p A ->. destruct (coseno_de_pendiente p) as [[Hc0 Hc1] Hc].
    assert (Hs : 1 <= sqrt (1 + p²)).
    { rewrite <- sqrt_1 at 1. apply sqrt_le_1_alt. pose proof (Rle_0_sqr p). lra. }
    split.
    - replace (w * l * sqrt (1 + p²) * cos (atan p))
        with (w * l * (cos (atan p) * sqrt (1 + p²))) by ring.
      rewrite Hc. ring.
    - intros Hl. assert (0 <= w * l) by nra. nra. }
  unfold area. destruct tipo; cbn [tipo_cubierta ancho longitud altura_alero altura_cumbrera
                                   Cubierta_init].
  - replace ((alero - alero) / w) with 0 by (field; lra).
    rewrite atan_0, cos_0. split; [ring | intros _; lra].
  - apply Hgen. rewrite hipotenusa_por_pendiente by assumption. ring.
  - apply Hgen. rewrite hipotenusa_por_pendiente by lra.
    replace ((cumbrera - alero) / (w / 2)) with ((cumbrera - alero) / w * 2)
      by (field; lra).
    field.
Qed.

Lemma cubierta_area_proyectada_testigo :
  exists a,
    angulo (Cubierta_init 8 10 3 6 UN_AGUA) = Ok a /\
    area (Cubierta_init 8 10 3 6 UN_AGUA) * cos (a * (PI / 180)) = 8 * 10.
Proof.
  assert (H8 : 0 < 8) by lra.
  assert (Ha : angulo (Cubierta_init 8 10 3 6 UN_AGUA)
               = Ok (math_degrees (atan ((6 - 3) / 8)))).
  { unfold angulo. rewrite py_div_ok by (cbn [ancho Cubierta_init]; lra). reflexivity. }
  eexists. split; [exact Ha|].
  exact (proj1 (cubierta_area_proyectada 8 10 3 6 UN_AGUA _ H8 Ha)).
Defined.

(** X23: the blockage ratio of a flat roof, or with the blockage at the
    low eave, is taken against the eave height, and against the ridge
    height otherwise; a reference height of zero raises
    [ZeroDivisionError]; otherwise the ratio is at most 1, and for a
    positive reference height it is the quotient capped at 1, not negative
    when the blockage height is not. *)
Theorem relacion_bloqueo_cotas :
  forall (self : Cubierta) (altura_bloqueo : R) (posicion : PosicionBloqueoCubierta),
    let altura :=
      match tipo_cubierta self, posicion with
      | PLANA, _ | _, ALERO_BAJO => altura_alero self
      | _, _ => altura_cumbrera self
      end in
    (altura = 0 -> relacion_bloqueo self altura_bloqueo posicion = Falla ZeroDivisionError) /\
    (altura <> 0 ->
     exists r,
       relacion_bloqueo self altura_bloqueo posicion = Ok r /\ r <= 1 /\
       (0 < altura -> 0 <= altura_bloqueo -> 0 <= r) /\
       (0 < altura -> altura <= altura_bloqueo -> r = 1) /\
       (0 < altura -> altura_bloqueo <= altura -> r = altura_bloqueo / altura)).
Proof.
  intros self hb posicion altura. unfold relacion_bloqueo. fold altura. split.
  - intros ->. now rewrite py_div_cero.
  - intros Hne. rewrite py_div_ok by assumption. cbn [ligar].
    eexists. split; [reflexivity|]. split; [apply Rmin_r|].
    split; [|split]; intros Hpos Hb.
    + apply Rmin_glb; [|lra]. unfold Rdiv.
      apply Rmult_le_pos; [lra | left; apply Rinv_0_lt_compat; lra].
    + apply Rmin_right. apply Rmult_le_reg_r with altura; [assumption|].
      unfold Rdiv. rewrite Rmult_assoc, Rinv_l by assumption. lra.
    + apply Rmin_left. apply Rmult_le_reg_r with altura; [assumption|].
      unfold Rdiv. rewrite Rmult_assoc, Rinv_l by assumption. lra.
Qed.

Lemma relacion_bloqueo_cotas_testigo :
  relacion_bloqueo (Cubierta_init 8 10 3 6 UN_AGUA) 7 ALERO_ALTO = Ok 1.
Proof.
  destruct (relacion_bloqueo_cotas (Cubierta_init 8 10 3 6 UN_AGUA) 7 ALERO_ALTO)
    as [_ H].
  cbn [tipo_cubierta altura_cumbrera Cubierta_init] in H.
  destruct H as (r & Hr & _ & _ & H1 & _); [lra|].
  rewrite Hr. f_equal. apply H1; lra.
Defined.

End PropiedadesCubiertasAreas.

(** ** Areas and openings of a building *)

Section PropiedadesGeometriaEdificio.
Import PyReal GeometriaEdificio.
Local Open Scope R_scope.

Lemma abertura_procesada_cotas abertura area :
  0 <= area ->
  0 <= abertura_procesada abertura area <= area /\
  (0 <= abertura <= area -> abertura_procesada abertura area = abertura).
Proof.
  intros Ha. unfold abertura_procesada.
  destruct (Rleb 0 abertura) eqn:E; [apply Rleb_true in E | apply Rleb_false in E].
  - split; [split; [now apply Rmin_glb | apply Rmin_r]|].
    intros [_ H]. now apply Rmin_left.
  - split; [lra|]. intros [H _]. lra.
Qed.

(** X24: with no negative area, the processed openings lie between 0 and
    the area of their wall or roof, and an opening already within those
    bounds is kept; so the total opening is at most the total area, and for
    each wall the openings of the rest of the envelope are at most the area
    of the rest.  With positive areas the fourth enclosure condition is
    evaluated for each of the four walls. *)
Theorem aberturas_acotadas :
  forall _aberturas areas : AreasEdificio,
    Forall (fun area => 0 <= area) (tupla areas) ->
    Forall2 (fun abertura area => 0 <= abertura <= area)
            (tupla (aberturas _aberturas areas)) (tupla areas) /\
    Forall2 (fun abertura procesada => 0 <= abertura -> procesada <= abertura)
            (tupla _aberturas) (tupla (aberturas _aberturas areas)) /\
    (Forall2 (fun abertura area => 0 <= abertura <= area) (tupla _aberturas) (tupla areas) ->
     aberturas _aberturas areas = _aberturas) /\
    0 <= abertura_total _aberturas areas <= area_total areas /\
    Forall2 (fun a0 ag => 0 <= a0 <= ag) (a0i _aberturas areas) (agi areas) /\
    (Forall (fun area => 0 < area) (tupla areas) ->
     exists bs, cerramiento_condicion_4 _aberturas areas = Ok bs /\ length bs = 4%nat).
Proof.
  intros [b1 b2 b3 b4 b5] [a1 a2 a3 a4 a5] H.
  cbn [tupla frontal izquierda trasera derecha cubierta] in H.
  inversion H as [|? ? H1 H']; subst. inversion H' as [|? ? H2 H'']; subst.
  inversion H'' as [|? ? H3 H''']; subst. inversion H''' as [|? ? H4 H'''']; subst.
  inversion H'''' as [|? ? H5 _]; subst.
  destruct (abertura_procesada_cotas b1 a1 H1) as [P1 Q1].
  destruct (abertura_procesada_cotas b2 a2 H2) as [P2 Q2].
  destruct (abertura_procesada_cotas b3 a3 H3) as [P3 Q3].
  destruct (abertura_procesada_cotas b4 a4 H4) as [P4 Q4].
  destruct (abertura_procesada_cotas b5 a5 H5) as [P5 Q5].
  assert (M : forall b a, 0 <= b -> abertura_procesada b a <= b).
  { intros b a Hb. unfold abertura_procesada.
    replace (Rleb 0 b) with true by (symmetry; now apply Rleb_true). apply Rmin_l. }
  unfold cerramiento_condicion_4, a0i, agi, abertura_total, area_total, suma,
    tupla, paredes, aberturas.
  cbn [frontal izquierda trasera derecha cubierta fold_left map combine].
  set (p1 := abertura_procesada b1 a1) in *. set (p2 := abertura_procesada b2 a2) in *.
  set (p3 := abertura_procesada b3 a3) in *. set (p4 := abertura_procesada b4 a4) in *.
  set (p5 := abertura_procesada b5 a5) in *.
  split; [repeat (apply Forall2_cons; [lra|]); apply Forall2_nil|].
  split; [repeat (apply Forall2_cons; [intros Hb; now apply M|]); apply Forall2_nil|].
  split.
  { intros F. inversion F as [|? ? ? ? F1 F']; subst. inversion F' as [|? ? ? ? F2 F'']; subst.
    inversion F'' as [|? ? ? ? F3 F''']; subst. inversion F''' as [|? ? ? ? F4 F'''']; subst.
    inversion F'''' as [|? ? ? ? F5 _]; subst.
    now rewrite Q1, Q2, Q3, Q4, Q5. }
  split; [lra|].
  split; [repeat (apply Forall2_cons; [lra|]); apply Forall2_nil|].
  intros Hpos.
  inversion Hpos as [|? ? G1 G']; subst. inversion G' as [|? ? G2 G'']; subst.
  inversion G'' as [|? ? G3 G''']; subst. inversion G''' as [|? ? G4 G'''']; subst.
  inversion G'''' as [|? ? G5 _]; subst.
  cbn [condicion_4].
  repeat (rewrite py_div_ok by lra; cbn [ligar]).
  eexists. split; reflexivity.
Qed.

Lemma aberturas_acotadas_testigo :
  let areas := {| frontal := 30; izquierda := 60; trasera := 30; derecha := 60;
                  cubierta := 200 |} in
  let _aberturas := {| frontal := 40; izquierda := -1; trasera := 5; derecha := 0;
                       cubierta := 0 |} in
  0 <= abertura_total _aberturas areas <= area_total areas.
Proof.
  intros areas _aberturas.
  assert (H : Forall (fun area => 0 <= area) (tupla areas)).
  { repeat (apply Forall_cons; [cbn; lra|]). apply Forall_nil. }
  exact (proj1 (proj2 (proj2 (proj2 (aberturas_acotadas _aberturas areas H))))).
Defined.

Lemma abertura_procesada_condicion_1 abertura area :
  0 < area ->
  Rleb (0.8 * area) (abertura_procesada abertura area) = Rleb (0.8 * area) abertura.
Proof.
  intros Ha. unfold abertura_procesada.
  destruct (Rleb 0 abertura) eqn:E; [apply Rleb_true in E | apply Rleb_false in E].
  - destruct (Rle_dec abertura area) as [H | H].
    + now rewrite Rmin_left.
    + rewrite Rmin_right by lra.
      replace (Rleb (0.8 * area) area) with true by (symmetry; apply Rleb_true; lra).
      symmetry. apply Rleb_true. lra.
  - replace (Rleb (0.8 * area) 0) with false by (symmetry; apply Rleb_false; lra).
    symmetry. apply Rleb_false. lra.
Qed.

Lemma abertura_procesada_condicion_3 abertura area :
  0 < area ->
  Rltb (Rmin 0.4 (0.01 * area)) (abertura_procesada abertura area)
  = Rltb (Rmin 0.4 (0.01 * area)) abertura.
Proof.
  intros Ha. unfold abertura_procesada.
  assert (Hm : 0 < Rmin 0.4 (0.01 * area) < area).
  { split; [apply Rmin_glb_lt; lra|].
    apply Rle_lt_trans with (0.01 * area); [apply Rmin_r | lra]. }
  set (m := Rmin 0.4 (0.01 * area)) in *.
  destruct (Rleb 0 abertura) eqn:E; [apply Rleb_true in E | apply Rleb_false in E].
  - destruct (Rle_dec abertura area) as [H | H].
    + now rewrite Rmin_left.
    + rewrite Rmin_right by lra.
      replace (Rltb m area) with true by (symmetry; apply Rltb_true; lra).
      symmetry. apply Rltb_true. lra.
  - replace (Rltb m 0) with false by (symmetry; apply Rltb_false; lra).
    symmetry. apply Rltb_false. lra.
Qed.

(** X25: for walls of positive area the first and the third enclosure
    conditions do not depend on the processing of the openings: each wall
    gets the answer that its opening as given would get. *)
Theorem cerramiento_condiciones_sin_recorte :
  forall _aberturas areas : AreasEdificio,
    Forall (fun area => 0 < area) (paredes areas) ->
    cerramiento_condicion_1 _aberturas areas =
      map (fun par => Rleb (0.8 * snd par) (fst par))
          (combine (paredes _aberturas) (paredes areas)) /\
    cerramiento_condicion_3 _aberturas areas =
      map (fun par => Rltb (snd par) (fst par))
          (combine (paredes _aberturas) (min_areas areas)).
Proof.
  intros [b1 b2 b3 b4 b5] [a1 a2 a3 a4 a5] H.
  unfold paredes in H. cbn [frontal izquierda trasera derecha] in H.
  inversion H as [|? ? H1 G1]; subst. inversion G1 as [|? ? H2 G2]; subst.
  inversion G2 as [|? ? H3 G3]; subst. inversion G3 as [|? ? H4 _]; subst.
  unfold cerramiento_condicion_1, cerramiento_condicion_3, min_areas, paredes, aberturas.
  cbn [frontal izquierda trasera derecha cubierta map combine fst snd].
  rewrite !abertura_procesada_condicion_1, !abertura_procesada_condicion_3 by assumption.
  split; reflexivity.
Qed.

Lemma cerramiento_condiciones_sin_recorte_testigo :
  let areas := {| frontal := 30; izquierda := 60; trasera := 30; derecha := 60;
                  cubierta := 200 |} in
  let _aberturas := {| frontal := 40; izquierda := -1; trasera := 5; derecha := 0;
                       cubierta := 0 |} in
  cerramiento_condicion_1 _aberturas areas =
    map (fun par => Rleb (0.8 * snd par) (fst par))
        (combine (paredes _aberturas) (paredes areas)).
Proof.
  intros areas _aberturas.
  assert (H : Forall (fun area => 0 < area) (paredes areas)).
  { repeat (apply Forall_cons; [cbn; lra|]). apply Forall_nil. }
  exact (proj1 (cerramiento_condiciones_sin_recorte _aberturas areas H)).
Defined.

End PropiedadesGeometriaEdificio.

(** ** Net pressure coefficients of isolated roofs *)

Section PropiedadesCpAisladasValores.
Import Enums PyReal CpCubierta CpAisladasValores.
Local Open Scope R_scope.

Lemma np_interp_no_vacia lo hi x x0 xs (fs : list R) :
  Forall (fun f => lo <= f <= hi) fs -> fs <> [] ->
  exists v, np_interp x (combine (x0 :: xs) fs) = Ok v /\ lo <= v <= hi.
Proof.
  intros Hf Hne. destruct fs as [|f0 fs]; [congruence|].
  change (combine (x0 :: xs) (f0 :: fs)) with ((x0, f0) :: combine xs fs).
  destruct (np_interp_definida x (x0, f0) (combine xs fs)) as (v & Hv).
  exists v. split; [exact Hv|].
  apply (np_interp_cotas lo hi x ((x0, f0) :: combine xs fs) v); [|exact Hv].
  apply (Forall_combine_snd (fun f => lo <= f <= hi) (x0 :: xs) (f0 :: fs) Hf).
Qed.

Lemma interpolar_filas_bloqueos lo hi x (filas : list (list R)) :
  Forall (Forall (fun f => lo <= f <= hi)) filas ->
  Forall (fun fila => fila <> []) filas -> filas <> [] ->
  exists vs,
    interpolar_filas x bloqueos filas = Ok vs /\
    Forall (fun v => lo <= v <= hi) vs /\ vs <> [].
Proof.
  intros Hc Hne Hf. unfold bloqueos.
  destruct (interpolar_filas_definida x 0 [1] filas Hne) as (vs & Hvs).
  destruct (interpolar_filas_cotas lo hi x [0; 1] filas vs Hc Hvs) as [Hr Hl].
  exists vs. split; [exact Hvs|]. split; [exact Hr|].
  intros ->. destruct filas; [congruence | discriminate].
Qed.

(** One interpolation over the angles, of ordinates within [lo, hi]. *)
Ltac interpolar_angulo lo hi :=
  match goal with
  | |- context [ligar (np_interp ?x (combine (?x0 :: ?xs) ?fs)) _] =>
      let v := fresh "v" in
      let Hv := fresh "Hv" in
      let Hr := fresh "Hr" in
      destruct (np_interp_no_vacia lo hi x x0 xs fs) as (v & Hv & Hr);
      [first [assumption | repeat (apply Forall_cons; [lra|]); apply Forall_nil]
      |first [assumption | discriminate]
      |rewrite Hv; cbn [ligar]]
  end.

(** The interpolations over the blockage, of rows within [lo, hi]. *)
Ltac interpolar_bloqueo lo hi :=
  match goal with
  | |- context [ligar (interpolar_filas ?x bloqueos ?filas) _] =>
      let vs := fresh "vs" in
      let Hvs := fresh "Hvs" in
      let Hr := fresh "Hr" in
      let Hne := fresh "Hne" in
      destruct (interpolar_filas_bloqueos lo hi x filas) as (vs & Hvs & Hr & Hne);
      [repeat (apply Forall_cons;
               [repeat (apply Forall_cons; [lra|]); apply Forall_nil|]);
       apply Forall_nil
      |repeat (apply Forall_cons; [discriminate|]); apply Forall_nil
      |discriminate
      |rewrite Hvs; cbn [ligar]]
  end.

Lemma cpn_dos_aguas_cotas self :
  exists v,
    _cpn_dos_aguas self = Ok v /\
    map fst (cpn_local v) = [ZONA_A; ZONA_B; ZONA_C; ZONA_D; ZONA_BC; ZONA_BD] /\
    Forall (fun e => 0.3 <= MAX e <= 1.9 /\ -2.7 <= MIN e <= -0.5)
           (cpn_global v :: map snd (cpn_local v)) /\
    (forall b c bc,
       In (ZONA_B, b) (cpn_local v) -> In (ZONA_C, c) (cpn_local v) ->
       In (ZONA_BC, bc) (cpn_local v) ->
       MAX bc = Rmax (MAX b) (MAX c) /\ MIN bc = Rmin (MIN b) (MIN c)).
Proof.
  unfold _cpn_dos_aguas. cbv zeta.
  do 5 interpolar_angulo 0.3 1.9.
  do 5 interpolar_bloqueo (-2.7) (-0.5).
  do 5 interpolar_angulo (-2.7) (-0.5).
  eexists. split; [reflexivity|].
  cbn [cpn_local cpn_global map fst snd]. split; [reflexivity|]. split.
  - repeat (apply Forall_cons;
            [cbn [MAX MIN]; unfold Rmax, Rmin;
             repeat match goal with |- context [Rle_dec ?a ?b] => destruct (Rle_dec a b) end;
             lra|]).
    apply Forall_nil.
  - intros b c bc Hb Hc Hbc. cbn [In] in Hb, Hc, Hbc.
    repeat (destruct Hb as [Hb | Hb]; [try discriminate Hb|]); try contradiction.
    repeat (destruct Hc as [Hc | Hc]; [try discriminate Hc|]); try contradiction.
    repeat (destruct Hbc as [Hbc | Hbc]; [try discriminate Hbc|]); try contradiction.
    injection Hb as <-. injection Hc as <-. injection Hbc as <-.
    split; reflexivity.
Qed.

Lemma cpn_un_agua_cotas self :
  exists v,
    _cpn_un_agua self = Ok v /\
    map fst (cpn_local v) = [ZONA_A; ZONA_B; ZONA_C; ZONA_BC] /\
    Forall (fun e => 0.2 <= MAX e <= 3.2 /\ -3.8 <= MIN e <= -0.5)
           (cpn_global v :: map snd (cpn_local v)) /\
    (forall b c bc,
       In (ZONA_B, b) (cpn_local v) -> In (ZONA_C, c) (cpn_local v) ->
       In (ZONA_BC, bc) (cpn_local v) ->
       MAX bc = Rmax (MAX b) (MAX c) /\ MIN bc = Rmin (MIN b) (MIN c)).
Proof.
  unfold _cpn_un_agua. cbv zeta.
  do 4 interpolar_angulo 0.2 3.2.
  destruct (posicion_bloqueo self).
  - do 4 interpolar_bloqueo (-3.8) (-0.5).
    do 4 interpolar_angulo (-3.8) (-0.5).
    eexists. split; [reflexivity|].
    cbn [cpn_local cpn_global map fst snd]. split; [reflexivity|]. split.
    + repeat (apply Forall_cons;
              [cbn [MAX MIN]; unfold Rmax, Rmin;
               repeat match goal with |- context [Rle_dec ?a ?b] => destruct (Rle_dec a b) end;
               lra|]).
      apply Forall_nil.
    + intros b c bc Hb Hc Hbc. cbn [In] in Hb, Hc, Hbc.
      repeat (destruct Hb as [Hb | Hb]; [try discriminate Hb|]); try contradiction.
      repeat (destruct Hc as [Hc | Hc]; [try discriminate Hc|]); try contradiction.
      repeat (destruct Hbc as [Hbc | Hbc]; [try discriminate Hbc|]); try contradiction.
      injection Hb as <-. injection Hc as <-. injection Hbc as <-.
      split; reflexivity.
  - do 4 interpolar_bloqueo (-3.8) (-0.5).
    do 4 interpolar_angulo (-3.8) (-0.5).
    eexists. split; [reflexivity|].
    cbn [cpn_local cpn_global map fst snd]. split; [reflexivity|]. split.
    + repeat (apply Forall_cons;
              [cbn [MAX MIN]; unfold Rmax, Rmin;
               repeat match goal with |- context [Rle_dec ?a ?b] => destruct (Rle_dec a b) end;
               lra|]).
      apply Forall_nil.
    + intros b c bc Hb Hc Hbc. cbn [In] in Hb, Hc, Hbc.
      repeat (destruct Hb as [Hb | Hb]; [try discriminate Hb|]); try contradiction.
      repeat (destruct Hc as [Hc | Hc]; [try discriminate Hc|]); try contradiction.
      repeat (destruct Hbc as [Hbc | Hbc]; [try discriminate Hbc|]); try contradiction.
      injection Hb as <-. injection Hc as <-. injection Hbc as <-.
      split; reflexivity.
Qed.

(** X26: the net pressure coefficients of an isolated roof are defined for
    every angle and every blockage ratio.  A mono-pitch roof gets the zones
    A, B, C and BC, with every maximum within [0.2, 3.2] and every minimum
    within [-3.8, -0.5]; any other roof gets A, B, C, D, BC and BD, within
    [0.3, 1.9] and [-2.7, -0.5].  So every maximum is positive and every
    minimum negative, and zone BC takes the larger maximum and the smaller
    minimum of the zones B and C. *)
Theorem cpn_valores_cotas :
  forall self : CubiertaAislada,
    exists v,
      valores self = Ok v /\
      map fst (cpn_local v) =
        match tipo_cubierta self with
        | UN_AGUA => [ZONA_A; ZONA_B; ZONA_C; ZONA_BC]
        | _ => [ZONA_A; ZONA_B; ZONA_C; ZONA_D; ZONA_BC; ZONA_BD]
        end /\
      Forall (fun e =>
                match tipo_cubierta self with
                | UN_AGUA => 0.2 <= MAX e <= 3.2 /\ -3.8 <= MIN e <= -0.5
                | _ => 0.3 <= MAX e <= 1.9 /\ -2.7 <= MIN e <= -0.5
                end)
             (cpn_global v :: map snd (cpn_local v)) /\
      Forall (fun e => MIN e < 0 < MAX e) (cpn_global v :: map snd (cpn_local v)) /\
      (forall b c bc,
         In (ZONA_B, b) (cpn_local v) -> In (ZONA_C, c) (cpn_local v) ->
         In (ZONA_BC, bc) (cpn_local v) ->
         MAX bc = Rmax (MAX b) (MAX c) /\ MIN bc = Rmin (MIN b) (MIN c)).
Proof.
  intros self. unfold valores.
  destruct (tipo_cubierta self).
  - destruct (cpn_dos_aguas_cotas self) as (v & Hv & Hz & Hc & Hbc).
    exists v. split; [exact Hv|]. split; [exact Hz|]. split; [exact Hc|].
    split; [|exact Hbc].
    eapply Forall_impl; [|exact Hc]. intros e He. cbv beta in He. lra.
  - destruct (cpn_un_agua_cotas self) as (v & Hv & Hz & Hc & Hbc).
    exists v. split; [exact Hv|]. split; [exact Hz|]. split; [exact Hc|].
    split; [|exact Hbc].
    eapply Forall_impl; [|exact Hc]. intros e He. cbv beta in He. lra.
  - destruct (cpn_dos_aguas_cotas self) as (v & Hv & Hz & Hc & Hbc).
    exists v. split; [exact Hv|]. split; [exact Hz|]. split; [exact Hc|].
    split; [|exact Hbc].
    eapply Forall_impl; [|exact Hc]. intros e He. cbv beta in He. lra.
Qed.

End PropiedadesCpAisladasValores.

(** ** Gust-effect factor of a flexible structure *)

Section PropiedadesRafagaFlexible.
Import Enums PyReal Factores.
Local Open Scope R_scope.

Lemma b_bar_positiva cat : 0 < b_bar (_constantes_exposicion cat).
Proof. destruct cat; cbn; lra. Qed.

Lemma Rpower_positiva x y : 0 < Rpower x y.
Proof. unfold Rpower. apply exp_pos. Qed.

Lemma ri_positivo j : exists v, ri j = Ok v /\ 0 < v.
Proof.
  unfold ri. destruct (Rltb 0 j) eqn:E; [|exists 1; split; [reflexivity | lra]].
  apply Rltb_true in E.
  rewrite py_div_ok by lra. cbn [ligar].
  assert (Hj2 : 0 < 2 * (j * j)) by nra.
  rewrite py_div_ok by lra. cbn [ligar].
  eexists. split; [reflexivity|].
  assert (He : 1 + - 2 * j < exp (- 2 * j)) by (apply exp_ineq1; lra).
  assert (H : (1 - exp (- 2 * j)) / (2 * (j * j)) < 1 / j).
  { replace (1 / j) with ((2 * j) / (2 * (j * j))) by (field; lra).
    unfold Rdiv. apply Rmult_lt_compat_r; [now apply Rinv_0_lt_compat | lra]. }
  lra.
Qed.

Lemma parametros_flexible self :
  flexibilidad self = FLEXIBLE ->
  / 3600 < frecuencia self -> 0 < velocidad self -> 0 < beta self ->
  exists p g r',
    parametros self = Ok p /\ gr p = Some g /\ r p = Some r' /\
    0 < iz p /\ 0 < lz p.
Proof.
  intros Hf Hn Hv Hb. unfold parametros. rewrite Hf. cbn [es_flexible].
  destruct (constantes_positivas (categoria_exp self)) as (_ & _ & Hzmin & Hc & Hle & _).
  pose proof (b_bar_positiva (categoria_exp self)) as Hbb.
  fold (constantes_exp_terreno self) in *.
  set (k := constantes_exp_terreno self) in *.
  pose proof (Rmax_r (altura_rafaga self) (zmin k)) as Hz.
  set (z := Rmax (altura_rafaga self) (zmin k)) in *.
  rewrite py_div_ok by lra. cbn [ligar].
  rewrite py_pow_pos by (apply Rdiv_lt_0_compat; lra). cbn [ligar].
  rewrite py_div_ok by lra. cbn [ligar].
  rewrite py_pow_pos by (apply Rdiv_lt_0_compat; lra). cbn [ligar].
  pose proof (Rpower_positiva (10 / z) (1 / 6)) as Hp1.
  pose proof (Rpower_positiva (z / 10) (ep_bar k)) as Hp2.
  set (p1 := Rpower (10 / z) (1 / 6)) in *.
  set (p2 := Rpower (z / 10) (ep_bar k)) in *.
  assert (Hlz : 0 < le k * p2) by (apply Rmult_lt_0_compat; assumption).
  assert (Hiz : 0 < c k * p1) by (apply Rmult_lt_0_compat; assumption).
  assert (H3600 : 1 < 3600 * frecuencia self).
  { apply (Rmult_lt_compat_l 3600) in Hn; [|lra].
    rewrite Rinv_r in Hn by lra. exact Hn. }
  unfold math_log.
  replace (Rltb 0 (3600 * frecuencia self)) with true
    by (symmetry; apply Rltb_true; lra).
  cbn [ligar].
  assert (Hl : 0 < ln (3600 * frecuencia self)).
  { rewrite <- ln_1. apply ln_increasing; lra. }
  set (l := ln (3600 * frecuencia self)) in *.
  rewrite py_pow_raiz by lra. cbn [ligar].
  assert (Hg1 : 0 < sqrt (2 * l)) by (apply sqrt_lt_R0; lra).
  set (g1 := sqrt (2 * l)) in *.
  rewrite py_div_ok by lra. cbn [ligar].
  rewrite py_pow_pos by (apply Rdiv_lt_0_compat; lra). cbn [ligar].
  pose proof (Rpower_positiva (z / 10) (alpha_bar k)) as Hp3.
  set (p3 := Rpower (z / 10) (alpha_bar k)) in *.
  assert (Hvz : 0 < b_bar k * p3 * velocidad self).
  { apply Rmult_lt_0_compat; [apply Rmult_lt_0_compat|]; assumption. }
  set (vz := b_bar k * p3 * velocidad self) in *.
  assert (Hfrec : 0 < frecuencia self).
  { apply Rlt_trans with (/ 3600); [apply Rinv_0_lt_compat; lra | assumption]. }
  rewrite py_div_ok by lra. cbn [ligar].
  assert (Hn1 : 0 < frecuencia self * (le k * p2) / vz).
  { apply Rdiv_lt_0_compat; [apply Rmult_lt_0_compat|]; assumption. }
  set (n1 := frecuencia self * (le k * p2) / vz) in *.
  rewrite py_pow_pos by lra. cbn [ligar].
  pose proof (Rpower_positiva (1 + 10.3 * n1) (5 / 3)) as Hd.
  set (d := Rpower (1 + 10.3 * n1) (5 / 3)) in *.
  rewrite py_div_ok by lra. cbn [ligar].
  assert (Hrn : 0 < 7.47 * n1 / d) by (apply Rdiv_lt_0_compat; lra).
  set (rn := 7.47 * n1 / d) in *.
  rewrite !py_div_ok by lra. cbn [ligar].
  destruct (ri_positivo (4.6 * frecuencia self * altura self / vz)) as (rh & -> & Hrh).
  cbn [ligar].
  destruct (ri_positivo (4.6 * frecuencia self * ancho self / vz)) as (rb & -> & Hrb).
  cbn [ligar].
  destruct (ri_positivo (15.4 * frecuencia self * longitud self / vz)) as (rl & -> & Hrl).
  cbn [ligar].
  rewrite py_div_ok by lra. cbn [ligar].
  assert (Ht : 0 < rn * rh * rb * (0.53 + 0.47 * rl) / beta self).
  { apply Rdiv_lt_0_compat; [|assumption].
    apply Rmult_lt_0_compat; [|lra].
    apply Rmult_lt_0_compat; [|assumption].
    apply Rmult_lt_0_compat; assumption. }
  rewrite py_pow_raiz by assumption. cbn [ligar].
  eexists. eexists. eexists. split; [reflexivity|].
  cbn [gr r iz lz]. auto.
Qed.

Lemma factor_q_definido self p :
  parametros self = Ok p -> 0 < lz p -> 0 <= longitud self + altura self ->
  exists q, factor_q self = Ok q /\ 0 < q <= 1.
Proof.
  intros Hp Hlz Hd. unfold factor_q. rewrite Hp. cbn [ligar].
  rewrite py_div_ok by lra. cbn [ligar].
  assert (Hq : 0 <= (longitud self + altura self) / lz p).
  { apply Rmult_le_pos; [assumption|]. apply Rlt_le, Rinv_0_lt_compat, Hlz. }
  destruct (py_pow_base_no_negativa _ 0.63 Hq ltac:(lra)) as (e & He & He0).
  rewrite He. cbn [ligar].
  rewrite py_div_ok by lra. cbn [ligar].
  assert (Hi : 0 < 1 / (1 + 0.63 * e) <= 1).
  { split; [apply Rdiv_lt_0_compat; lra|].
    apply (Rmult_le_reg_r (1 + 0.63 * e)); [lra|].
    unfold Rdiv. rewrite Rmult_assoc, Rinv_l by lra. lra. }
  rewrite py_pow_raiz by lra.
  eexists. split; [reflexivity|]. split.
  - apply sqrt_lt_R0. lra.
  - apply Rle_trans with (sqrt 1); [apply sqrt_le_1_alt; lra | rewrite sqrt_1; lra].
Qed.

(** X27: for a flexible structure with a natural frequency above 1/3600
    Hz, a positive wind speed, a positive damping ratio and a length and a
    height that do not add up to a negative number, the gust-effect factor
    is always defined, and it is never below the positive value that the
    formula for rigid structures gives for the same data. *)
Theorem rafaga_flexible_cota :
  forall self : Rafaga,
    factor_g_simplificado self = false ->
    flexibilidad self = FLEXIBLE ->
    / 3600 < frecuencia self -> 0 < velocidad self -> 0 < beta self ->
    0 <= longitud self + altura self ->
    exists gf g,
      factor self = Ok gf /\ _rigida self = Ok g /\ 0 < g <= gf.
Proof.
  intros self Hs Hf Hn Hv Hb Hd. unfold factor. rewrite Hs, Hf. cbn [es_flexible].
  unfold _flexible, _rigida.
  destruct (parametros_flexible self Hf Hn Hv Hb)
    as (p & g' & r' & Hp & Hgr & Hr & Hiz & Hlz).
  rewrite Hp. cbn [ligar].
  destruct (factor_q_definido self p Hp Hlz Hd) as (q & Hq & Hq0 & Hq1).
  rewrite Hq. cbn [ligar]. rewrite Hgr, Hr.
  set (A := 3.4 * q * (3.4 * q) + g' * r' * (g' * r')).
  assert (HA : 0 < A) by (unfold A; nra).
  rewrite py_pow_raiz by assumption. cbn [ligar].
  rewrite !py_div_ok by lra. cbn [ligar].
  eexists. eexists. split; [reflexivity|]. split; [reflexivity|].
  assert (Hraiz : 3.4 * q <= sqrt A).
  { rewrite <- (sqrt_square (3.4 * q)) by lra.
    apply sqrt_le_1_alt. unfold A. nra. }
  set (den := 1 + 1.7 * 3.4 * iz p).
  assert (Hden : 0 < den) by (unfold den; lra).
  split.
  - apply Rmult_lt_0_compat; [|lra]. apply Rdiv_lt_0_compat; [nra | assumption].
  - apply Rmult_le_compat_r; [lra|].
    unfold Rdiv. apply Rmult_le_compat_r; [apply Rlt_le, Rinv_0_lt_compat, Hden|].
    nra.
Qed.

Lemma rafaga_flexible_cota_testigo :
  exists gf g,
    factor {| ancho := 30; longitud := 60; altura := 80; altura_rafaga := 48;
              velocidad := 45; frecuencia := 0.5; beta := 0.02;
              flexibilidad := FLEXIBLE; factor_g_simplificado := false;
              categoria_exp := C |} = Ok gf /\
    _rigida {| ancho := 30; longitud := 60; altura := 80; altura_rafaga := 48;
               velocidad := 45; frecuencia := 0.5; beta := 0.02;
               flexibilidad := FLEXIBLE; factor_g_simplificado := false;
               categoria_exp := C |} = Ok g /\
    0 < g <= gf.
Proof.
  apply rafaga_flexible_cota;
    cbn [factor_g_simplificado flexibilidad frecuencia velocidad beta longitud altura];
    first [reflexivity | lra].
Defined.

End PropiedadesRafagaFlexible.

(** ** Pressures on wall components *)

Section PropiedadesPresionesParedes.
Import Enums MasEnums PyReal Presiones PresionesParedes.
Local Open Scope R_scope.

(** On the Figure 8 path no pressure goes through [presion_minima]: each
    one is what [_presiones] gives without the check. *)
Lemma presion_caso_b_sin_piso self pared valor_gcp g p :
  presion_caso_b self pared valor_gcp g = EnAlturaMedia p ->
  let qh := presion_velocidad_media (base self) in
  pos p = qh * 1 * valor_gcp - g * qh /\ neg p = qh * 1 * valor_gcp + g * qh.
Proof.
  unfold presion_caso_b. destruct pared; intros H; try discriminate;
    injection H as <-; split; reflexivity.
Qed.

(** C6: the code at the two failing inputs.  An open building with a zero
    coefficient gets the pressure 0 from [_presiones_componentes]:
    [presion_minima 0] is 0, of magnitude 0 and not [max(500, 0)], where the
    function is documented to return the maximum of the minimum pressure
    and the pressure.  A closed building with a mean roof height of 25 and a
    velocity pressure of 400 there takes the Figure 8 path for its wall
    components: zone 4 of the side wall gets (-432, -288), unfloored, where
    the floor gives -500 and [_presiones_componentes] returns (-500, -500)
    for the same coefficient. *)
Theorem presion_minima_sin_piso :
  let abierto := {| cerramiento := ABIERTO; reducir_gcpi := false;
                    aberturas_totales := None; volumen_interno := None;
                    presion_velocidad_media := 1000 |} in
  let cerrado := {| base := {| cerramiento := CERRADO; reducir_gcpi := false;
                               aberturas_totales := None; volumen_interno := None;
                               presion_velocidad_media := 400 |};
                    presiones_velocidad := [300; 400] |} in
  let cp := {| CpParedes.ancho := 30; CpParedes.longitud := 60;
               CpParedes.altura_media := 25; CpParedes.angulo_cubierta := 5 |} in
  (exists p,
     _presiones_componentes abierto (Some [(tt, [(tt, 0)])])
       = Ok (Some [(tt, [(tt, p)])]) /\
     pos p = 0 /\ neg p = 0 /\ Rabs (pos p) <> Rmax 500 (Rabs 0)) /\
  CpParedes.referencia cp = Pared_Figura_8 /\
  (exists r p,
     valores cerrado cp (Some [(tt, 1)]) = Ok (CasoB (Some r)) /\
     In (PARED_LATERAL, tt, CUATRO, EnAlturaMedia p) r /\
     pos p = -432 /\ neg p = -288 /\
     presion_minima (pos p) = -500 /\ presion_minima (neg p) = -500 /\
     pos p <> presion_minima (pos p) /\ neg p <> presion_minima (neg p)) /\
  (exists q,
     _presiones_componentes (base cerrado) (Some [(tt, [(CUATRO, -0.9 * 1)])])
       = Ok (Some [(tt, [(CUATRO, q)])]) /\
     pos q = -500 /\ neg q = -500).
Proof.
  intros abierto cerrado cp.
  assert (Hmenos : forall x, -500 < x < 0 -> presion_minima x = -500).
  { intros x Hx. rewrite presion_minima_negativa by lra.
    rewrite Rmax_left by lra. reflexivity. }
  split; [|split; [|split]].
  - exists {| pos := presion_minima (1000 * 1 * 0 - 1000 * (0.0 * 1));
              neg := presion_minima (1000 * 1 * 0 + 1000 * (0.0 * 1)) |}.
    split; [reflexivity|]. cbn [pos neg].
    replace (1000 * 1 * 0 - 1000 * (0.0 * 1)) with 0 by lra.
    replace (1000 * 1 * 0 + 1000 * (0.0 * 1)) with 0 by lra.
    rewrite presion_minima_cero, Rabs_R0, Rmax_left by lra.
    repeat split; lra.
  - unfold CpParedes.referencia, cp. cbn [CpParedes.altura_media].
    replace (Rleb 25 20) with false by (symmetry; apply Rleb_false; lra).
    reflexivity.
  - assert (Hcp : CpParedes.valores cp (Some [(tt, 1)])
                  = Ok (Some [(tt, [(CUATRO, -0.9 * 1); (CINCO, -1.8 * 1);
                                    (TODAS_PARED, 0.9 * 1)])])).
    { unfold CpParedes.valores, CpParedes.factor_reduccion, CpParedes.area_paredes,
        CpParedes.referencia, cp. cbn [CpParedes.altura_media].
      replace (Rleb 25 20) with false by (symmetry; apply Rleb_false; lra).
      cbn [CpParedes.valores_zonas_cp recorrer].
      rewrite !calcular_cp_componente_bajo by lra. reflexivity. }
    unfold valores. fold cp.
    replace (CpParedes.referencia cp) with Pared_Figura_8.
    2:{ unfold CpParedes.referencia, cp. cbn [CpParedes.altura_media].
        replace (Rleb 25 20) with false by (symmetry; apply Rleb_false; lra).
        reflexivity. }
    rewrite Hcp. cbn [ligar].
    eexists.
    exists {| pos := 400 * 1 * (-0.9 * 1) - 0.18 * 1 * 400;
              neg := 400 * 1 * (-0.9 * 1) + 0.18 * 1 * 400 |}.
    split; [reflexivity|]. split.
    + cbn [map flat_map entradas_cp app fst snd In].
      do 6 right. left. reflexivity.
    + cbn [pos neg].
      assert (H1 : 400 * 1 * (-0.9 * 1) - 0.18 * 1 * 400 = -432) by lra.
      assert (H2 : 400 * 1 * (-0.9 * 1) + 0.18 * 1 * 400 = -288) by lra.
      rewrite H1, H2, !Hmenos by lra. repeat split; lra.
  - exists {| pos := presion_minima (400 * 1 * (-0.9 * 1) - 400 * (0.18 * 1));
              neg := presion_minima (400 * 1 * (-0.9 * 1) + 400 * (0.18 * 1)) |}.
    split; [reflexivity|]. cbn [pos neg].
    split; apply Hmenos; lra.
Qed.

End PropiedadesPresionesParedes.
